(** * X-Automation: session and interaction orchestration engine

    A shallow embedding of the posting pipeline (src/unnamed/part_000),
    of the engagement bot (src/unnamed/part_001), of the first posting
    script (src/post.js) and of the CSV reader and the process routes
    of the dashboard server (src/server.js), with the properties the
    specification states about them and further properties of the
    code.

    Conventions.
    - A JavaScript string is the sequence of its UTF-16 code units.
    - An [async] function that talks to the browser, to the store or to
      the text-generation service is a computation in the monad [M]:
      it produces the events it caused, in order, and either a value or
      the exception it threw.  What the outside world answers is an
      argument of the function (a record of answers, or a function of
      the call number).
    - Library functions that are not part of the repository
      ([String.prototype.toLowerCase], [compareTwoStrings]) are
      Section variables. *)

From Stdlib Require Import List NArith ZArith QArith Qround Lia Bool String Ascii.
From stdpp Require Import base decidable countable gmap.
Import ListNotations.

Local Open Scope nat_scope.
Local Open Scope list_scope.

(* ================================================================== *)
(** * JavaScript values used by the scripts                            *)
(* ================================================================== *)

Module JS.

(** A string is a list of UTF-16 code units. *)
Definition jsstring : Type := list N.

(** A string literal of the source (ASCII only). *)
Definition lit (s : string) : jsstring :=
  map N_of_ascii (list_ascii_of_string s).

(** [s.length] *)
Definition len (s : jsstring) : nat := List.length s.

(** [s.substring(0, n)] *)
Definition substring0 (n : nat) (s : jsstring) : jsstring := firstn n s.

(** Truthiness of a string: only the empty string is falsy. *)
Definition truthy (s : jsstring) : bool :=
  match s with [] => false | _ :: _ => true end.

(** ECMAScript WhiteSpace and LineTerminator code units, the ones
    [String.prototype.trim] removes. *)
Definition isWhiteSpace (c : N) : bool :=
  ((9 <=? c) && (c <=? 13) || (c =? 32) || (c =? 160) || (c =? 5760)
   || (8192 <=? c) && (c <=? 8202) || (c =? 8232) || (c =? 8233)
   || (c =? 8239) || (c =? 8287) || (c =? 12288) || (c =? 65279))%N.

Fixpoint trimStart (s : jsstring) : jsstring :=
  match s with
  | [] => []
  | c :: r => if isWhiteSpace c then trimStart r else s
  end.

Definition trimEnd (s : jsstring) : jsstring := rev (trimStart (rev s)).

(** [s.trim()] *)
Definition trim (s : jsstring) : jsstring := trimEnd (trimStart s).

(** [s.startsWith(p)] *)
Fixpoint startsWith (p s : jsstring) : bool :=
  match p, s with
  | [], _ => true
  | _ :: _, [] => false
  | a :: p', b :: s' => (a =? b)%N && startsWith p' s'
  end.

(** [s.includes(p)] *)
Fixpoint includes (p s : jsstring) : bool :=
  startsWith p s ||
  match s with
  | [] => false
  | _ :: r => includes p r
  end.

(** [a === b] on strings *)
Fixpoint streq (a b : jsstring) : bool :=
  match a, b with
  | [], [] => true
  | x :: a', y :: b' => (x =? y)%N && streq a' b'
  | _, _ => false
  end.

(** [x || d] on a possibly absent string *)
Definition orStr (x : option jsstring) (d : jsstring) : jsstring :=
  match x with
  | Some s => if truthy s then s else d
  | None => d
  end.

(** [x || false] on a possibly absent boolean *)
Definition orFalse (x : option bool) : bool :=
  match x with Some b => b | None => false end.

(** [Math.floor(r * n)] for the value [r] that [Math.random()]
    returned: the index drawn in a list of [n] elements.  The product
    is the exact one; the source rounds it to a double before the
    floor, which for some draws gives the next index (never one past
    the end).  Nothing below depends on which index in the range is
    drawn. *)
Definition randomIndex (r : Q) (n : nat) : Z := Qfloor (r * inject_Z (Z.of_nat n)).

(** [xs[i]]: [undefined] (here [None]) outside the array. *)
Definition index {A} (xs : list A) (i : Z) : option A :=
  if (i <? 0)%Z then None else nth_error xs (Z.to_nat i).

End JS.

Arguments JS.lit : simpl never.

(* ================================================================== *)
(** * The monad of the scripts: events and exceptions                  *)
(* ================================================================== *)

Module Eff.

(** What a computation ends with: a value, or a thrown [Error] whose
    [message] is kept. *)
Inductive Res (A : Type) : Type :=
| Ok (a : A)
| Throw (message : JS.jsstring).
Arguments Ok {A} a.
Arguments Throw {A} message.

Section Monad.
Context {E : Type}.

(** A computation: the events it caused and how it ended. *)
Definition M (A : Type) : Type := (list E * Res A)%type.

Definition ret {A} (a : A) : M A := ([], Ok a).

Definition bind {A B} (m : M A) (k : A -> M B) : M B :=
  match m with
  | (t, Ok a) => let (t', r) := k a in (t ++ t', r)
  | (t, Throw e) => (t, Throw e)
  end.

(** [throw new Error(msg)] *)
Definition throw {A} (msg : JS.jsstring) : M A := ([], Throw msg).

(** [try { m } catch (error) { h error }] *)
Definition try_catch {A} (m : M A) (h : JS.jsstring -> M A) : M A :=
  match m with
  | (t, Ok a) => (t, Ok a)
  | (t, Throw e) => let (t', r) := h e in (t ++ t', r)
  end.

(** [try { m } finally { f }] *)
Definition try_finally {A} (m : M A) (f : M unit) : M A :=
  match m with
  | (t, r) =>
      match f with
      | (t', Ok _) => (t ++ t', r)
      | (t', Throw e) => (t ++ t', Throw e)
      end
  end.

(** An effect that is only observed. *)
Definition emit (e : E) : M unit := ([e], Ok tt).

(** An external call: observed as [e]; it resolves when [ok] holds and
    rejects with [msg] otherwise. *)
Definition call (e : E) (ok : bool) (msg : JS.jsstring) : M unit :=
  ([e], if ok then Ok tt else Throw msg).

(** An external call that answers with a value, or rejects. *)
Definition ask {A} (e : E) (answer : Res A) : M A := ([e], answer).

Definition events {A} (m : M A) : list E := fst m.
Definition result {A} (m : M A) : Res A := snd m.

(** [m] causes no event that [f] observes. *)
Definition silent {A X} (f : E -> list X) (m : M A) : Prop :=
  flat_map f (events m) = [].

(** Observes the events that do not satisfy [P]: a computation silent
    for [outside P] causes only events that satisfy [P]. *)
Definition outside (P : E -> bool) (e : E) : list E :=
  if P e then [] else [e].

End Monad.

Arguments M E A : clear implicits.

End Eff.

Import Eff.

Declare Scope eff_scope.
Delimit Scope eff_scope with eff.
Notation "'do' x <- m ; k" := (bind m (fun x => k))
  (at level 10, x name, m at level 100, k at level 200) : eff_scope.
Notation "'run' m ; k" := (bind m (fun _ => k))
  (at level 10, m at level 100, k at level 200) : eff_scope.

(* ================================================================== *)
(** * Session cookies                                                  *)
(* ================================================================== *)

(** The three scripts clean cookies with the same [filter] and [map]:
    src/unnamed/part_000 ([applySessionCookies], [extractAndSaveSession]),
    src/unnamed/part_001 (the same two functions) and src/post.js. *)

Module Session.
Import JS.

(** A cookie as the store or the browser hands it over: any field may
    be missing.  [expires] is a number of seconds; a session cookie has
    [-1]. *)
Record Cookie : Type := mkCookie {
  name : option jsstring;
  value : option jsstring;
  domain : option jsstring;
  path : option jsstring;
  httpOnly : option bool;
  secure : option bool;
  sameSite : option jsstring;
  expires : option Q
}.

(** The object literal built by the [map]: the first three fields are
    copied, the next four always exist, [expires] exists or not. *)
Record CleanCookie : Type := mkCleanCookie {
  c_name : option jsstring;
  c_value : option jsstring;
  c_domain : option jsstring;
  c_path : jsstring;
  c_httpOnly : bool;
  c_secure : bool;
  c_sameSite : jsstring;
  c_expires : option Q
}.

(** Truthiness of a possibly missing string. *)
Definition present (x : option jsstring) : bool :=
  match x with Some s => truthy s | None => false end.

(** [cookie.name && cookie.value && cookie.domain] *)
Definition keep (c : Cookie) : bool :=
  present (name c) && present (value c) && present (domain c).

(** [cookie.expires && cookie.expires > 0 ? { expires } : {}] *)
Definition keptExpires (e : option Q) : option Q :=
  match e with
  | Some q => if negb (Qeq_bool q 0) && negb (Qle_bool q 0) then Some q else None
  | None => None
  end.

Definition clean (c : Cookie) : CleanCookie :=
  {| c_name := name c;
     c_value := value c;
     c_domain := domain c;
     c_path := orStr (path c) (lit "/");
     c_httpOnly := orFalse (httpOnly c);
     c_secure := orFalse (secure c);
     c_sameSite := orStr (sameSite c) (lit "Lax");
     c_expires := keptExpires (expires c) |}.

(** [cookies.filter(...).map(...)] *)
Definition cleanCookies (cookies : list Cookie) : list CleanCookie :=
  map clean (List.filter keep cookies).

(** A stored session, and the web storage snapshots as key/value
    lists. *)
Record SessionData : Type := mkSessionData {
  cookies : list Cookie;
  localStorage : list (jsstring * jsstring);
  sessionStorage : list (jsstring * jsstring)
}.

End Session.

(* ================================================================== *)
(** * The posting pipeline: src/unnamed/part_000                       *)
(* ================================================================== *)

Module AutoPost.
Import JS.

(** ** Configuration ([CONFIG]) *)

Module CONFIG.
Definition maxRetries : nat := 3.
Definition similarityThreshold : Q := 7 # 10.
Definition temperature : Q := 85 # 100.
Definition lookbackMs : Z := 24 * 60 * 60 * 1000.
Definition historyLimit : nat := 20.
Definition maxTrends : nat := 15.
Definition maxPostLength : nat := 280.
End CONFIG.

(** ** Data *)

(** A trend scraped from the trending page. *)
Record Trend : Type := mkTrend {
  topic : jsstring;
  context : jsstring;
  tweetCount : jsstring
}.

(** What [generatePostWithOpenRouter] returns when it does not return
    [null]. *)
Record PostData : Type := mkPostData {
  post : jsstring;
  p_topic : jsstring;
  p_context : jsstring;
  p_tweetCount : jsstring
}.

(** The [metadata] object of a content log entry. *)
Record Metadata : Type := mkMetadata {
  model : jsstring;
  md_temperature : Q;
  scrollPages : nat;
  method : jsstring
}.

(** The object handed to [ContentLog.create]. *)
Record NewContentLog : Type := mkNewContentLog {
  trendingTopic : jsstring;
  trendContext : jsstring;
  nl_tweetCount : jsstring;
  nl_generatedPost : jsstring;
  postLength : nat;
  nl_success : bool;
  retryCount : nat;
  metadata : option Metadata
}.

(** A stored content log document: [postedAt] is filled in by the
    schema default, in milliseconds since the epoch. *)
Record ContentLogDoc : Type := mkContentLogDoc {
  generatedPost : jsstring;
  postedAt : Z;
  success : bool
}.

(** The three ways [postTweetWithButton] clicks the Post button. *)
Inductive ClickStrategy : Type :=
| NativeClick      (* page.$eval(selector, element => element.click()) *)
| EvaluateClick    (* page.evaluate: document.querySelector(..).click() *)
| CoordinateClick. (* page.mouse.click at the centre of the bounding box *)

(** The scripts [postTweetWithButton], [postTweetWithEnter] and
    [verifyTweetPosted] run in the page. *)
Inductive Script : Type :=
| ClearTextarea | ForceEnableButton | ScrollButtonIntoView
| ReadTextareaCleared | FindTweetInTimeline | DispatchCtrlEnter
| ButtonEnabled.

(** ** Events: what the run does to the outside world

    [ClickAttempt s] is the first call of click strategy [s]: the
    [page.$eval] of the native click, the [page.evaluate] of the
    injected click, the [page.$] that starts the coordinate click.
    [PostTweet text] is the entry into [postTweetWithButton], which
    prints the content it was given; [VerificationInconclusive] is the
    warning printed when the verification answers [false]. *)

Inductive Event : Type :=
| Goto (url : jsstring)
| HumanDelay (min max : N)
| Sleep (ms : N)
| MouseMove
| WaitForSelector (selector : jsstring)
| Evaluate (s : Script)
| ElementClick
| KeyboardType (c : N)
| KeyboardShortcut
| ClickAttempt (s : ClickStrategy)
| BoundingBox
| MouseClick (x y : Q)
| Screenshot
| VerificationInconclusive
| PostTweet (tweetContent : jsstring)
| InitializeCSV
| PostingAttempt (attempt maxRetries : nat)
| ContentLogCreate (doc : NewContentLog)
| ErrorLogCreate (errorType errorMessage : jsstring)
| AppendToCSV (doc : NewContentLog)
| ContentLogFind
| ApiPost (selectedTopic : jsstring)
| ScrollBy (pixels : N)
| ExtractTrends
| DiscoverTrends
| SelectTrend (chosen : jsstring)
| SampleTweets (t : jsstring)
| DiversityCheck (p : jsstring) (diverse : bool)
| SetCookie (cs : list Session.CleanCookie)
| SetLocalStorage (items : list (jsstring * jsstring))
| ReadCookies
| ReadLocalStorage
| ReadSessionStorage
| SaveSession (email : jsstring) (cs : list Session.CleanCookie)
| LaunchBrowser
| BrowserPages
| NewPage
| SetViewport
| SetUserAgent
| EvaluateOnNewDocument
| LoadSession
| ApplySession
| ValidateSession
| Login
| ExtractSession
| AutoScroll
| ConnectMongo
| ProcessExit (code : nat)
| BrowserClose
| MongoClose.

Local Open Scope eff_scope.

(** ** Sessions ([applySessionCookies], [extractAndSaveSession]) *)

Definition errPage : jsstring := lit "page error".

(** What the page answers while cookies are applied. *)
Record CookiePage : Type := mkCookiePage {
  cp_gotoOk : bool;
  cp_setCookieOk : bool;
  cp_storageOk : bool
}.

Definition applySessionCookies (pg : CookiePage) (sessionData : Session.SessionData)
    : M Event bool :=
  try_catch
    (run call (Goto (lit "https://twitter.com")) (cp_gotoOk pg) errPage;
     run emit (HumanDelay 1000 2000);
     let cleanCookies := Session.cleanCookies (Session.cookies sessionData) in
     run (if 0 <? length cleanCookies
          then call (SetCookie cleanCookies) (cp_setCookieOk pg) errPage
          else ret tt);
     run (if 0 <? length (Session.localStorage sessionData)
          then call (SetLocalStorage (Session.localStorage sessionData))
                 (cp_storageOk pg) errPage
          else ret tt);
     ret true)
    (fun _ => ret false).

(** What the page and the store answer while a session is saved. *)
Record ExtractPage : Type := mkExtractPage {
  ep_cookies : Res (list Session.Cookie);
  ep_localStorage : Res (list (jsstring * jsstring));
  ep_sessionStorage : Res (list (jsstring * jsstring));
  ep_dbUp : bool
}.

(** [saveSessionToDB] catches its own errors. *)
Definition saveSessionToDB (dbUp : bool) (email : jsstring)
    (cs : list Session.CleanCookie) : M Event unit :=
  try_catch (call (SaveSession email cs) dbUp (lit "store unreachable"))
    (fun _ => ret tt).

Definition extractAndSaveSession (pg : ExtractPage) (email : jsstring)
    : M Event unit :=
  try_catch
    (run emit (HumanDelay 3000 5000);
     do rawCookies <- ask ReadCookies (ep_cookies pg);
     let cleanCookies := Session.cleanCookies rawCookies in
     do _ls <- ask ReadLocalStorage (ep_localStorage pg);
     do _ss <- ask ReadSessionStorage (ep_sessionStorage pg);
     saveSessionToDB (ep_dbUp pg) email cleanCookies)
    (fun _ => ret tt).

(** ** Verification ([verifyTweetPosted]) *)

(** What the page answers during the verification. *)
Record VerifyPage : Type := mkVerifyPage {
  v_textareaCleared : Res bool;
  v_gotoOk : bool;
  v_tweetFound : Res bool
}.

Definition homeUrl : jsstring := lit "https://twitter.com/home".

Definition verifyTweetPosted (pg : VerifyPage) : M Event bool :=
  try_catch
    (run emit (HumanDelay 2000 3000);
     do textareaCleared <- ask (Evaluate ReadTextareaCleared) (v_textareaCleared pg);
     if textareaCleared then ret true
     else
       run call (Goto homeUrl) (v_gotoOk pg) errPage;
       run emit (HumanDelay 3000 5000);
       do tweetFound <- ask (Evaluate FindTweetInTimeline) (v_tweetFound pg);
       if tweetFound then ret true else ret false)
    (fun _ => ret false).

(** ** The interaction executor ([postTweetWithButton]) *)

(** What [page.waitForSelector] answers for one selector. *)
Inductive Probe : Type := ProbeHandle | ProbeNull | ProbeTimeout.

Record Box : Type := mkBox { bx : Q; by_ : Q; width : Q; height : Q }.

(** What the page answers to the coordinate click. *)
Inductive Coordinate : Type :=
| QueryRejects                       (* [page.$] rejects *)
| NoElement                          (* [page.$] gives [null] *)
| BoxRejects                         (* [boundingBox()] rejects *)
| NoBox                              (* [boundingBox()] gives [null] *)
| HasBox (b : Box) (clickOk : bool). (* a box; [mouse.click] resolves or not *)

(** What the page answers during one invocation. *)
Record SubmitPage : Type := mkSubmitPage {
  s_gotoOk : bool;
  s_probe : nat -> Probe;
  s_clearOk : bool;
  s_focusOk : bool;
  s_typeOk : nat -> bool;
  s_buttonOk : bool;
  s_enableOk : bool;
  s_scrollOk : bool;
  s_nativeOk : bool;
  s_evaluateOk : bool;
  s_coordinate : Coordinate;
  s_verify : VerifyPage;
  s_screenshotOk : bool
}.

(** [randomMouseMovement] catches its own errors. *)
Definition randomMouseMovement : M Event unit := emit MouseMove.

Definition textareaSelectors : list jsstring :=
  [ lit "[data-testid=tweetTextarea_0]";
    lit "div[contenteditable=true][data-testid=tweetTextarea_0]";
    lit "div[role=textbox][aria-label*=Tweet]";
    lit "div[role=textbox]" ].

(** The [for ... of] loop over the selectors, from the [i]-th one: tells
    whether [textarea] ends up set. *)
Fixpoint findTextarea (pg : SubmitPage) (selectors : list jsstring) (i : nat)
    : M Event bool :=
  match selectors with
  | [] => ret false
  | selector :: rest =>
      do found <- try_catch
          (ask (WaitForSelector selector)
             match s_probe pg i with
             | ProbeHandle => Ok true
             | ProbeNull => Ok false
             | ProbeTimeout => Throw (lit "waiting for selector failed")
             end)
          (fun _ => ret false);
      if found then ret true else findTextarea pg rest (S i)
  end.

(** The [for ... of] loop over the characters of the content. *)
Fixpoint typeContent (pg : SubmitPage) (content : jsstring) (i : nat)
    : M Event unit :=
  match content with
  | [] => ret tt
  | c :: rest =>
      run call (KeyboardType c) (s_typeOk pg i) errPage;
      typeContent pg rest (S i)
  end.

(** The third strategy, inside its [try]: tells whether [clicked] was
    set. *)
Definition coordinateClick (pg : SubmitPage) : M Event bool :=
  do buttonElement <- ask (ClickAttempt CoordinateClick)
      match s_coordinate pg with
      | QueryRejects => Throw errPage
      | NoElement => Ok false
      | _ => Ok true
      end;
  if buttonElement then
    do box <- ask BoundingBox
        match s_coordinate pg with
        | BoxRejects => Throw errPage
        | HasBox b _ => Ok (Some b)
        | _ => Ok None
        end;
    match box with
    | Some b =>
        run call (MouseClick (bx b + width b / 2) (by_ b + height b / 2))
              match s_coordinate pg with HasBox _ ok => ok | _ => false end
              errPage;
        ret true
    | None => ret false
    end
  else ret false.

(** The three [try] blocks that set [clicked]. *)
Definition clickPostButton (pg : SubmitPage) : M Event bool :=
  do clicked <- try_catch
      (run call (ClickAttempt NativeClick) (s_nativeOk pg) errPage; ret true)
      (fun _ => ret false);
  do clicked <-
      (if negb clicked then
         try_catch
           (run call (ClickAttempt EvaluateClick) (s_evaluateOk pg) errPage;
            ret true)
           (fun _ => ret clicked)
       else ret clicked);
  if negb clicked then
    try_catch (coordinateClick pg) (fun _ => ret clicked)
  else ret clicked.

Definition postButtonSelector : jsstring := lit "[data-testid=tweetButtonInline]".

(** From the navigation to the Post button scrolled into view. *)
Definition reachButton (pg : SubmitPage) (tweetContent : jsstring)
    : M Event unit :=
  run emit (PostTweet tweetContent);
  run call (Goto homeUrl) (s_gotoOk pg) errPage;
  run emit (HumanDelay 2000 3000);
  run randomMouseMovement;
  do textarea <- findTextarea pg textareaSelectors 0;
  if negb textarea then throw (lit "Could not find tweet compose area")
  else
    run call (Evaluate ClearTextarea) (s_clearOk pg) errPage;
    run call ElementClick (s_focusOk pg) errPage;
    run emit (HumanDelay 500 1000);
    run randomMouseMovement;
    run typeContent pg tweetContent 0;
    run emit (HumanDelay 2000 3000);
    run call (WaitForSelector postButtonSelector) (s_buttonOk pg) errPage;
    run call (Evaluate ForceEnableButton) (s_enableOk pg) errPage;
    run emit (HumanDelay 1000 1500);
    run call (Evaluate ScrollButtonIntoView) (s_scrollOk pg) errPage;
    emit (HumanDelay 800 1200).

Definition postTweetWithButton (pg : SubmitPage) (tweetContent : jsstring)
    : M Event bool :=
  try_catch
    (run reachButton pg tweetContent;
     do clicked <- clickPostButton pg;
     if negb clicked then
       throw (lit "Failed to click Post button with all methods")
     else
       run emit (HumanDelay 5000 7000);
       do verified <- verifyTweetPosted (s_verify pg);
       if verified then ret true
       else run emit VerificationInconclusive; ret true)
    (fun _ =>
       run try_catch (call Screenshot (s_screenshotOk pg) errPage)
             (fun _ => ret tt);
       ret false).

(** ** Logging ([logSuccessfulPost], [logFailedPost]) *)

Definition errStore : jsstring := lit "store unreachable".

(** [appendToCSV]: catches its own errors. *)
Definition appendToCSV (doc : NewContentLog) : M Event unit :=
  emit (AppendToCSV doc).

(** [dbUp] tells whether the calls to the store resolve. *)
Definition logSuccessfulPost (dbUp : bool) (pd : PostData) (attempt : nat)
    (md : Metadata) : M Event unit :=
  let doc := mkNewContentLog (p_topic pd) (p_context pd) (p_tweetCount pd)
               (post pd) (len (post pd)) true attempt (Some md) in
  try_catch
    (run call (ContentLogCreate doc) dbUp errStore;
     appendToCSV doc)
    (fun _ => ret tt).

Definition logFailedPost (dbUp : bool) (pd : PostData) (message : jsstring)
    : M Event unit :=
  let doc := mkNewContentLog (p_topic pd) (p_context pd) (p_tweetCount pd)
               (post pd) (len (post pd)) false CONFIG.maxRetries None in
  try_catch
    (run call (ContentLogCreate doc) dbUp errStore;
     run call (ErrorLogCreate (lit "POST_FAILED") message) dbUp errStore;
     appendToCSV doc)
    (fun _ => ret tt).

(** ** The retry orchestrator ([postTweetWithRetry]) *)

Section Retry.
(** [submit attempt] is what the [attempt]-th invocation of
    [postTweetWithButton(page, postData.post)] does. *)
Variable submit : nat -> M Event bool.
Variable dbUp : bool.
Variable configModel : jsstring.
Variable configScrollPages : nat.
Variable postData : PostData.
Variable maxRetries : nat.

Definition retryMetadata : Metadata :=
  mkMetadata configModel CONFIG.temperature configScrollPages
    (lit "native_click_forced").

(** One turn of the [for] loop; [None] means that the loop goes on. *)
Definition retryAttempt (attempt : nat) : M Event (option bool) :=
  run emit (PostingAttempt attempt maxRetries);
  try_catch
    (do success <- submit attempt;
     if success then
       run logSuccessfulPost dbUp postData attempt retryMetadata;
       ret (Some true)
     else if attempt <? maxRetries then
       run emit (HumanDelay 5000 10000%N);
       ret None
     else ret None)
    (fun message =>
       if attempt =? maxRetries then
         run logFailedPost dbUp postData message;
         ret (Some false)
       else
         run emit (HumanDelay 3000 6000%N);
         ret None).

(** [for (let attempt = from; attempt <= maxRetries; attempt++)], with
    [todo] turns left, followed by the final [return false]. *)
Fixpoint retryLoop (todo from : nat) : M Event bool :=
  match todo with
  | O => ret false
  | S todo' =>
      do r <- retryAttempt from;
      match r with
      | Some b => ret b
      | None => retryLoop todo' (S from)
      end
  end.

Definition postTweetWithRetry : M Event bool := retryLoop maxRetries 1.

End Retry.

(** ** The content generator ([generatePostWithOpenRouter]) *)

(** What [axios.post] comes back with. *)
Inductive ApiResponse : Type :=
| ApiRejected (message : jsstring)  (* transport error, timeout, HTTP error *)
| ApiNoChoice                       (* no [data], no [choices] or no [choices[0]] *)
| ApiNoContent                      (* [choices[0].message.content] is not a string *)
| ApiContent (raw : jsstring).      (* the text of the first choice *)

Definition isQuote (c : N) : bool := ((c =? 34) || (c =? 39))%N.

Definition stripLeadingQuote (s : jsstring) : jsstring :=
  match s with
  | c :: r => if isQuote c then r else s
  | [] => []
  end.

Definition stripTrailingQuote (s : jsstring) : jsstring :=
  rev (stripLeadingQuote (rev s)).

(** [content.replace(re, '')] where the global pattern [re] is: a
    double or single quote at the start, or a double or single quote at
    the end.  The replace removes a quote at index 0, then a quote at
    the last index of what is left to scan. *)
Definition stripQuotes (s : jsstring) : jsstring :=
  stripTrailingQuote (stripLeadingQuote s).

(** [content.length > 280 ? content.substring(0, 277) + '...' : content] *)
Definition truncate (content : jsstring) : jsstring :=
  if 280 <? len content then substring0 277 content ++ lit "..." else content.

(** The text of the post made of the raw text of the response. *)
Definition postOfRaw (raw : jsstring) : jsstring :=
  truncate (stripQuotes (trim raw)).

(** The prompt is built from the trends and the sample tweets; building
    it does not throw, and only the call is observed. *)
Definition generatePostWithOpenRouter (response : ApiResponse)
    (selectedTrend : Trend) : M Event (option PostData) :=
  try_catch
    (do r <- ask (ApiPost (topic selectedTrend))
               match response with
               | ApiRejected message => Throw message
               | other => Ok other
               end;
     match r with
     | ApiContent raw =>
         ret (Some (mkPostData (postOfRaw raw) (topic selectedTrend)
                      (context selectedTrend) (tweetCount selectedTrend)))
     | ApiNoContent => throw (lit "Cannot read properties of undefined")
     | _ => throw (lit "Invalid response from OpenRouter")
     end)
    (fun _ => ret None).

Section Library.

(** [String.prototype.toLowerCase] and [compareTwoStrings] of the
    string-similarity package. *)
Variable toLowerCase : jsstring -> jsstring.
Variable compareTwoStrings : jsstring -> jsstring -> Q.

(** ** The diversity guard ([checkContentDiversity]) *)

(** [ContentLog.find({ postedAt: { $gte: now - 24h }, success: true })
    .limit(20)] on the documents of the collection. *)
Definition inWindow (now : Z) (d : ContentLogDoc) : bool :=
  (now - CONFIG.lookbackMs <=? postedAt d)%Z && success d.

Definition recentSuccessful (store : list ContentLogDoc) (now : Z)
    : list ContentLogDoc :=
  firstn CONFIG.historyLimit (List.filter (inWindow now) store).

Definition similarity (d : ContentLogDoc) (newPost : jsstring) : Q :=
  compareTwoStrings (toLowerCase (generatedPost d)) (toLowerCase newPost).

(** [similarity > CONFIG.automation.similarityThreshold] *)
Definition tooSimilar (d : ContentLogDoc) (newPost : jsstring) : bool :=
  negb (Qle_bool (similarity d newPost) CONFIG.similarityThreshold).

(** The [for ... of] loop: [false] at the first post that is too
    similar, [true] after the last one. *)
Fixpoint compareAll (recentPosts : list ContentLogDoc) (newPost : jsstring)
    : bool :=
  match recentPosts with
  | [] => true
  | d :: rest => if tooSimilar d newPost then false else compareAll rest newPost
  end.

Definition checkContentDiversity (dbUp : bool) (store : list ContentLogDoc)
    (now : Z) (newPost : jsstring) : M Event bool :=
  try_catch
    (do recentPosts <- ask ContentLogFind
         (if dbUp then Ok (recentSuccessful store now) else Throw errStore);
     if length recentPosts =? 0 then ret true
     else ret (compareAll recentPosts newPost))
    (fun _ => ret true).

(** ** Choosing a trend ([selectRandomTrend]) *)

Definition unused (usedTopics : list jsstring) (t : Trend) : bool :=
  negb (existsb (streq (toLowerCase (topic t))) usedTopics).

(** [r] is the value [Math.random()] returns. *)
Definition selectRandomTrend (r : Q) (trends : list Trend)
    (usedTopics : list jsstring) : option Trend :=
  let availableTrends := List.filter (unused usedTopics) trends in
  if length availableTrends =? 0
  then index trends (randomIndex r (length trends))
  else index availableTrends (randomIndex r (length availableTrends)).

(** ** Trend discovery ([getTrendingTopicsWithContext]) *)

(** The three variables the inner [forEach] over the spans updates. *)
Record Parsed : Type := mkParsed {
  trendText : jsstring;
  pContext : jsstring;
  pTweetCount : jsstring
}.

Definition middleDot : jsstring := [183%N].

Definition classifySpan (acc : Parsed) (textContent : jsstring) : Parsed :=
  let text := trim textContent in
  if includes (lit "Trending") text || includes middleDot text then
    mkParsed (trendText acc) text (pTweetCount acc)
  else if includes (lit "posts") text || includes (lit "Tweets") text
          || includes (lit "K") text || includes (lit "M") text then
    mkParsed (trendText acc) (pContext acc) text
  else if negb (truthy (trendText acc)) && (2 <? len text)
          && negb (startsWith (lit "#") text) then
    mkParsed text (pContext acc) (pTweetCount acc)
  else if truthy (trendText acc) && startsWith (lit "#") text then
    mkParsed text (pContext acc) (pTweetCount acc)
  else acc.

(** One trend element of the page, given by the texts of its spans. *)
Definition parseTrend (spans : list jsstring) : option Trend :=
  let acc := fold_left classifySpan spans (mkParsed [] [] []) in
  if truthy (trendText acc) && (2 <? len (trendText acc)) then
    Some (mkTrend (trendText acc)
            (orStr (Some (pContext acc)) (lit "Trending now"))
            (orStr (Some (pTweetCount acc)) (lit "N/A")))
  else None.

(** [topics]: the elements that gave a trend, in document order. *)
Fixpoint parseAll (elements : list (list jsstring)) : list Trend :=
  match elements with
  | [] => []
  | spans :: rest =>
      match parseTrend spans with
      | Some t => t :: parseAll rest
      | None => parseAll rest
      end
  end.

(** [t.topic.toLowerCase()] *)
Definition topicKey (t : Trend) : jsstring := toLowerCase (topic t).

(** The [forEach] that fills [uniqueTopics], with [seenTopics] a [Set]. *)
Fixpoint uniqueFrom (seenTopics : gset jsstring) (topics : list Trend)
    : list Trend :=
  match topics with
  | [] => []
  | t :: rest =>
      if decide (topicKey t ∈ seenTopics) then uniqueFrom seenTopics rest
      else t :: uniqueFrom ({[ topicKey t ]} ∪ seenTopics) rest
  end.

Definition uniqueTopics (topics : list Trend) : list Trend :=
  uniqueFrom ∅ topics.

(** What the trending page answers. *)
Record TrendPage : Type := mkTrendPage {
  tp_gotoOk : bool;
  tp_scrollOk : nat -> bool;
  tp_extractOk : bool;
  tp_elements : list (list jsstring)
}.

(** [for (let i = from; i < 3; i++)] with [todo] turns left. *)
Fixpoint scrollTrending (pg : TrendPage) (todo from : nat) : M Event unit :=
  match todo with
  | O => ret tt
  | S todo' =>
      run call (ScrollBy 500) (tp_scrollOk pg from) errPage;
      run emit (HumanDelay 1000 2000);
      scrollTrending pg todo' (S from)
  end.

Definition getTrendingTopicsWithContext (pg : TrendPage) : M Event (list Trend) :=
  try_catch
    (run call (Goto (lit "https://twitter.com/explore/tabs/trending"))
           (tp_gotoOk pg) errPage;
     run emit (HumanDelay 3000 5000);
     run scrollTrending pg 3 0;
     do trends <- ask ExtractTrends
         (if tp_extractOk pg
          then Ok (uniqueTopics (parseAll (tp_elements pg)))
          else Throw errPage);
     ret (firstn CONFIG.maxTrends trends))
    (fun _ => ret []).

(** ** The run controller ([main]) *)

(** What the browser answers while [launchBrowser] runs. *)
Record Launch : Type := mkLaunch {
  l_launchOk : bool;                          (* [puppeteer.launch] resolves *)
  l_pages : Res nat;                          (* [browser.pages()]: how many *)
  l_newPageOk : bool;
  l_viewportOk : bool;
  l_userAgentOk : bool;
  l_stealthOk : bool                          (* [page.evaluateOnNewDocument] *)
}.

(** [launchBrowser]: the browser is started, then its page is set up;
    an error is printed and thrown again.  It returns the browser and
    the page that [main] keeps. *)
Definition launchBrowser (l : Launch) : M Event unit :=
  try_catch
    (run call LaunchBrowser (l_launchOk l) (lit "launch failed");
     do pages <- ask BrowserPages (l_pages l);
     run (if 0 <? pages then ret tt
          else call NewPage (l_newPageOk l) errPage);
     run call SetViewport (l_viewportOk l) errPage;
     run call SetUserAgent (l_userAgentOk l) errPage;
     call EvaluateOnNewDocument (l_stealthOk l) errPage)
    (fun message => throw message).

(** Every step of [launchBrowser] resolves. *)
Definition launchResolves (l : Launch) : bool :=
  l_launchOk l
  && match l_pages l with
     | Ok pages => (0 <? pages) || l_newPageOk l
     | Throw _ => false
     end
  && l_viewportOk l && l_userAgentOk l && l_stealthOk l.

(** What the outside world answers during one run. *)
Record World : Type := mkWorld {
  w_configOk : bool;                          (* [validateConfig] finds every variable *)
  w_mongoOk : bool;                           (* [mongoose.connect] resolves *)
  w_launch : Launch;
  w_email : jsstring;
  w_model : jsstring;
  w_scrollPages : nat;
  w_existingSession : option Session.SessionData;
  w_cookiePage : CookiePage;
  w_sessionValid : bool;                      (* [validateSession] *)
  w_loginOk : bool;                           (* [loginToTwitter] *)
  w_extractPage : ExtractPage;
  w_gotoHomeOk : bool;
  w_autoScrollOk : bool;                      (* [autoScrollPages] resolves *)
  w_trendPage : TrendPage;
  w_random : nat -> Q;                        (* successive draws of the selection *)
  w_samples : list jsstring;                  (* [sampleTrendingTweets] *)
  w_api : nat -> ApiResponse;                 (* successive answers of the service *)
  w_dbUp : bool;
  w_store : list ContentLogDoc;
  w_now : Z;
  w_submitPage : nat -> SubmitPage;           (* the page at each posting attempt *)
  w_browserCloseOk : bool;                    (* [browser.close()] resolves *)
  w_mongoCloseOk : bool                       (* [mongoose.connection.close()] resolves *)
}.

(** [launchBrowser] returns: the variable [browser] of [main] is set. *)
Definition w_browserOk (w : World) : bool := launchResolves (w_launch w).

Definition errLogin : jsstring := lit "Login failed".

(** [loginToTwitter], then [extractAndSaveSession].  The event [Login]
    stands for the whole of [loginToTwitter], which catches its own
    errors and answers [w_loginOk]: its navigation to the login flow,
    its typing and its waits are not events of the run. *)
Definition freshLogin (w : World) : M Event unit :=
  run emit Login;
  if negb (w_loginOk w) then throw errLogin
  else extractAndSaveSession (w_extractPage w) (w_email w).

(** STEP 2 of [main]. *)
Definition authenticate (w : World) : M Event unit :=
  run emit LoadSession;
  match w_existingSession w with
  | Some existingSession =>
      do cookiesApplied <- applySessionCookies (w_cookiePage w) existingSession;
      if cookiesApplied then
        run emit ValidateSession;
        if negb (w_sessionValid w) then freshLogin w else ret tt
      else ret tt
  | None => freshLogin w
  end.

(** [selectedTrend.topic] throws a [TypeError] on [undefined]. *)
Definition selected (t : option Trend) : M Event Trend :=
  match t with
  | Some t => run emit (SelectTrend (topic t)); ret t
  | None => throw (lit "Cannot read properties of undefined")
  end.

(** STEPS 1 to 4 of [main]: up to the trends. *)
Definition prepare (w : World) : M Event (list Trend) :=
  run launchBrowser (w_launch w);
  run authenticate w;
  run call (Goto homeUrl) (w_gotoHomeOk w) errPage;
  run emit (HumanDelay 2000 3000);
  run call AutoScroll (w_autoScrollOk w) errPage;
  do trendingTopics <- getTrendingTopicsWithContext (w_trendPage w);
  if length trendingTopics =? 0 then throw (lit "No trending topics found")
  else ret trendingTopics.

(** STEP 8 of [main], once the guard has answered: the post data that
    goes on to STEP 9. *)
Definition regenerate (w : World) (trendingTopics : list Trend)
    (usedTopics : list jsstring) (postData : PostData) : M Event PostData :=
  do newTrend <- selected (selectRandomTrend (w_random w 1) trendingTopics usedTopics);
  do retryPostData <- generatePostWithOpenRouter (w_api w 1) newTrend;
  match retryPostData with
  | Some retried => ret retried        (* [Object.assign(postData, retryPostData)] *)
  | None => ret postData
  end.

(** STEPS 5 to 9 of [main]. *)
Definition cycle (w : World) (trendingTopics : list Trend) : M Event bool :=
  do selectedTrend <- selected (selectRandomTrend (w_random w 0) trendingTopics []);
  let usedTopics := [toLowerCase (topic selectedTrend)] in
  run emit (SampleTweets (topic selectedTrend));
  do generated <- generatePostWithOpenRouter (w_api w 0) selectedTrend;
  match generated with
  | None => throw (lit "Could not generate post content")
  | Some postData =>
      do isDiverse <- checkContentDiversity (w_dbUp w) (w_store w) (w_now w)
                        (post postData);
      do postData <-
          (if negb isDiverse
           then regenerate w trendingTopics usedTopics postData
           else ret postData);
      do posted <- postTweetWithRetry
          (fun attempt => postTweetWithButton (w_submitPage w attempt) (post postData))
          (w_dbUp w) (w_model w) (w_scrollPages w) postData CONFIG.maxRetries;
      run emit (Sleep 30000);
      ret posted
  end.

(** The [catch] of [main]: the error record is written best-effort. *)
Definition reportError (w : World) (message : jsstring) : M Event unit :=
  try_catch
    (call (ErrorLogCreate (lit "CRITICAL_AUTOMATION_ERROR") message)
       (w_dbUp w) errStore)
    (fun _ => ret tt).

(** The [finally] of [main]: the two closes are awaited unguarded, so
    a close that rejects leaves the block at once. *)
Definition shutdown (w : World) : M Event unit :=
  run (if w_browserOk w
       then call BrowserClose (w_browserCloseOk w) (lit "close failed")
       else ret tt);
  call MongoClose (w_mongoCloseOk w) (lit "close failed").

Definition main (w : World) : M Event unit :=
  if negb (w_configOk w) then emit (ProcessExit 1)
  else
    run emit InitializeCSV;
    run call ConnectMongo (w_mongoOk w) (lit "connection failed");
    try_finally
      (try_catch
         (do trendingTopics <- prepare w;
          do _posted <- cycle w trendingTopics;
          ret tt)
         (reportError w))
      (shutdown w).

End Library.

End AutoPost.

(* ================================================================== *)
(** * The first posting script: src/post.js                            *)
(* ================================================================== *)

Module PostJs.
Import JS AutoPost.
Local Open Scope eff_scope.

(** [generatePostWithOpenRouter]: the text is trimmed and truncated;
    this script strips no quotes and returns the text itself. *)
Definition postOfRaw (raw : jsstring) : jsstring := truncate (trim raw).

Definition generatePostWithOpenRouter (response : ApiResponse)
    : M Event (option jsstring) :=
  try_catch
    (do r <- ask (ApiPost [])
               match response with
               | ApiRejected message => Throw message
               | other => Ok other
               end;
     match r with
     | ApiContent raw => ret (Some (postOfRaw raw))
     | ApiNoContent => throw (lit "Cannot read properties of undefined")
     | _ => throw (lit "Invalid response from OpenRouter")
     end)
    (fun _ => ret None).

Definition verifyTweetPosted (pg : VerifyPage) : M Event bool :=
  try_catch
    (run emit (Sleep 2000);
     do textareaCleared <- ask (Evaluate ReadTextareaCleared) (v_textareaCleared pg);
     if textareaCleared then ret true
     else
       run call (Goto homeUrl) (v_gotoOk pg) errPage;
       run emit (Sleep 3000);
       do tweetFound <- ask (Evaluate FindTweetInTimeline) (v_tweetFound pg);
       if tweetFound then ret true else ret false)
    (fun _ => ret false).

(** What the page answers during one [postTweetWithEnter]. *)
Record EnterPage : Type := mkEnterPage {
  e_gotoOk : bool;
  e_probe : nat -> Probe;
  e_focusOk : bool;
  e_typeOk : nat -> bool;
  e_shortcutOk : bool;       (* the three keyboard calls resolve *)
  e_dispatchOk : bool;       (* the injected keydown event *)
  e_verify : VerifyPage;
  e_screenshotOk : bool
}.

Fixpoint findTextarea (pg : EnterPage) (selectors : list jsstring) (i : nat)
    : M Event bool :=
  match selectors with
  | [] => ret false
  | selector :: rest =>
      do found <- try_catch
          (ask (WaitForSelector selector)
             match e_probe pg i with
             | ProbeHandle => Ok true
             | ProbeNull => Ok false
             | ProbeTimeout => Throw (lit "waiting for selector failed")
             end)
          (fun _ => ret false);
      if found then ret true else findTextarea pg rest (S i)
  end.

Fixpoint typeContent (pg : EnterPage) (content : jsstring) (i : nat)
    : M Event unit :=
  match content with
  | [] => ret tt
  | c :: rest =>
      run call (KeyboardType c) (e_typeOk pg i) errPage;
      typeContent pg rest (S i)
  end.

(** From the navigation to the typed content. *)
Definition reachShortcut (pg : EnterPage) (tweetContent : jsstring)
    : M Event unit :=
  run emit (PostTweet tweetContent);
  run call (Goto homeUrl) (e_gotoOk pg) errPage;
  run emit (Sleep 2000);
  do textarea <- findTextarea pg textareaSelectors 0;
  if negb textarea then throw (lit "Could not find tweet compose area")
  else
    run call ElementClick (e_focusOk pg) errPage;
    run emit (Sleep 500);
    run typeContent pg tweetContent 0;
    emit (Sleep 1500).

(** Ctrl+Enter, or the injected keydown event when the keyboard
    rejects. *)
Definition pressCtrlEnter (pg : EnterPage) : M Event unit :=
  try_catch (call KeyboardShortcut (e_shortcutOk pg) errPage)
    (fun _ => call (Evaluate DispatchCtrlEnter) (e_dispatchOk pg) errPage).

Definition postTweetWithEnter (pg : EnterPage) (tweetContent : jsstring)
    : M Event bool :=
  try_catch
    (run reachShortcut pg tweetContent;
     run pressCtrlEnter pg;
     run emit (Sleep 4000);
     do verified <- verifyTweetPosted (e_verify pg);
     if verified then ret true
     else run emit VerificationInconclusive; ret true)
    (fun _ =>
       run try_catch (call Screenshot (e_screenshotOk pg) errPage)
             (fun _ => ret tt);
       ret false).

(** What the page answers during the fallback [postTweetWithButton] of
    this script. *)
Record ButtonPage : Type := mkButtonPage {
  b_gotoOk : bool;
  b_textareaOk : bool;
  b_focusOk : bool;
  b_typeOk : nat -> bool;
  b_buttonOk : bool;
  b_enabledOk : bool;
  b_clickOk : bool;
  b_verify : VerifyPage
}.

Fixpoint typeFallback (pg : ButtonPage) (content : jsstring) (i : nat)
    : M Event unit :=
  match content with
  | [] => ret tt
  | c :: rest =>
      run call (KeyboardType c) (b_typeOk pg i) errPage;
      typeFallback pg rest (S i)
  end.

(** The fallback returns what the verification returns. *)
Definition postTweetWithButton (pg : ButtonPage) (tweetContent : jsstring)
    : M Event bool :=
  try_catch
    (run call (Goto homeUrl) (b_gotoOk pg) errPage;
     run emit (Sleep 2000);
     run call (WaitForSelector (lit "[data-testid=tweetTextarea_0]"))
           (b_textareaOk pg) errPage;
     run call ElementClick (b_focusOk pg) errPage;
     run emit (Sleep 500);
     run typeFallback pg tweetContent 0;
     run emit (Sleep 1500);
     run call (WaitForSelector postButtonSelector) (b_buttonOk pg) errPage;
     run call (Evaluate ButtonEnabled) (b_enabledOk pg) errPage;
     run call ElementClick (b_clickOk pg) errPage;
     run emit (Sleep 4000);
     verifyTweetPosted (b_verify pg))
    (fun _ => ret false).

End PostJs.

(* ================================================================== *)
(** * The engagement bot: src/unnamed/part_001                         *)
(* ================================================================== *)

Module LoginX.
Import JS.
Local Open Scope eff_scope.

(** A row of the activity log. *)
Record Row : Type := mkRow {
  scroll_count : nat;
  like_count : nat;
  post_link : jsstring;
  comment_post_link : jsstring;
  comment_text : jsstring;
  number_of_comments : nat
}.

Inductive Event : Type :=
| SafeNavigate (url : jsstring)
| Sleep (ms : N)
| SetCookie (cs : list Session.CleanCookie)
| SetLocalStorage (items : list (jsstring * jsstring))
| SetSessionStorage (items : list (jsstring * jsstring))
| ReadCookies
| ReadLocalStorage
| ReadSessionStorage
| SaveSession (email : jsstring) (cs : list Session.CleanCookie)
| ApiPost
| ScrollBy (pixels : N)
| CountTweets
| LikeRandomPosts (percentage : nat)
| AppendCsvEntry (r : Row)
| CommentOnRandomPost
| CheckNotifications
| Progress (scrollAttempts tweets totalLiked totalCommented : nat).

Definition errPage : jsstring := lit "page error".

(** ** Sessions *)

Record CookiePage : Type := mkCookiePage {
  cp_gotoOk : bool;
  cp_setCookieOk : bool;
  cp_localOk : bool;
  cp_sessionOk : bool
}.

(** Unlike the posting pipeline, this script answers [false] when no
    cookie is left. *)
Definition applySessionCookies (pg : CookiePage) (sessionData : Session.SessionData)
    : M Event bool :=
  try_catch
    (run call (SafeNavigate (lit "https://twitter.com")) (cp_gotoOk pg)
           (lit "PROXY_TUNNEL_FAILED");
     run emit (Sleep 1000);
     let cleanCookies := Session.cleanCookies (Session.cookies sessionData) in
     if 0 <? length cleanCookies then
       run call (SetCookie cleanCookies) (cp_setCookieOk pg) errPage;
       run (if 0 <? length (Session.localStorage sessionData)
            then call (SetLocalStorage (Session.localStorage sessionData))
                   (cp_localOk pg) errPage
            else ret tt);
       run (if 0 <? length (Session.sessionStorage sessionData)
            then call (SetSessionStorage (Session.sessionStorage sessionData))
                   (cp_sessionOk pg) errPage
            else ret tt);
       ret true
     else ret false)
    (fun _ => ret false).

Record ExtractPage : Type := mkExtractPage {
  ep_cookies : Res (list Session.Cookie);
  ep_localStorage : Res (list (jsstring * jsstring));
  ep_sessionStorage : Res (list (jsstring * jsstring));
  ep_dbUp : bool
}.

Definition saveSessionToDB (dbUp : bool) (email : jsstring)
    (cs : list Session.CleanCookie) : M Event unit :=
  try_catch (call (SaveSession email cs) dbUp (lit "store unreachable"))
    (fun _ => ret tt).

Definition extractAndSaveSession (pg : ExtractPage) (email : jsstring)
    : M Event unit :=
  try_catch
    (run emit (Sleep 3000);
     do rawCookies <- ask ReadCookies (ep_cookies pg);
     let cleanCookies := Session.cleanCookies rawCookies in
     do _ls <- ask ReadLocalStorage (ep_localStorage pg);
     do _ss <- ask ReadSessionStorage (ep_sessionStorage pg);
     saveSessionToDB (ep_dbUp pg) email cleanCookies)
    (fun _ => ret tt).

(** ** Comments ([generateAIComment]) *)

(** [comment.length > 280 ? comment.substring(0, 277) + '...' : comment] *)
Definition commentOfRaw (raw : jsstring) : jsstring :=
  AutoPost.truncate (trim raw).

Definition generateAIComment (apiKey : bool) (response : AutoPost.ApiResponse)
    (postText : jsstring) : M Event (option jsstring) :=
  try_catch
    (if negb apiKey then throw (lit "OpenRouter API key not configured")
     else if negb (truthy postText) || (len postText <? 10) then ret None
     else
       do r <- ask ApiPost
                 match response with
                 | AutoPost.ApiRejected message => Throw message
                 | other => Ok other
                 end;
       match r with
       | AutoPost.ApiContent raw => ret (Some (commentOfRaw raw))
       | AutoPost.ApiNoContent => throw (lit "Cannot read properties of undefined")
       | _ => ret None
       end)
    (fun _ => ret None).

(** ** The continuous loop ([scrollFeed]) *)

(** What [likeRandomPosts] returns. *)
Record LikeResult : Type := mkLikeResult {
  liked : nat;
  total : nat;
  available : nat;
  likedPostLinks : list jsstring
}.

(** What [commentOnRandomPost] returns. *)
Record CommentResult : Type := mkCommentResult {
  c_success : bool;
  c_comment : jsstring;
  c_postLink : jsstring
}.

(** What the page answers during one pass of the loop. *)
Record Pass : Type := mkPass {
  pa_scrollOk : bool;
  pa_tweets : Res nat;
  pa_like : Res LikeResult;
  pa_comment : Res CommentResult;
  pa_notificationsOk : bool
}.

(** What the outside world does during the loop.  [w_cancelRequested k]
    tells whether the host has asked the loop to stop by the time the
    [k]-th pass would start. *)
Record World : Type := mkWorld {
  w_apiKey : bool;
  w_pass : nat -> Pass;
  w_cancelRequested : nat -> bool
}.

(** The three counters of [scrollFeed]. *)
Record Counters : Type := mkCounters {
  scrollAttempts : nat;
  totalLiked : nat;
  totalCommented : nat
}.

Fixpoint logLikes (scrolls commented : nat) (links : list jsstring)
    : M Event unit :=
  match links with
  | [] => ret tt
  | postLink :: rest =>
      run emit (AppendCsvEntry (mkRow scrolls 1 postLink [] [] commented));
      logLikes scrolls commented rest
  end.

(** Likes on every pass; an error is swallowed. *)
Definition likeStep (a : Pass) (scrolls : nat) (st : Counters) : M Event nat :=
  try_catch
    (do result <- ask (LikeRandomPosts 5) (pa_like a);
     if 0 <? liked result then
       run logLikes scrolls (totalCommented st) (likedPostLinks result);
       ret (totalLiked st + liked result)
     else ret (totalLiked st))
    (fun _ => ret (totalLiked st)).

(** A comment every 20th pass. *)
Definition commentStep (w : World) (a : Pass) (scrolls : nat) (st : Counters)
    : M Event nat :=
  if (scrolls mod 20 =? 0) && w_apiKey w then
    try_catch
      (do commentResult <- ask CommentOnRandomPost (pa_comment a);
       if c_success commentResult then
         run emit (AppendCsvEntry
                     (mkRow scrolls 0 [] (c_postLink commentResult)
                        (c_comment commentResult) (S (totalCommented st))));
         ret (S (totalCommented st))
       else ret (totalCommented st))
      (fun _ => ret (totalCommented st))
  else ret (totalCommented st).

(** The notifications every 50th pass. *)
Definition notificationStep (w : World) (a : Pass) (scrolls : nat)
    : M Event unit :=
  if (scrolls mod 50 =? 0) && w_apiKey w then
    try_catch (call CheckNotifications (pa_notificationsOk a) errPage)
      (fun _ => ret tt)
  else ret tt.

(** The progress line every 5th pass. *)
Definition progressStep (scrolls tweets likedNow commentedNow : nat)
    : M Event unit :=
  if scrolls mod 5 =? 0
  then emit (Progress scrolls tweets likedNow commentedNow)
  else ret tt.

(** The body of [while (true)]. *)
Definition pass (w : World) (st : Counters) : M Event Counters :=
  let a := w_pass w (scrollAttempts st) in
  run call (ScrollBy 800) (pa_scrollOk a) errPage;
  run emit (Sleep 2000);
  let scrolls := S (scrollAttempts st) in
  do currentTweetCount <- ask CountTweets (pa_tweets a);
  do likedNow <- likeStep a scrolls st;
  do commentedNow <- commentStep w a scrolls st;
  run notificationStep w a scrolls;
  run progressStep scrolls currentTweetCount likedNow commentedNow;
  ret (mkCounters scrolls likedNow commentedNow).

(** The first [passes] turns of [while (true)]: the counters when the
    next turn starts, or the error that ended the loop.  The loop has
    no [break] and no [return]. *)
Fixpoint scrollFeedFrom (w : World) (passes : nat) (st : Counters)
    : M Event Counters :=
  match passes with
  | O => ret st
  | S n => do st' <- pass w st; scrollFeedFrom w n st'
  end.

Definition scrollFeed (w : World) (passes : nat) : M Event Counters :=
  scrollFeedFrom w passes (mkCounters 0 0 0).

End LoginX.

(* ================================================================== *)
(** * The CSV log: written by the scripts, read by src/server.js       *)
(* ================================================================== *)

Module Csv.
Import JS.

Definition quote : N := 34%N.
Definition comma : N := 44%N.
Definition newline : N := 10%N.

(** The global replace of the writers: every double quote is doubled. *)
Definition doubleQuotes (s : jsstring) : jsstring :=
  flat_map (fun c => if (c =? quote)%N then [quote; quote] else [c]) s.

(** [s.includes(c)] for a one-character string. *)
Definition hasChar (c : N) (s : jsstring) : bool := existsb (N.eqb c) s.

(** The test of both writers: a comma, a quote or a newline. *)
Definition needsWrap (s : jsstring) : bool :=
  hasChar comma s || hasChar quote s || hasChar newline s.

(** [escapeCSV] of src/unnamed/part_000, on a string or a missing
    value. *)
Definition escapeCSV (value : option jsstring) : jsstring :=
  match value with
  | None => []
  | Some str =>
      if needsWrap str then quote :: doubleQuotes str ++ [quote] else str
  end.

(** [escapeCsvCell] of src/unnamed/part_001: the quotes are doubled
    first, the wrapping is decided on the original string. *)
Definition escapeCsvCell (value : option jsstring) : jsstring :=
  match value with
  | None => []
  | Some str =>
      let escaped := doubleQuotes str in
      if needsWrap str then quote :: escaped ++ [quote] else escaped
  end.

(** [cells.join(',')] *)
Fixpoint join (cells : list jsstring) : jsstring :=
  match cells with
  | [] => []
  | [c] => c
  | c :: rest => c ++ comma :: join rest
  end.

(** [parseCSVLine] of src/server.js: the loop over the characters, with
    [inQuotes] and [currentValue] as its state; a doubled quote inside
    quotes is one quote and skips a character. *)
Fixpoint parseFrom (line : jsstring) (inQuotes : bool) (currentValue : jsstring)
    : list jsstring :=
  match line with
  | [] => [trim currentValue]
  | char :: rest =>
      if (char =? quote)%N then
        if inQuotes then
          match rest with
          | next :: rest' =>
              if (next =? quote)%N
              then parseFrom rest' inQuotes (currentValue ++ [quote])
              else parseFrom rest (negb inQuotes) currentValue
          | [] => parseFrom rest (negb inQuotes) currentValue
          end
        else parseFrom rest (negb inQuotes) currentValue
      else if (char =? comma)%N && negb inQuotes then
        trim currentValue :: parseFrom rest inQuotes []
      else parseFrom rest inQuotes (currentValue ++ [char])
  end.

Definition parseCSVLine (line : jsstring) : list jsstring :=
  parseFrom line false [].

(** [content.split] on the newline *)
Fixpoint splitFrom (content : jsstring) (current : jsstring) : list jsstring :=
  match content with
  | [] => [current]
  | c :: rest =>
      if (c =? newline)%N then current :: splitFrom rest []
      else splitFrom rest (current ++ [c])
  end.

Definition splitLines (content : jsstring) : list jsstring :=
  splitFrom content [].

(** [.filter(line => line.trim())] *)
Definition nonBlank (line : jsstring) : bool := truthy (trim line).

(** What [readCSVStats] returns when it does not return [null]. *)
Record Stats : Type := mkStats {
  totalPosts : nat;
  successfulPosts : nat;
  failedPosts : nat
}.

Definition yesCell : jsstring := lit ",Yes,".

(** [readCSVStats] of src/unnamed/part_000; [None] is a missing or
    unreadable file. *)
Definition readCSVStats (content : option jsstring) : option Stats :=
  match content with
  | None => None
  | Some text =>
      let lines := List.filter nonBlank (splitLines text) in
      if length lines <=? 1 then Some (mkStats 0 0 0)
      else
        let dataLines := skipn 1 lines in
        let total := length dataLines in
        let successful := length (List.filter (includes yesCell) dataLines) in
        Some (mkStats total successful (total - successful))
  end.

(** The [data] object of [appendToCSV] and the three renderings of the
    current date; numbers are given by their decimal text. *)
Record CsvData : Type := mkCsvData {
  isoTime : jsstring;
  localDate : jsstring;
  localTime : jsstring;
  d_trendingTopic : jsstring;
  d_trendContext : jsstring;
  d_tweetCount : jsstring;
  d_postContent : jsstring;
  d_postLength : jsstring;
  d_success : bool;
  d_retryCount : jsstring;
  d_model : jsstring;
  d_temperature : jsstring;
  d_method : jsstring
}.

Definition cellsOf (d : CsvData) : list jsstring :=
  [ isoTime d; localDate d; localTime d; d_trendingTopic d; d_trendContext d;
    d_tweetCount d; d_postContent d; d_postLength d;
    (if d_success d then lit "Yes" else lit "No");
    d_retryCount d; d_model d; d_temperature d; d_method d ].

(** The row [appendToCSV] appends, without its final newline. *)
Definition csvRow (d : CsvData) : jsstring :=
  join (map (fun c => escapeCSV (Some c)) (cellsOf d)).

(** The header line [initializeCSV] writes. *)
Definition csvHeader : jsstring :=
  join [ lit "Timestamp"; lit "Date"; lit "Time"; lit "Trending Topic";
         lit "Topic Context"; lit "Tweet Volume"; lit "Post Content";
         lit "Post Length"; lit "Success"; lit "Retry Count"; lit "Model Used";
         lit "Temperature"; lit "Method" ].

(** The file after [initializeCSV] wrote [header] and [appendToCSV]
    appended one row for each of [ds], in order. *)
Definition logFile (header : jsstring) (ds : list CsvData) : jsstring :=
  header ++ newline :: flat_map (fun d => csvRow d ++ [newline]) ds.

(** No cell of the row holds a newline. *)
Definition singleLine (d : CsvData) : Prop :=
  forall c, In c (cellsOf d) -> ~ In newline c.

(** The tail after a cell: the end of the line, or a comma. *)
Definition cellEnd (tail : jsstring) : Prop :=
  tail = [] \/ exists rest, tail = comma :: rest.

(** *** The reader of the dashboard: [parseCSV] of src/server.js *)

Definition stripLeadingQuote (s : jsstring) : jsstring :=
  match s with
  | c :: r => if (c =? quote)%N then r else s
  | [] => []
  end.

(** [value.replace(re, '')] where the global pattern [re] is: a double
    quote at the start, or a double quote at the end. *)
Definition stripOuterQuotes (s : jsstring) : jsstring :=
  rev (stripLeadingQuote (rev (stripLeadingQuote s))).

(** A row object, by its properties. *)
Abbreviation RowObject := (gmap jsstring jsstring).

(** [values[index] || ''] *)
Definition cellAt (values : list jsstring) (index : nat) : jsstring :=
  match nth_error values index with Some v => v | None => [] end.

(** [headers.forEach((header, index) => ...)], from [index] on. *)
Fixpoint fillRow (headers : list jsstring) (index : nat)
    (values : list jsstring) (row : RowObject) : RowObject :=
  match headers with
  | [] => row
  | header :: rest =>
      fillRow rest (S index) values
        (<[ header := stripOuterQuotes (cellAt values index) ]> row)
  end.

(** The [for] loop over the lines after the header. *)
Fixpoint rowsOf (headers : list jsstring) (lines : list jsstring)
    : list RowObject :=
  match lines with
  | [] => []
  | line :: rest =>
      if negb (nonBlank line) then rowsOf headers rest
      else
        let values := parseCSVLine line in
        if length headers <=? length values
        then fillRow headers 0 values ∅ :: rowsOf headers rest
        else rowsOf headers rest
  end.

(** [parseCSV]; [None] is a missing or unreadable file. *)
Definition parseCSV (content : option jsstring) : list RowObject :=
  match content with
  | None => []
  | Some text =>
      let lines := List.filter nonBlank (splitLines text) in
      if length lines <=? 1 then []
      else
        match lines with
        | header :: rest =>
            rowsOf (map stripOuterQuotes (parseCSVLine header)) rest
        | [] => []
        end
  end.

(** [postsData.filter(row => row.Success === 'Yes').length], the count
    of the /api/stats route when the store is not connected. *)
Definition successfulRows (postsData : list RowObject) : nat :=
  length (List.filter
            (fun row => match row !! lit "Success" with
                        | Some v => streq v (lit "Yes")
                        | None => false
                        end) postsData).


End Csv.

(* ================================================================== *)
(** * Sampling tweets: src/unnamed/part_000                            *)
(* ================================================================== *)

Module Sampling.
Import JS.
Local Open Scope eff_scope.

Inductive Event : Type :=
| Goto (url : jsstring)
| HumanDelay (min max : N)
| ScrollBy (pixels : N)
| ExtractTweets (size : nat).

(** What one tweet element gives: the query for its text node throws,
    finds nothing, or finds a node with this [textContent]. *)
Inductive TweetEl : Type :=
| QueryThrows
| NoTextNode
| TextNode (textContent : jsstring).

(** The [for ... of] loop run in the page, with [count] tweets kept so
    far. *)
Fixpoint collect (size count : nat) (tweetElements : list TweetEl)
    : list jsstring :=
  match tweetElements with
  | [] => []
  | tweetEl :: rest =>
      if size <=? count then []
      else
        match tweetEl with
        | TextNode textContent =>
            if truthy textContent then
              let text := trim textContent in
              if 20 <? len text then text :: collect size (S count) rest
              else collect size count rest
            else collect size count rest
        | _ => collect size count rest
        end
  end.

(** What the search page answers. *)
Record SearchPage : Type := mkSearchPage {
  sp_gotoOk : bool;
  sp_scrollOk : nat -> bool;
  sp_extractOk : bool;
  sp_tweetElements : list TweetEl
}.

Definition errPage : jsstring := lit "page error".

(** [for (let i = from; i < 2; i++)] with [todo] turns left. *)
Fixpoint scrollSearch (pg : SearchPage) (todo from : nat) : M Event unit :=
  match todo with
  | O => ret tt
  | S todo' =>
      run call (ScrollBy 500) (sp_scrollOk pg from) errPage;
      run emit (HumanDelay 1000 2000);
      scrollSearch pg todo' (S from)
  end.

Definition searchUrl (encoded : jsstring) : jsstring :=
  lit "https://twitter.com/search?q=" ++ encoded ++ lit "&src=trend_click&f=live".

(** [encoded] is what [encodeURIComponent(trendTopic)] gives: the
    encoded text, or the [URIError] it throws. *)
Definition sampleTrendingTweets (encoded : Res jsstring) (pg : SearchPage)
    (sampleSize : nat) : M Event (list jsstring) :=
  try_catch
    (do q <- match encoded with Ok q => ret q | Throw message => throw message end;
     run call (Goto (searchUrl q)) (sp_gotoOk pg) errPage;
     run emit (HumanDelay 3000 5000);
     run scrollSearch pg 2 0;
     do sampleTweets <- ask (ExtractTweets sampleSize)
         (if sp_extractOk pg
          then Ok (collect sampleSize 0 (sp_tweetElements pg))
          else Throw errPage);
     ret sampleTweets)
    (fun _ => ret []).

End Sampling.

(* ================================================================== *)
(** * Trend discovery of the first script: src/post.js                 *)
(* ================================================================== *)

Module PostJsTrends.
Import JS.
Local Open Scope eff_scope.

Inductive Event : Type :=
| Goto (url : jsstring)
| Sleep (ms : N)
| ExtractTopics.

(** What [element.querySelector] gives for the first span of a trend
    element. *)
Inductive TrendEl : Type :=
| NoSpan
| Span (textContent : jsstring).

Definition middleDot : jsstring := [183%N].

(** The body of the [forEach]: what the element pushes. *)
Definition topicOf (element : TrendEl) : list jsstring :=
  match element with
  | Span textContent =>
      if truthy textContent then
        let text := trim textContent in
        if truthy text && negb (startsWith middleDot text) && (2 <? len text)
        then [text] else []
      else []
  | NoSpan => []
  end.

(** The spread of [new Set(topics)]: first occurrences, in order. *)
Fixpoint distinctFrom (seen : gset jsstring) (topics : list jsstring)
    : list jsstring :=
  match topics with
  | [] => []
  | t :: rest =>
      if decide (t ∈ seen) then distinctFrom seen rest
      else t :: distinctFrom ({[ t ]} ∪ seen) rest
  end.

Record TrendPage : Type := mkTrendPage {
  tp_gotoOk : bool;
  tp_extractOk : bool;
  tp_elements : list TrendEl
}.

Definition errPage : jsstring := lit "page error".

Definition getTrendingTopics (pg : TrendPage) : M Event (list jsstring) :=
  try_catch
    (run call (Goto (lit "https://twitter.com/explore/tabs/trending"))
           (tp_gotoOk pg) errPage;
     run emit (Sleep 3000);
     do trends <- ask ExtractTopics
         (if tp_extractOk pg
          then Ok (distinctFrom ∅ (flat_map topicOf (tp_elements pg)))
          else Throw errPage);
     ret (firstn 10 trends))
    (fun _ => ret []).

End PostJsTrends.

(* ================================================================== *)
(** * Likes and notifications: src/unnamed/part_001                    *)
(* ================================================================== *)

Module Engage.
Import JS.
Local Open Scope eff_scope.

Inductive Event : Type :=
| QueryLikeButtons
| CheckVisible (i : nat)
| CountTweets
| LocateTweet (i : nat)
| ReadLink (i : nat)
| ScrollIntoView (i : nat)
| RecheckVisible (i : nat)
| Click (i : nat)
| Sleep (ms : N)
| RandomSleep (base spread : N)
| QueryLink (selector : jsstring)
| Navigate (url : jsstring)
| ClickLink
| ReadNotifications
| ReplyTo (index : nat).

(** ** [safeNavigate] *)

Definition isTunnelError (message : jsstring) : bool :=
  includes (lit "ERR_TUNNEL_CONNECTION_FAILED") message
  || includes (lit "net::ERR_PROXY_CONNECTION_FAILED") message
  || includes (lit "tunnel") message.

(** [answer] is what [page.goto] does. *)
Definition safeNavigate (answer : Res unit) (url : jsstring) : M Event bool :=
  try_catch
    (run ask (Navigate url) answer; ret true)
    (fun message =>
       if isTunnelError message then throw (lit "PROXY_TUNNEL_FAILED")
       else throw message).

(** ** [likeRandomPosts] *)

(** What one like button answers: the two visibility checks, the search
    for its tweet, the link of the tweet, the scroll and the click. *)
Record Button : Type := mkButton {
  b_visible : Res bool;
  b_locateOk : bool;
  b_link : Res (option jsstring);
  b_scrollOk : bool;
  b_stillVisible : Res bool;
  b_clickOk : bool
}.

(** What the page and [Math.random] answer during one call: the draw
    compared with the threshold and the draws of the selection. *)
Record LikePage : Type := mkLikePage {
  lp_buttons : Res (list Button);
  lp_tweets : Res nat;
  lp_chance : Q;
  lp_pick : nat -> Q
}.

(** The loop that keeps the visible buttons; a button that cannot be
    evaluated is skipped.  A button goes with its index among all. *)
Fixpoint visibleFrom (allButtons : list Button) (i : nat)
    : M Event (list (nat * Button)) :=
  match allButtons with
  | [] => ret []
  | button :: rest =>
      do isVisible <- try_catch (ask (CheckVisible i) (b_visible button))
                        (fun _ => ret false);
      do others <- visibleFrom rest (S i);
      ret (if isVisible then (i, button) :: others else others)
  end.

(** [xs.splice(i, 1)] *)
Definition splice1 {A} (i : Z) (xs : list A) : list A :=
  let n := Z.of_nat (length xs) in
  let start := if (i <? 0)%Z then Z.max (n + i) 0 else Z.min i n in
  firstn (Z.to_nat start) xs ++ skipn (S (Z.to_nat start)) xs.

(** [for (let i = ...; i < postsToLike && availableIndices.length > 0;
    i++)] with [todo] turns left: the buttons selected, [None] for an
    index outside the array. *)
Fixpoint selectFrom (pick : nat -> Q) (visibleButtons : list (nat * Button))
    (todo i : nat) (availableIndices : list nat)
    : list (option (nat * Button)) :=
  match todo with
  | O => []
  | S todo' =>
      if length availableIndices =? 0 then []
      else
        let drawn := randomIndex (pick i) (length availableIndices) in
        match index availableIndices drawn with
        | Some j => nth_error visibleButtons j
        | None => None
        end :: selectFrom pick visibleButtons todo' (S i)
                 (splice1 drawn availableIndices)
  end.

(** [link || null] *)
Definition orNull (link : option jsstring) : option jsstring :=
  match link with
  | Some s => if truthy s then Some s else None
  | None => None
  end.

(** The body of the loop over the selected buttons, inside its [try];
    gives the link when the button was clicked. *)
Definition likeOne (i : nat) (button : Button) : M Event (option (option jsstring)) :=
  run call (LocateTweet i) (b_locateOk button) (lit "page error");
  do postLink <- try_catch
      (do link <- ask (ReadLink i) (b_link button); ret (orNull link))
      (fun _ => ret None);
  run call (ScrollIntoView i) (b_scrollOk button) (lit "page error");
  run emit (RandomSleep 300 400);
  do isStillVisible <- ask (RecheckVisible i) (b_stillVisible button);
  if isStillVisible then
    run call (Click i) (b_clickOk button) (lit "page error");
    run emit (RandomSleep 800 700);
    ret (Some postLink)
  else ret None.

(** The loop over the selected buttons, with [likedCount] and
    [likedPostLinks] as its state; an error skips the button. *)
Fixpoint likeAll (selectedButtons : list (option (nat * Button)))
    (likedCount : nat) (likedPostLinks : list jsstring)
    : M Event (nat * list jsstring) :=
  match selectedButtons with
  | [] => ret (likedCount, likedPostLinks)
  | selected :: rest =>
      do clicked <- try_catch
          match selected with
          | Some (i, button) => likeOne i button
          | None => throw (lit "Cannot read properties of undefined")
          end
          (fun _ => ret None);
      match clicked with
      | Some postLink =>
          likeAll rest (S likedCount)
            match postLink with
            | Some link => likedPostLinks ++ [link]
            | None => likedPostLinks
            end
      | None => likeAll rest likedCount likedPostLinks
      end
  end.

(** [calculatedLikes] is the value of
    [Math.floor(visibleButtons.length * (likePercentage / 100))], an
    expression on doubles that [floorPercent] stands for. *)
Definition postsToLike (chance : Q) (calculatedLikes : nat) : nat :=
  if calculatedLikes =? 0 then
    if negb (Qle_bool (1 # 5) chance) then 1 else 0
  else
    if negb (Qle_bool (3 # 5) chance) then Nat.min calculatedLikes 1 else 0.

Definition likeRandomPosts (floorPercent : nat -> nat -> nat) (pg : LikePage)
    (likePercentage : nat) : M Event LoginX.LikeResult :=
  try_catch
    (do allButtons <- ask QueryLikeButtons (lp_buttons pg);
     if length allButtons =? 0 then
       do totalTweets <- ask CountTweets (lp_tweets pg);
       ret (LoginX.mkLikeResult 0 totalTweets 0 [])
     else
       do visibleButtons <- visibleFrom allButtons 0;
       if length visibleButtons =? 0 then
         do totalTweets <- ask CountTweets (lp_tweets pg);
         ret (LoginX.mkLikeResult 0 totalTweets 0 [])
       else
         do totalTweets <- ask CountTweets (lp_tweets pg);
         let calculatedLikes :=
           floorPercent (length visibleButtons) likePercentage in
         let todo := postsToLike (lp_chance pg) calculatedLikes in
         if todo =? 0 then
           ret (LoginX.mkLikeResult 0 totalTweets (length visibleButtons) [])
         else
           let selectedButtons :=
             selectFrom (lp_pick pg) visibleButtons todo 0
               (seq 0 (length visibleButtons)) in
           do liked <- likeAll selectedButtons 0 [];
           ret (LoginX.mkLikeResult (fst liked) totalTweets
                  (length visibleButtons) (snd liked)))
    (fun _ => ret (LoginX.mkLikeResult 0 0 0 [])).

(** ** Notifications *)

(** One notification of the page: its text and whether it holds a
    reply button or a link to a status. *)
Record Notification : Type := mkNotification {
  n_text : jsstring;
  n_hasTarget : bool
}.

Definition isReply (notif : Notification) : bool :=
  (includes (lit "replied to your") (n_text notif)
   || includes (lit "replied") (n_text notif)
   || includes (lit "Reply") (n_text notif))
  && n_hasTarget notif.

(** The [forEach] with its index, then [replies.map(r => r.index)]. *)
Fixpoint replyIndicesFrom (notifications : list Notification) (index : nat)
    : list nat :=
  match notifications with
  | [] => []
  | notif :: rest =>
      if isReply notif then index :: replyIndicesFrom rest (S index)
      else replyIndicesFrom rest (S index)
  end.

(** What the page answers while the notifications are handled. *)
Record NotificationPage : Type := mkNotificationPage {
  np_link : nat -> Res bool;          (* the three queries for the link *)
  np_openNav : Res unit;              (* navigating to the notifications *)
  np_clickOk : bool;
  np_notifications : Res (list Notification);
  np_reply : nat -> Res bool;         (* [replyToNotification(page, index).success] *)
  np_homeNav : Res unit;              (* navigating back home *)
  np_recoverNav : Res unit            (* the same, from the [catch] *)
}.

Definition linkSelectors : list jsstring :=
  [ lit "a[aria-label=Notifications]";
    lit "a[href=/notifications]";
    lit "a[data-testid=AppTabBar_Notifications_Link]" ].

(** The three queries: stops at the first that finds the link. *)
Fixpoint findLink (pg : NotificationPage) (selectors : list jsstring) (i : nat)
    : M Event bool :=
  match selectors with
  | [] => ret false
  | selector :: rest =>
      do found <- ask (QueryLink selector) (np_link pg i);
      if found then ret true else findLink pg rest (S i)
  end.

Definition openNotifications (pg : NotificationPage) : M Event bool :=
  try_catch
    (do notificationsButton <- findLink pg linkSelectors 0;
     if negb notificationsButton then
       run safeNavigate (np_openNav pg) (lit "https://twitter.com/notifications");
       run emit (Sleep 2000);
       ret true
     else
       run call ClickLink (np_clickOk pg) (lit "page error");
       run emit (Sleep 2000);
       ret true)
    (fun _ => ret false).

Definition getReplyNotifications (pg : NotificationPage) : M Event (list nat) :=
  try_catch
    (run emit (Sleep 2000);
     do notifications <- ask ReadNotifications (np_notifications pg);
     ret (replyIndicesFrom notifications 0))
    (fun _ => ret []).

(** The loop over [notificationsToReply], with [repliedCount] as its
    state. *)
Fixpoint replyAll (pg : NotificationPage) (notificationsToReply : list nat)
    (repliedCount : nat) : M Event nat :=
  match notificationsToReply with
  | [] => ret repliedCount
  | index :: rest =>
      do repliedCount <- try_catch
          (do success <- ask (ReplyTo index) (np_reply pg index);
           run emit (RandomSleep 3000 2000);
           ret (if success then S repliedCount else repliedCount))
          (fun _ => ret repliedCount);
      replyAll pg rest repliedCount
  end.

Definition homeUrl : jsstring := lit "https://twitter.com/home".

(** Returns [(checked, replied)]. *)
Definition checkAndReplyToNotifications (pg : NotificationPage)
    : M Event (bool * nat) :=
  try_catch
    (do opened <- openNotifications pg;
     if negb opened then ret (false, 0)
     else
       do replyIndices <- getReplyNotifications pg;
       if length replyIndices =? 0 then
         run safeNavigate (np_homeNav pg) homeUrl;
         run emit (Sleep 1000);
         ret (true, 0)
       else
         let notificationsToReply := firstn 3 replyIndices in
         do repliedCount <- replyAll pg notificationsToReply 0;
         run safeNavigate (np_homeNav pg) homeUrl;
         run emit (Sleep 1000);
         ret (true, repliedCount))
    (fun _ =>
       run try_catch (run safeNavigate (np_recoverNav pg) homeUrl; ret tt)
             (fun _ => ret tt);
       ret (false, 0)).

End Engage.

(* ================================================================== *)
(** * The dashboard starts and stops the posting script: src/server.js *)
(* ================================================================== *)

(** The routes /api/automation/post/start and /api/automation/post/stop
    share the variable [postAutomationProcess] with the listeners of
    the children and with the timers of the stop route.  A request
    handler up to its [await], a listener and a timer callback each run
    to completion before the next one starts; the state below is what
    they share, and a task is one of them together with what the
    operating system answers. *)

Module Supervisor.

Inductive Signal : Type := SIGTERM | SIGKILL.

(** What [subprocess.kill] does: the signal is sent and [killed]
    becomes true, the signal is not sent, or the call throws. *)
Inductive KillOutcome : Type := Sent | NotSent | KillThrows.

(** A signal asked for: the child it is for and, for the signal of a
    timer, the child that the stop request that set the timer was
    stopping. *)
Record Kill : Type := mkKill {
  k_signal : Signal;
  k_target : nat;
  k_timerOf : option nat
}.

(** Children are numbered in the order they are spawned. *)
Record State : Type := mkState {
  postAutomationProcess : option nat;   (* the child the variable refers to *)
  killed : nat -> bool;                 (* the [killed] flag of each child *)
  spawned : nat;                        (* the children spawned so far *)
  pendingTimers : list nat;             (* the timers set and not fired yet,
                                           each by the child its request stopped *)
  kills : list Kill;                    (* the calls of [kill], latest first *)
  treeKills : list nat;                 (* the calls of taskkill *)
  crashed : bool                        (* an exception left a timer callback *)
}.

Definition initial : State := mkState None (fun _ => false) 0 [] [] [] false.

Inductive Task : Type :=
| StartRequest (credentials : bool) (spawnOk : bool) (outcome : KillOutcome)
| StartResumes
| StopRequest (isWindows : bool) (outcome : KillOutcome)
| TimerFires (outcome : KillOutcome)
| ChildExits (child : nat)
| ChildErrors (child : nat)
| StatusRequest.

(** [postAutomationProcess && !postAutomationProcess.killed] *)
Definition running (st : State) : option nat :=
  match postAutomationProcess st with
  | Some child => if killed st child then None else Some child
  | None => None
  end.

Definition setKilled (st : State) (child : nat) : nat -> bool :=
  fun c => if c =? child then true else killed st c.

(** [child.kill(signal)], when it does not throw. *)
Definition signalled (st : State) (k : Kill) (outcome : KillOutcome) : State :=
  mkState (postAutomationProcess st)
    (match outcome with Sent => setKilled st (k_target k) | _ => killed st end)
    (spawned st) (pendingTimers st) (k :: kills st) (treeKills st) (crashed st).

Definition setProcess (st : State) (p : option nat) : State :=
  mkState p (killed st) (spawned st) (pendingTimers st) (kills st)
    (treeKills st) (crashed st).

(** The start route up to its [await]. *)
Definition startRequest (st : State) (credentials spawnOk : bool)
    (outcome : KillOutcome) : State :=
  match running st with
  | Some _ => st                                   (* 400: already running *)
  | None =>
      if negb credentials then st                  (* 400: email and password *)
      else if spawnOk then
        mkState (Some (spawned st)) (killed st) (S (spawned st))
          (pendingTimers st) (kills st) (treeKills st) (crashed st)
      else
        (* [spawn] threw: the [catch] kills what the variable holds *)
        match postAutomationProcess st with
        | Some child =>
            match outcome with
            | KillThrows => signalled st (mkKill SIGTERM child None) outcome
            | _ => setProcess (signalled st (mkKill SIGTERM child None) outcome)
                     None
            end
        | None => st
        end
  end.

(** The stop route. *)
Definition stopRequest (st : State) (isWindows : bool) (outcome : KillOutcome)
    : State :=
  match running st with
  | Some child =>
      let st1 :=
        if isWindows then
          mkState (postAutomationProcess st) (killed st) (spawned st)
            (pendingTimers st) (kills st) (child :: treeKills st) (crashed st)
        else
          match outcome with
          | KillThrows => signalled st (mkKill SIGTERM child None) outcome
          | _ =>
              let st' := signalled st (mkKill SIGTERM child None) outcome in
              mkState (postAutomationProcess st') (killed st') (spawned st')
                (pendingTimers st' ++ [child]) (kills st') (treeKills st')
                (crashed st')
          end in
      setProcess st1 None
  | None => st
  end.

(** The callback of the oldest timer. *)
Definition timerFires (st : State) (outcome : KillOutcome) : State :=
  match pendingTimers st with
  | [] => st
  | origin :: rest =>
      let st1 :=
        mkState (postAutomationProcess st) (killed st) (spawned st) rest
          (kills st) (treeKills st) (crashed st) in
      match running st1 with
      | Some child =>
          let st2 := signalled st1 (mkKill SIGKILL child (Some origin)) outcome in
          match outcome with
          | KillThrows =>
              mkState (postAutomationProcess st2) (killed st2) (spawned st2)
                (pendingTimers st2) (kills st2) (treeKills st2) true
          | _ => st2
          end
      | None => st1
      end
  end.

(** The [exit] and [error] listeners of a child that was spawned. *)
Definition childGone (st : State) (child : nat) : State :=
  if child <? spawned st then setProcess st None else st.

Definition step (st : State) (t : Task) : State :=
  if crashed st then st
  else
    match t with
    | StartRequest credentials spawnOk outcome =>
        startRequest st credentials spawnOk outcome
    | StartResumes => st
    | StopRequest isWindows outcome => stopRequest st isWindows outcome
    | TimerFires outcome => timerFires st outcome
    | ChildExits child | ChildErrors child => childGone st child
    | StatusRequest => st
    end.

Definition replay (tasks : list Task) : State := fold_left step tasks initial.

(** What holds between the variable, the timers and the signals. *)
Record Consistent (st : State) : Prop := mkConsistent {
  timers_old : forall origin, In origin (pendingTimers st) -> origin < spawned st;
  process_old : forall child, postAutomationProcess st = Some child ->
                              child < spawned st;
  timers_older : forall origin child,
      In origin (pendingTimers st) -> postAutomationProcess st = Some child ->
      origin < child;
  forced_later : forall k origin,
      In k (kills st) -> k_timerOf k = Some origin -> origin < k_target k
}.

End Supervisor.

(* ================================================================== *)
(** * What the properties observe in a run                             *)
(* ================================================================== *)

Module Observe.
Import JS AutoPost.
Local Open Scope eff_scope.

Definition isAttempt (e : Event) : bool :=
  match e with PostingAttempt _ _ => true | _ => false end.

Definition isLogEntry (e : Event) : bool :=
  match e with ContentLogCreate _ => true | _ => false end.

(** The invocations of the submit operation, and the terminal log
    entries, among the events of a run. *)
Definition attempts (evs : list Event) : list Event := List.filter isAttempt evs.
Definition logEntries (evs : list Event) : list Event := List.filter isLogEntry evs.

(** A submit operation given by its outcomes alone. *)
Definition submitOf (text : jsstring) (outcome : nat -> Res bool) (attempt : nat)
    : M Event bool :=
  ask (PostTweet text) (outcome attempt).

(** The click strategies a run tried, in order. *)
Definition strategyOf (e : Event) : list ClickStrategy :=
  match e with ClickAttempt s => [s] | _ => [] end.

Definition strategies (evs : list Event) : list ClickStrategy :=
  flat_map strategyOf evs.

(** The coordinate click sets [clicked] only with a box and a click
    that resolves. *)
Definition coordinateClicks (c : Coordinate) : bool :=
  match c with HasBox _ ok => ok | _ => false end.

(** The coordinate click raises. *)
Definition coordinateRaises (c : Coordinate) : bool :=
  match c with
  | QueryRejects | BoxRejects | HasBox _ false => true
  | _ => false
  end.

(** The strategies tried when the first that does not raise is
    accepted. *)
Definition firstNotRaising (pg : SubmitPage) : list ClickStrategy :=
  if s_nativeOk pg then [NativeClick]
  else if s_evaluateOk pg then [NativeClick; EvaluateClick]
  else [NativeClick; EvaluateClick; CoordinateClick].

(** The events that only STEPS 5 to 9 cause. *)
Definition isCycleEvent (e : Event) : bool :=
  match e with
  | ApiPost _ | ContentLogFind | PostingAttempt _ _ | PostTweet _
  | SelectTrend _ | SampleTweets _ | ContentLogCreate _ | AppendToCSV _ => true
  | _ => false
  end.

(** The topics a generation was asked for, the look-ups of the guard
    and the texts handed to the submit operation. *)
Definition generationOf (e : Event) : list jsstring :=
  match e with ApiPost t => [t] | _ => [] end.

Definition guardCallOf (e : Event) : list unit :=
  match e with ContentLogFind => [tt] | _ => [] end.

Definition postedOf (e : Event) : list jsstring :=
  match e with PostTweet p => [p] | _ => [] end.

(** The events of the run other than those that carry the text of the
    post, a generation or a look-up of the guard. *)
Definition isPlumbing (e : Event) : bool :=
  match e with
  | PostTweet _ | ApiPost _ | ContentLogFind | SelectTrend _ | SampleTweets _ => false
  | _ => true
  end.

(** Every text handed to the submit operation is [text]. *)
Definition postsOnly (text : jsstring) (e : Event) : bool :=
  match e with
  | PostTweet p => bool_decide (p = text)
  | _ => true
  end.

(** The post data made of a raw answer about a trend. *)
Definition postOf (raw : jsstring) (t : Trend) : PostData :=
  mkPostData (postOfRaw raw) (topic t) (context t) (tweetCount t).

(** STEP 9 of [main]: the orchestrator on the pages of the run. *)
Definition orchestrate (w : World) (pd : PostData) : M Event bool :=
  postTweetWithRetry
    (fun attempt => postTweetWithButton (w_submitPage w attempt) (post pd))
    (w_dbUp w) (w_model w) (w_scrollPages w) pd CONFIG.maxRetries.

Definition attemptOf (e : Event) : list (nat * nat) :=
  match e with PostingAttempt n m => [(n, m)] | _ => [] end.

(** Neither a generation nor a look-up of the guard. *)
Definition notGeneration (e : Event) : bool :=
  match e with
  | ApiPost _ | ContentLogFind | SelectTrend _ | SampleTweets _ => false
  | _ => true
  end.

(** What follows a click that was accepted. *)
Definition afterClick (pg : SubmitPage) : M Event bool :=
  (run emit (HumanDelay 5000 7000);
   do verified <- verifyTweetPosted (s_verify pg);
   if verified then ret true
   else run emit VerificationInconclusive; ret true)%eff.

(** Every answer of the page is looked at: all of them resolve, or
    not. *)
Definition pageOk (pg : TrendPage) : bool :=
  tp_gotoOk pg && tp_scrollOk pg 0 && tp_scrollOk pg 1 && tp_scrollOk pg 2
  && tp_extractOk pg.

(** The documents the orchestrator hands to the store. *)
Definition successDoc (pd : PostData) (md : jsstring) (sp attempt : nat)
    : NewContentLog :=
  mkNewContentLog (p_topic pd) (p_context pd) (p_tweetCount pd) (post pd)
    (len (post pd)) true attempt (Some (retryMetadata md sp)).

Definition failureDoc (pd : PostData) : NewContentLog :=
  mkNewContentLog (p_topic pd) (p_context pd) (p_tweetCount pd) (post pd)
    (len (post pd)) false CONFIG.maxRetries None.

(** The waits between attempts, the rows of the CSV file and the error
    records asked of the store ([ErrorLog.create] called; the store
    takes the record when it is up), among the events. *)
Definition isBackoff (e : Event) : bool :=
  match e with HumanDelay 5000 10000 => true | _ => false end.

Definition csvRowOf (e : Event) : list NewContentLog :=
  match e with AppendToCSV d => [d] | _ => [] end.

Definition errorRecordOf (e : Event) : list (jsstring * jsstring) :=
  match e with ErrorLogCreate ty msg => [(ty, msg)] | _ => [] end.

Definition isInconclusive (e : Event) : bool :=
  match e with VerificationInconclusive => true | _ => false end.

(** The points clicked with the mouse, among the events. *)
Definition mouseClickOf (e : Event) : list (Q * Q) :=
  match e with MouseClick x y => [(x, y)] | _ => [] end.

(** The code units typed into the compose box, the screenshots taken
    and the pages navigated to, among the events. *)
Definition typedOf (e : Event) : list N :=
  match e with KeyboardType c => [c] | _ => [] end.

Definition screenshotOf (e : Event) : list unit :=
  match e with Screenshot => [tt] | _ => [] end.

Definition gotoOf (e : Event) : list jsstring :=
  match e with Goto url => [url] | _ => [] end.

(** The events of the session and of the end of a run, and the error
    records. *)
Definition isControl (e : Event) : bool :=
  match e with
  | Login | ValidateSession | BrowserClose | MongoClose | ErrorLogCreate _ _ => true
  | _ => false
  end.

Definition shutdownOf (e : Event) : list Event :=
  match e with BrowserClose | MongoClose => [e] | _ => [] end.

Definition loginOf (e : Event) : list unit :=
  match e with Login => [tt] | _ => [] end.

(** The scroll of the feed and the extraction of the trends. *)
Definition discoveryOf (e : Event) : list Event :=
  match e with AutoScroll | ExtractTrends => [e] | _ => [] end.

(** The events that only STEPS 5 to 9 cause, among the events. *)
Definition cycleEventOf (e : Event) : list Event :=
  if isCycleEvent e then [e] else [].

(** The words that make [classifySpan] take a span for the context or
    for the tweet count. *)
Definition reserved : list jsstring :=
  [ lit "Trending"; middleDot; lit "posts"; lit "Tweets"; lit "K"; lit "M" ].

(** What holds of [trendText] once it is set. *)
Definition topicFrom (spans : list jsstring) (x : jsstring) : Prop :=
  (exists s, In s spans /\ x = trim s) /\
  forall w, In w reserved -> includes w x = false.

End Observe.

Module SessionObserve.
Import JS Session.

(** What [clean] promises of a cookie that passed the filter. *)
Record Cleaned (src : Cookie) (c : CleanCookie) : Prop := mkCleaned {
  cl_name : exists s, c_name c = Some s /\ s <> [] /\ name src = Some s;
  cl_value : exists s, c_value c = Some s /\ s <> [] /\ value src = Some s;
  cl_domain : exists s, c_domain c = Some s /\ s <> [] /\ domain src = Some s;
  cl_path_given : forall p, path src = Some p -> p <> [] -> c_path c = p;
  cl_path_default : path src = None \/ path src = Some [] -> c_path c = lit "/";
  cl_httpOnly : c_httpOnly c = match httpOnly src with Some b => b | None => false end;
  cl_secure : c_secure c = match secure src with Some b => b | None => false end;
  cl_sameSite_given :
    forall p, sameSite src = Some p -> p <> [] -> c_sameSite c = p;
  cl_sameSite_default :
    sameSite src = None \/ sameSite src = Some [] -> c_sameSite c = lit "Lax";
  cl_expires :
    forall e, c_expires c = Some e <-> expires src = Some e /\ (0 < e)%Q
}.

(** The cookies handed to [page.setCookie] and to the session store. *)
Definition appliedBy (e : AutoPost.Event) : list (list CleanCookie) :=
  match e with
  | AutoPost.SetCookie cs | AutoPost.SaveSession _ cs => [cs]
  | _ => []
  end.

Definition appliedByBot (e : LoginX.Event) : list (list CleanCookie) :=
  match e with
  | LoginX.SetCookie cs | LoginX.SaveSession _ cs => [cs]
  | _ => []
  end.

End SessionObserve.

Module LoopObserve.
Import JS LoginX.

(** What cooperative cancellation would mean: once the host has asked
    for a stop at the boundary before pass [k], no further pass runs. *)
Definition stopsWhenCancelled (w : World) : Prop :=
  forall k, w_cancelRequested w k = true ->
  forall n st, result (scrollFeed w n) = Ok st -> scrollAttempts st <= k.

(** A page that always answers, no tweet to like, and a host that asks
    for a stop from the start. *)
Definition quietPass : Pass :=
  mkPass true (Ok 10) (Ok (mkLikeResult 0 10 5 []))
    (Ok (mkCommentResult false [] [])) true.

Definition cancelledWorld : World :=
  mkWorld true (fun _ => quietPass) (fun _ => true).

End LoopObserve.

Module EngageObserve.
Import JS.

(** What a tweet element contributes to the sample. *)
Definition kept (tweetEl : Sampling.TweetEl) : list jsstring :=
  match tweetEl with
  | Sampling.TextNode textContent =>
      if 20 <? len (trim textContent) then [trim textContent] else []
  | _ => []
  end.

(** The buttons clicked and the notifications replied to, among the
    events. *)
Definition clickOf (e : Engage.Event) : list nat :=
  match e with Engage.Click i => [i] | _ => [] end.

Definition replyOf (e : Engage.Event) : list nat :=
  match e with Engage.ReplyTo index => [index] | _ => [] end.

Definition commentOf (e : LoginX.Event) : list unit :=
  match e with LoginX.CommentOnRandomPost => [tt] | _ => [] end.

Definition notificationCheckOf (e : LoginX.Event) : list unit :=
  match e with LoginX.CheckNotifications => [tt] | _ => [] end.

Definition apiCallOf (e : LoginX.Event) : list unit :=
  match e with LoginX.ApiPost => [tt] | _ => [] end.

Definition storageOf (e : LoginX.Event) : list LoginX.Event :=
  match e with
  | LoginX.SetCookie _ | LoginX.SetLocalStorage _ | LoginX.SetSessionStorage _ => [e]
  | _ => []
  end.

End EngageObserve.

(* ================================================================== *)
(** * Sample inputs                                                    *)
(* ================================================================== *)

Module Samples.
Import JS AutoPost Observe.

Definition samplePost : PostData :=
  mkPostData (lit "Big day for the league") (lit "Playoffs")
    (lit "Sports - Trending") (lit "12K posts").

(** A raw answer of 282 code units: a space, then 281 letters. *)
Definition paddedRaw : jsstring := 32%N :: repeat 120%N 281.

(** A raw answer of 284 code units: 279 letters, then five spaces. *)
Definition trailingRaw : jsstring := repeat 120%N 279 ++ repeat 32%N 5.

(** A comparison that tells identical texts (score 1) from the others
    (score 0), and the ASCII lower case. *)
Definition sameOrNot (a b : jsstring) : Q := if streq a b then 1 else 0.

Definition asciiLower (s : jsstring) : jsstring :=
  map (fun c => if ((65 <=? c) && (c <=? 90))%N then (c + 32)%N else c) s.

Definition sampleStore : list ContentLogDoc :=
  [ mkContentLogDoc (lit "Old news") 1000 true;
    mkContentLogDoc (lit "Big day for the league") 90000000 true;
    mkContentLogDoc (lit "Did not go out") 90000001 false ].

(** A page on which everything works at the first try. *)
Definition healthyVerify : VerifyPage := mkVerifyPage (Ok true) true (Ok true).

Definition healthyPage : SubmitPage :=
  mkSubmitPage true (fun _ => ProbeHandle) true true (fun _ => true)
    true true true true true NoElement healthyVerify true.

(** The native click raises, the injected click goes through, and the
    verification finds nothing. *)
Definition scriptClickPage : SubmitPage :=
  mkSubmitPage true (fun _ => ProbeHandle) true true (fun _ => true)
    true true true false true NoElement
    (mkVerifyPage (Ok false) true (Ok false)) true.

(** Both clicks on the element raise; the button has a box of 80 by 40
    at (100, 200) and the mouse click goes through. *)
Definition coordinateClickPage : SubmitPage :=
  mkSubmitPage true (fun _ => ProbeHandle) true true (fun _ => true)
    true true true false false (HasBox (mkBox 100 200 80 40) true)
    healthyVerify true.

(** A page on which the compose box never shows: the first selector
    times out, the others match nothing. *)
Definition blindPage : SubmitPage :=
  mkSubmitPage true
    (fun i => match i with 0 => ProbeTimeout | _ => ProbeNull end)
    true true (fun _ => true) true true true true true NoElement
    healthyVerify false.

(** A stored session: a session cookie, a cookie with an expiry and a
    path, and a cookie without a value. *)
Definition sampleCookies : list Session.Cookie :=
  [ Session.mkCookie (Some (lit "auth_token")) (Some (lit "abc"))
      (Some (lit ".twitter.com")) None None (Some true) None (Some (-1)%Q);
    Session.mkCookie (Some (lit "ct0")) (Some (lit "xyz"))
      (Some (lit ".twitter.com")) (Some (lit "/i")) (Some true) None
      (Some (lit "None")) (Some 1767225600%Q);
    Session.mkCookie (Some (lit "guest_id")) (Some []) (Some (lit ".twitter.com"))
      None None None None None ].

Definition sampleSession : Session.SessionData :=
  Session.mkSessionData sampleCookies [] [].

(** The trending page: four blocks, the third repeats the topic of the
    first in upper case. *)
Definition sampleElements : list (list jsstring) :=
  [ [ lit "Trending in Sports"; lit "Playoffs"; lit "12K posts" ];
    [ lit "Trending in Politics"; lit "Election"; lit "98K posts" ];
    [ lit "Trending"; lit "PLAYOFFS" ];
    [ lit "Weather" ] ].

Definition sampleTrendPage : TrendPage :=
  mkTrendPage true (fun _ => true) true sampleElements.

(** Two trends, the first already used. *)
Definition sampleTrends : list Trend :=
  [ mkTrend (lit "Playoffs") (lit "Trending in Sports") (lit "12K posts");
    mkTrend (lit "Election") (lit "Trending in Politics") (lit "98K posts") ].

(** A page of the first script on which everything works, and a
    session none of whose cookies has a value. *)
Definition healthyEnterPage : PostJs.EnterPage :=
  PostJs.mkEnterPage true (fun _ => ProbeHandle) true (fun _ => true) true true
    (mkVerifyPage (Ok false) true (Ok false)) true.

Definition emptySession : Session.SessionData :=
  Session.mkSessionData
    [ Session.mkCookie (Some (lit "guest_id")) (Some []) (Some (lit ".twitter.com"))
        None None None None None ]
    [(lit "theme", lit "dark")] [].

(** A browser that starts with one page open. *)
Definition healthyLaunch : Launch := mkLaunch true (Ok 1) true true true true.

(** A run in which the service answers no choice. *)
Definition nullWorld : World :=
  mkWorld true true healthyLaunch (lit "me@example.org") (lit "openai/gpt-3.5-turbo") 10
    (Some sampleSession) (mkCookiePage true true true) true true
    (mkExtractPage (Ok sampleCookies) (Ok []) (Ok []) true)
    true true sampleTrendPage (fun _ => 0%Q) []
    (fun _ => ApiNoChoice) true sampleStore 100000000 (fun _ => healthyPage) true true.

(** A run in which the trending page does not load, and a run without a
    stored session in which the login fails. *)
Definition noTrendsWorld : World :=
  mkWorld true true healthyLaunch (lit "me@example.org") (lit "openai/gpt-3.5-turbo") 10
    (Some sampleSession) (mkCookiePage true true true) true true
    (mkExtractPage (Ok sampleCookies) (Ok []) (Ok []) true)
    true true (mkTrendPage false (fun _ => true) true sampleElements)
    (fun _ => 0%Q) [] (fun _ => ApiNoChoice) true sampleStore 100000000
    (fun _ => healthyPage) true true.

Definition loginFailsWorld : World :=
  mkWorld true true healthyLaunch (lit "me@example.org") (lit "openai/gpt-3.5-turbo") 10
    None (mkCookiePage true true true) true false
    (mkExtractPage (Ok sampleCookies) (Ok []) (Ok []) true)
    true true sampleTrendPage
    (fun _ => 0%Q) [] (fun _ => ApiNoChoice) true sampleStore 100000000
    (fun _ => healthyPage) true true.

(** A run in which the browser starts and the set-up of its page
    rejects. *)
Definition halfLaunchedWorld : World :=
  mkWorld true true (mkLaunch true (Ok 1) true false true true)
    (lit "me@example.org") (lit "openai/gpt-3.5-turbo") 10
    (Some sampleSession) (mkCookiePage true true true) true true
    (mkExtractPage (Ok sampleCookies) (Ok []) (Ok []) true)
    true true sampleTrendPage
    (fun _ => 0%Q) [] (fun _ => ApiNoChoice) true sampleStore 100000000
    (fun _ => healthyPage) true true.

(** A run with a stored session whose cookies cannot be applied. *)
Definition staleCookiesWorld : World :=
  mkWorld true true healthyLaunch (lit "me@example.org") (lit "openai/gpt-3.5-turbo") 10
    (Some sampleSession) (mkCookiePage true false true) false true
    (mkExtractPage (Ok sampleCookies) (Ok []) (Ok []) true)
    true true sampleTrendPage
    (fun _ => 0%Q) [] (fun _ => ApiNoChoice) true sampleStore 100000000
    (fun _ => healthyPage) true true.

(** A run in which the service first answers a text already posted,
    then times out. *)
Definition rejectedWorld : World :=
  mkWorld true true healthyLaunch (lit "me@example.org") (lit "openai/gpt-3.5-turbo") 10
    (Some sampleSession) (mkCookiePage true true true) true true
    (mkExtractPage (Ok sampleCookies) (Ok []) (Ok []) true)
    true true sampleTrendPage (fun _ => (1 # 2)%Q) []
    (fun k => if k =? 0 then ApiContent (lit "Big day for the league")
              else ApiRejected (lit "timeout of 15000ms exceeded"))
    true sampleStore 100000000 (fun _ => healthyPage) true true.

(** A search page: a short tweet, an element that cannot be read, and
    three tweets that are long enough, the first one padded. *)
Definition sampleSearchPage : Sampling.SearchPage :=
  Sampling.mkSearchPage true (fun _ => true) true
    [ Sampling.TextNode (lit "Go team");
      Sampling.QueryThrows;
      Sampling.TextNode (lit "  What a game that was last night  ");
      Sampling.NoTextNode;
      Sampling.TextNode (lit "Overtime again, I cannot take this");
      Sampling.TextNode (lit "Third one that is long enough to keep") ].

(** Two rows of the log: a success, and a failure whose text holds a
    comma and a quote. *)
Definition successRow : Csv.CsvData :=
  Csv.mkCsvData (lit "2025-01-06T09:00:00.000Z") (lit "1/6/2025") (lit "9:00:00 AM")
    (lit "Playoffs") (lit "Trending in Sports") (lit "12K posts")
    (lit "Big day for the league") (lit "22") true (lit "1")
    (lit "openai/gpt-3.5-turbo") (lit "0.85") (lit "native_click_forced").

Definition failureRow : Csv.CsvData :=
  Csv.mkCsvData (lit "2025-01-06T10:00:00.000Z") (lit "1/6/2025") (lit "10:00:00 AM")
    (lit "Election") (lit "Trending in Politics") (lit "98K posts")
    (lit "Well, that happened") (lit "19") false (lit "3")
    (lit "openai/gpt-3.5-turbo") (lit "0.85") (lit "failed").

End Samples.

(* ================================================================== *)
(** * Properties                                                       *)
(* ================================================================== *)

(** ** The monad *)

Section EffLemmas.
Context {E : Type}.
Implicit Types (P : E -> bool).

Lemma events_bind {A B} (m : M E A) (k : A -> M E B) :
  events (bind m k) =
  events m ++ match result m with Ok a => events (k a) | Throw _ => [] end.
Proof.
  destruct m as [t [a|e]]; cbn.
  - destruct (k a); reflexivity.
  - now rewrite app_nil_r.
Qed.

Lemma result_bind {A B} (m : M E A) (k : A -> M E B) :
  result (bind m k) =
  match result m with Ok a => result (k a) | Throw e => Throw e end.
Proof. destruct m as [t [a|e]]; cbn; [destruct (k a)|]; reflexivity. Qed.

Lemma events_try_catch {A} (m : M E A) (h : JS.jsstring -> M E A) :
  events (try_catch m h) =
  events m ++ match result m with Ok _ => [] | Throw e => events (h e) end.
Proof.
  destruct m as [t [a|e]]; cbn.
  - now rewrite app_nil_r.
  - destruct (h e); reflexivity.
Qed.

Lemma result_try_catch {A} (m : M E A) (h : JS.jsstring -> M E A) :
  result (try_catch m h) =
  match result m with Ok a => Ok a | Throw e => result (h e) end.
Proof. destruct m as [t [a|e]]; cbn; [|destruct (h e)]; reflexivity. Qed.

Lemma events_try_finally {A} (m : M E A) (f : M E unit) :
  events (try_finally m f) = events m ++ events f.
Proof. destruct m as [t r], f as [t' [[]|e]]; reflexivity. Qed.

(** A handler that cannot throw makes the whole [try] total. *)
Lemma try_catch_total {A} (m : M E A) (h : JS.jsstring -> M E A) :
  (forall e, exists a, result (h e) = Ok a) ->
  exists a, result (try_catch m h) = Ok a.
Proof.
  intros Hh. rewrite result_try_catch.
  destruct (result m) as [a|e]; eauto.
Qed.

Lemma result_ret {A} (a : A) : result (@ret E A a) = Ok a.
Proof. reflexivity. Qed.

Lemma events_ret {A} (a : A) : events (@ret E A a) = [].
Proof. reflexivity. Qed.

Lemma result_throw {A} msg : result (@throw E A msg) = Throw msg.
Proof. reflexivity. Qed.

Lemma events_throw {A} msg : events (@throw E A msg) = [].
Proof. reflexivity. Qed.

Lemma result_emit (e : E) : result (emit e) = Ok tt.
Proof. reflexivity. Qed.

Lemma events_emit (e : E) : events (emit e) = [e].
Proof. reflexivity. Qed.

Lemma result_call (e : E) ok msg :
  result (call e ok msg) = if ok then Ok tt else Throw msg.
Proof. reflexivity. Qed.

Lemma events_call (e : E) ok msg : events (call e ok msg) = [e].
Proof. reflexivity. Qed.

Lemma result_ask {A} (e : E) (r : Res A) : result (ask e r) = r.
Proof. reflexivity. Qed.

Lemma events_ask {A} (e : E) (r : Res A) : events (ask e r) = [e].
Proof. reflexivity. Qed.

Lemma project_bind {A B X} (f : E -> list X) (m : M E A) (k : A -> M E B) :
  flat_map f (events (bind m k)) =
  flat_map f (events m) ++
  match result m with Ok a => flat_map f (events (k a)) | Throw _ => [] end.
Proof. rewrite events_bind, flat_map_app. now destruct (result m). Qed.

Lemma project_try_catch {A X} (f : E -> list X) (m : M E A) h :
  flat_map f (events (try_catch m h)) =
  flat_map f (events m) ++
  match result m with Ok _ => [] | Throw e => flat_map f (events (h e)) end.
Proof. rewrite events_try_catch, flat_map_app. now destruct (result m). Qed.

Section Silent.
Context {X : Type} (f : E -> list X).

Lemma silent_ret {A} (a : A) : silent f (ret a).
Proof. reflexivity. Qed.

Lemma silent_throw {A} msg : silent f (@throw E A msg).
Proof. reflexivity. Qed.

Lemma silent_emit e : f e = [] -> silent f (emit e).
Proof. unfold silent; cbn. intros ->. reflexivity. Qed.

Lemma silent_call e ok msg : f e = [] -> silent f (call e ok msg).
Proof. unfold silent; cbn. intros ->. reflexivity. Qed.

Lemma silent_ask {A} e (r : Res A) : f e = [] -> silent f (ask e r).
Proof. unfold silent; cbn. intros ->. reflexivity. Qed.

Lemma silent_bind {A B} (m : M E A) (k : A -> M E B) :
  silent f m -> (forall a, silent f (k a)) -> silent f (bind m k).
Proof.
  unfold silent. intros Hm Hk. rewrite project_bind, Hm.
  destruct (result m); cbn; auto.
Qed.

Lemma silent_try_catch {A} (m : M E A) h :
  silent f m -> (forall e, silent f (h e)) -> silent f (try_catch m h).
Proof.
  unfold silent. intros Hm Hh. rewrite project_try_catch, Hm.
  destruct (result m); cbn; auto.
Qed.

Lemma silent_try_finally {A} (m : M E A) fin :
  silent f m -> silent f fin -> silent f (try_finally m fin).
Proof.
  unfold silent. intros Hm Hf.
  rewrite events_try_finally, flat_map_app, Hm, Hf. reflexivity.
Qed.

End Silent.

Lemma outside_nil P e : P e = true -> outside P e = [].
Proof. unfold outside. now intros ->. Qed.

Lemma outside_all P (evs : list E) :
  flat_map (outside P) evs = [] -> forall e, In e evs -> P e = true.
Proof.
  induction evs as [|a evs IH]; cbn [flat_map In]; [tauto|].
  unfold outside at 1. destruct (P a) eqn:Ha; [|discriminate].
  intros H e [<-|Hin]; auto.
Qed.

(** Whatever is blind to the events satisfying [P] observes nothing of
    a computation that causes only such events. *)
Lemma silent_outside {A X} P (f : E -> list X) (m : M E A) :
  silent (outside P) m -> (forall e, P e = true -> f e = []) -> silent f m.
Proof.
  unfold silent. intros Hm Hf. pose proof (outside_all P _ Hm) as Hall.
  induction (events m) as [|a evs IH]; [reflexivity|].
  cbn [flat_map]. rewrite (Hf a) by (apply Hall; now left).
  apply IH.
  - cbn [flat_map] in Hm. now apply app_eq_nil in Hm.
  - intros e He. apply Hall. now right.
Qed.

End EffLemmas.

Create HintDb silent.
Create Rewrite HintDb eff.

#[global] Hint Rewrite @events_bind @result_bind @events_try_catch
  @result_try_catch @events_try_finally @result_ret @events_ret
  @result_throw @events_throw @result_emit @events_emit @result_call
  @events_call @result_ask @events_ask : eff.

(** Computes the events and the result of a sequence step by step. *)
Ltac eff := repeat (progress (autorewrite with eff; cbv beta iota)).

(** Goes through a computation that observes nothing. *)
Ltac silence :=
  repeat match goal with
  | |- silent _ (bind _ _) => apply silent_bind; [|intros]
  | |- silent _ (try_catch _ _) => apply silent_try_catch; [|intros]
  | |- silent _ (try_finally _ _) => apply silent_try_finally
  | |- silent _ (ret _) => apply silent_ret
  | |- silent _ (throw _) => apply silent_throw
  | |- silent _ (emit _) => apply silent_emit; solve [reflexivity | auto]
  | |- silent _ (call _ _ _) => apply silent_call; solve [reflexivity | auto]
  | |- silent _ (ask _ _) => apply silent_ask; solve [reflexivity | auto]
  | |- silent _ (if ?b then _ else _) => destruct b
  | |- silent _ (match ?x with _ => _ end) => destruct x
  | |- silent _ _ => solve [auto with silent]
  end.

(** ** The retry orchestrator *)

Module RetryFacts.
Import JS AutoPost Observe Samples.

Section Outcomes.
Variable outcome : nat -> Res bool.
Variable dbUp : bool.
Variable configModel : jsstring.
Variable configScrollPages : nat.
Variable postData : PostData.
Variable maxRetries : nat.

Let loop := retryLoop (submitOf (post postData) outcome) dbUp configModel
              configScrollPages postData maxRetries.
Let turn := retryAttempt (submitOf (post postData) outcome) dbUp configModel
              configScrollPages postData maxRetries.

Ltac crunch_turn from :=
  unfold turn, retryAttempt, submitOf, logSuccessfulPost, logFailedPost,
    appendToCSV;
  destruct (outcome from) as [[|]|message]; destruct dbUp;
  destruct (from <? maxRetries); destruct (from =? maxRetries);
  cbn.

(** One turn invokes the submit operation once and writes at most one
    entry; it writes one exactly when it ends the loop with the store
    up. *)
Lemma turn_attempts from : length (attempts (events (turn from))) = 1.
Proof. crunch_turn from; reflexivity. Qed.

Lemma turn_logs from :
  length (logEntries (events (turn from))) <= 1 /\
  (result (turn from) = Ok None -> logEntries (events (turn from)) = []) /\
  (forall e, result (turn from) <> Throw e).
Proof. crunch_turn from; repeat split; auto; try discriminate; lia. Qed.

Lemma loop_step todo from :
  loop (S todo) from =
  bind (turn from) (fun r => match r with
                             | Some b => ret b
                             | None => loop todo (S from)
                             end).
Proof. reflexivity. Qed.

Lemma loop_attempts todo from :
  length (attempts (events (loop todo from))) <= todo.
Proof.
  revert from; induction todo as [|todo IH]; intros from; [cbn; lia|].
  rewrite loop_step, events_bind. unfold attempts in *.
  rewrite List.filter_app, length_app.
  pose proof (turn_attempts from) as H1. unfold attempts in H1. rewrite H1.
  destruct (result (turn from)) as [[b|]|e]; cbn; try lia.
  specialize (IH (S from)). lia.
Qed.

Lemma loop_logs todo from :
  length (logEntries (events (loop todo from))) <= 1.
Proof.
  revert from; induction todo as [|todo IH]; intros from; [cbn; lia|].
  rewrite loop_step, events_bind. unfold logEntries in *.
  rewrite List.filter_app, length_app.
  destruct (turn_logs from) as (H1 & H2 & _). unfold logEntries in *.
  destruct (result (turn from)) as [[b|]|e].
  - cbn [events ret fst List.filter length]. lia.
  - rewrite (H2 eq_refl). apply IH.
  - cbn [List.filter length]. lia.
Qed.

(** The loop never throws: it returns [true] or [false]. *)
Lemma loop_returns todo from : exists b, result (loop todo from) = Ok b.
Proof.
  revert from; induction todo as [|todo IH]; intros from; [now exists false|].
  rewrite loop_step, result_bind.
  destruct (turn_logs from) as (_ & _ & H3).
  destruct (result (turn from)) as [[b|]|e]; cbn; eauto.
  now destruct (H3 e).
Qed.

(** When every attempt returns [false], the loop falls through to the
    final [return false]: every turn was taken and nothing was
    written. *)
Lemma loop_all_false todo from :
  (forall k, outcome k = Ok false) ->
  result (loop todo from) = Ok false /\
  length (attempts (events (loop todo from))) = todo /\
  logEntries (events (loop todo from)) = [].
Proof.
  intros Hall. revert from; induction todo as [|todo IH]; intros from.
  - repeat split.
  - destruct (IH (S from)) as (R & A & L).
    rewrite loop_step, events_bind, result_bind.
    assert (Ht : result (turn from) = Ok None /\
                 attempts (events (turn from)) = [PostingAttempt from maxRetries] /\
                 logEntries (events (turn from)) = []).
    { unfold turn, retryAttempt, submitOf. rewrite Hall.
      destruct (from <? maxRetries); cbn; auto. }
    destruct Ht as (Ht1 & Ht2 & Ht3). rewrite Ht1.
    unfold attempts, logEntries in *. rewrite !List.filter_app, Ht2, Ht3, L.
    cbn. rewrite A. auto.
Qed.

End Outcomes.

(** X4.  No run of the orchestrator invokes the submit operation more than
    [maxRetries] times, writes more than one entry, or throws. *)
Lemma postTweetWithRetry_bounds outcome dbUp md sp pd maxRetries :
  let m := postTweetWithRetry (submitOf (post pd) outcome) dbUp md sp pd maxRetries in
  length (attempts (events m)) <= maxRetries /\
  length (logEntries (events m)) <= 1 /\
  exists b, result m = Ok b.
Proof.
  cbn. unfold postTweetWithRetry. split; [|split].
  - apply loop_attempts.
  - apply loop_logs.
  - apply loop_returns.
Qed.

(** Attempts 1 and 2 fail, attempt 3 succeeds: one success entry with
    [retryCount] 3, no failure entry. *)
Example retry_third_attempt_succeeds :
  let m := postTweetWithRetry
             (submitOf (post samplePost) (fun k => Ok (k =? 3)))
             true (lit "openai/gpt-3.5-turbo") 10 samplePost 3 in
  result m = Ok true /\
  length (attempts (events m)) = 3 /\
  map (fun e => match e with
                | ContentLogCreate d => Some (nl_success d, retryCount d)
                | _ => None
                end) (logEntries (events m)) = [Some (true, 3)].
Proof. vm_compute. repeat split. Qed.

(** The last attempt throws: one failure entry. *)
Example retry_last_attempt_throws :
  let m := postTweetWithRetry
             (submitOf (post samplePost)
                (fun k => if k =? 3 then Throw (lit "detached frame") else Ok false))
             true (lit "openai/gpt-3.5-turbo") 10 samplePost 3 in
  result m = Ok false /\
  map (fun e => match e with
                | ContentLogCreate d => Some (nl_success d, retryCount d)
                | _ => None
                end) (logEntries (events m)) = [Some (false, 3)].
Proof. vm_compute. repeat split. Qed.

(** C1.  The claim: for every [maxRetries] and every sequence of
    outcomes of the submit operation, [postTweetWithRetry] invokes it
    at most [maxRetries] times and writes exactly one terminal log
    entry, also when every attempt returns [false] without throwing.
    The code: when every attempt returns [false], the loop takes all
    its [maxRetries] turns, falls through to the final [return false]
    and has written no entry at all; the failure entry is written only
    in the [catch] of the last attempt. *)
Theorem postTweetWithRetry_all_false_writes_nothing :
  forall dbUp md sp pd maxRetries,
    let m := postTweetWithRetry (submitOf (post pd) (fun _ => Ok false))
               dbUp md sp pd maxRetries in
    result m = Ok false /\
    length (attempts (events m)) = maxRetries /\
    logEntries (events m) = [].
Proof.
  intros. subst m. unfold postTweetWithRetry.
  apply loop_all_false. reflexivity.
Qed.

End RetryFacts.

(** ** The interaction executor *)

Module SubmitFacts.
Import JS AutoPost Observe Samples.

Lemma findTextarea_silent_strategies pg selectors i :
  silent strategyOf (findTextarea pg selectors i).
Proof.
  revert i; induction selectors as [|sel rest IH]; intros i; cbn [findTextarea].
  - apply silent_ret.
  - silence.
Qed.

Lemma typeContent_silent_strategies pg content i :
  silent strategyOf (typeContent pg content i).
Proof.
  revert i; induction content as [|c rest IH]; intros i; cbn [typeContent].
  - apply silent_ret.
  - silence.
Qed.

#[local] Hint Resolve findTextarea_silent_strategies
  typeContent_silent_strategies : silent.

Lemma reachButton_silent_strategies pg text :
  silent strategyOf (reachButton pg text).
Proof. unfold reachButton, randomMouseMovement. silence. Qed.

Lemma verifyTweetPosted_silent_strategies vp :
  silent strategyOf (verifyTweetPosted vp).
Proof. unfold verifyTweetPosted. silence. Qed.

(** The verification catches everything: it answers [true] or [false]. *)
Lemma verifyTweetPosted_returns vp :
  exists b, result (verifyTweetPosted vp) = Ok b.
Proof.
  unfold verifyTweetPosted. apply try_catch_total. intros; now exists false.
Qed.

(** The click step: which strategies are tried, and whether [clicked]
    ends up set.  The step itself never throws. *)
Lemma clickPostButton_spec pg :
  strategies (events (clickPostButton pg)) = firstNotRaising pg /\
  result (clickPostButton pg) =
    Ok (s_nativeOk pg || s_evaluateOk pg || coordinateClicks (s_coordinate pg)).
Proof.
  unfold clickPostButton, coordinateClick, firstNotRaising.
  destruct pg as [? ? ? ? ? ? ? ? nat_ok eval_ok coord ? ?]; cbn.
  destruct nat_ok, eval_ok; cbn; auto.
  destruct coord as [| | | |b [|]]; cbn; auto.
Qed.

(** Before the click step is reached no strategy has been tried. *)
Lemma postTweetWithButton_not_reached pg text e :
  result (reachButton pg text) = Throw e ->
  strategies (events (postTweetWithButton pg text)) = [] /\
  result (postTweetWithButton pg text) = Ok false.
Proof.
  intros Hr. unfold postTweetWithButton, strategies. split.
  - rewrite project_try_catch, project_bind, result_bind, Hr.
    rewrite (reachButton_silent_strategies pg text).
    destruct (s_screenshotOk pg); reflexivity.
  - rewrite result_try_catch, result_bind, Hr.
    destruct (s_screenshotOk pg); reflexivity.
Qed.

Lemma afterClick_spec pg :
  result (afterClick pg) = Ok true /\
  silent strategyOf (afterClick pg) /\
  (result (verifyTweetPosted (s_verify pg)) = Ok false ->
   In VerificationInconclusive (events (afterClick pg))).
Proof.
  destruct (verifyTweetPosted_returns (s_verify pg)) as [v Hv].
  unfold afterClick. repeat split.
  - eff. rewrite Hv. destruct v; reflexivity.
  - pose proof (verifyTweetPosted_silent_strategies (s_verify pg)). silence.
  - intros Hf. rewrite Hv in Hf. injection Hf as ->.
    eff. rewrite Hv. eff. rewrite !in_app_iff. cbn [In]. right. right. left. left. reflexivity.
Qed.

Lemma findTextarea_no_mouse_click pg selectors i :
  silent mouseClickOf (findTextarea pg selectors i).
Proof.
  revert i; induction selectors as [|sel rest IH]; intros i; cbn [findTextarea].
  - apply silent_ret.
  - silence.
Qed.

Lemma typeContent_no_mouse_click pg content i :
  silent mouseClickOf (typeContent pg content i).
Proof.
  revert i; induction content as [|c rest IH]; intros i; cbn [typeContent].
  - apply silent_ret.
  - silence.
Qed.

Lemma reachButton_no_mouse_click pg text :
  silent mouseClickOf (reachButton pg text).
Proof.
  pose proof findTextarea_no_mouse_click.
  pose proof typeContent_no_mouse_click.
  unfold reachButton, randomMouseMovement. silence.
Qed.

Lemma afterClick_no_mouse_click pg : silent mouseClickOf (afterClick pg).
Proof. unfold afterClick, verifyTweetPosted. silence. Qed.

(** The click step clicks with the mouse only in its third strategy,
    once, at the centre of the box of the button. *)
Lemma clickPostButton_mouse_clicks pg :
  flat_map mouseClickOf (events (clickPostButton pg)) =
  if s_nativeOk pg || s_evaluateOk pg then []
  else match s_coordinate pg with
       | HasBox b _ => [(bx b + width b / 2, by_ b + height b / 2)%Q]
       | _ => []
       end.
Proof.
  unfold clickPostButton, coordinateClick.
  destruct pg as [? ? ? ? ? ? ? ? nat_ok eval_ok coord ? ?]; cbn.
  destruct nat_ok, eval_ok; cbn; auto.
  destruct coord as [| | | |b [|]]; cbn; auto.
Qed.

(** C5.  Once the Post button is found, the click strategies are tried
    in the order native click, injected click, coordinate click, up to
    and including the first that does not raise, and no other.  The
    mouse is clicked only by the third strategy, once, at the centre of
    the bounding box of the button.  The submit returns [true] exactly
    when one of the strategies clicked: the native or the injected
    click did not raise, or the coordinate click found the box and its
    mouse click resolved; when none of the three clicks, the submit
    returns [false]. *)
Theorem postTweetWithButton_click_strategies :
  forall pg text,
    result (reachButton pg text) = Ok tt ->
    strategies (events (postTweetWithButton pg text)) = firstNotRaising pg /\
    flat_map mouseClickOf (events (postTweetWithButton pg text)) =
      (if s_nativeOk pg || s_evaluateOk pg then []
       else match s_coordinate pg with
            | HasBox b _ => [(bx b + width b / 2, by_ b + height b / 2)%Q]
            | _ => []
            end) /\
    result (postTweetWithButton pg text) =
      Ok (s_nativeOk pg || s_evaluateOk pg
          || coordinateClicks (s_coordinate pg)) /\
    (s_nativeOk pg = false -> s_evaluateOk pg = false ->
     coordinateClicks (s_coordinate pg) = false ->
     result (postTweetWithButton pg text) = Ok false).
Proof.
  intros pg text Hr.
  destruct (clickPostButton_spec pg) as [Hs Hc].
  destruct (afterClick_spec pg) as (Ha & Hq & _).
  pose proof (clickPostButton_mouse_clicks pg) as Hm.
  assert (Hres : result (postTweetWithButton pg text) =
                 Ok (s_nativeOk pg || s_evaluateOk pg
                     || coordinateClicks (s_coordinate pg))).
  { unfold postTweetWithButton. fold (afterClick pg).
    rewrite result_try_catch, !result_bind, Hr, Hc.
    destruct (s_nativeOk pg || s_evaluateOk pg
              || coordinateClicks (s_coordinate pg)); cbn [negb].
    - now rewrite Ha.
    - destruct (s_screenshotOk pg); reflexivity. }
  split; [|split; [|split]].
  - unfold postTweetWithButton. fold (afterClick pg). unfold strategies in *.
    rewrite project_try_catch, project_bind, Hr, project_bind.
    rewrite (reachButton_silent_strategies pg text), Hs.
    rewrite !result_bind, Hr, Hc.
    destruct (s_nativeOk pg || s_evaluateOk pg
              || coordinateClicks (s_coordinate pg)); cbn [negb].
    + rewrite Hq, Ha. now rewrite !app_nil_r.
    + destruct (s_screenshotOk pg); cbn -[firstNotRaising];
        now rewrite !app_nil_r.
  - unfold postTweetWithButton. fold (afterClick pg).
    rewrite project_try_catch, project_bind, Hr, project_bind.
    rewrite (reachButton_no_mouse_click pg text), Hm.
    rewrite !result_bind, Hr, Hc.
    destruct (s_nativeOk pg || s_evaluateOk pg
              || coordinateClicks (s_coordinate pg)); cbn [negb].
    + rewrite (afterClick_no_mouse_click pg), Ha. cbn [app].
      now rewrite !app_nil_r.
    + destruct (s_screenshotOk pg); cbn [app result events flat_map fst snd
        throw ret bind try_catch call mouseClickOf];
        now rewrite ?app_nil_r.
  - exact Hres.
  - intros H1 H2 H3. rewrite Hres, H1, H2, H3. reflexivity.
Qed.

(** C2.  When the click step succeeds the submit returns [true],
    whatever the verification answers; a verification that answers
    [false] only leaves the warning behind. *)
Theorem postTweetWithButton_click_is_authoritative :
  forall pg text,
    result (reachButton pg text) = Ok tt ->
    result (clickPostButton pg) = Ok true ->
    result (postTweetWithButton pg text) = Ok true /\
    (result (verifyTweetPosted (s_verify pg)) = Ok false ->
     In VerificationInconclusive (events (postTweetWithButton pg text))).
Proof.
  intros pg text Hr Hc.
  destruct (afterClick_spec pg) as (Ha & _ & Hw).
  unfold postTweetWithButton. fold (afterClick pg). split.
  - rewrite result_try_catch, !result_bind, Hr, Hc. cbn [negb].
    now rewrite Ha.
  - intros Hf. specialize (Hw Hf).
    rewrite events_try_catch, events_bind, Hr, events_bind, Hc. cbn [negb].
    rewrite !in_app_iff. left. right. now right.
Qed.

Lemma postTweetWithButton_click_strategies_witness :
  strategies (events (postTweetWithButton coordinateClickPage (lit "hello"))) =
    [NativeClick; EvaluateClick; CoordinateClick] /\
  flat_map mouseClickOf
    (events (postTweetWithButton coordinateClickPage (lit "hello"))) =
    [(100 + 80 / 2, 200 + 40 / 2)%Q] /\
  result (postTweetWithButton coordinateClickPage (lit "hello")) = Ok true /\
  strategies (events (postTweetWithButton scriptClickPage (lit "hello"))) =
    [NativeClick; EvaluateClick].
Proof.
  destruct (postTweetWithButton_click_strategies coordinateClickPage
              (lit "hello") eq_refl) as (Hs & Hm & Hr & _).
  destruct (postTweetWithButton_click_strategies scriptClickPage
              (lit "hello") eq_refl) as (Hs' & _).
  split; [exact Hs|]. split; [exact Hm|]. split; [exact Hr|exact Hs'].
Defined.

Lemma postTweetWithButton_click_is_authoritative_witness :
  result (postTweetWithButton scriptClickPage (lit "hello")) = Ok true /\
  In VerificationInconclusive
    (events (postTweetWithButton scriptClickPage (lit "hello"))).
Proof.
  destruct (postTweetWithButton_click_is_authoritative scriptClickPage
              (lit "hello") eq_refl eq_refl) as [Hr Hw].
  split; [exact Hr|exact (Hw eq_refl)].
Defined.

(** The first posting script has the same asymmetry in
    [postTweetWithEnter]: once the shortcut step went through, the
    answer is [true] whatever the verification says. *)
Lemma postTweetWithEnter_shortcut_is_authoritative pg text :
  result (PostJs.reachShortcut pg text) = Ok tt ->
  result (PostJs.pressCtrlEnter pg) = Ok tt ->
  result (PostJs.postTweetWithEnter pg text) = Ok true.
Proof.
  intros Hr Hp. unfold PostJs.postTweetWithEnter.
  rewrite result_try_catch, !result_bind, Hr, Hp, result_emit.
  assert (Hv : exists v, result (PostJs.verifyTweetPosted (PostJs.e_verify pg)) = Ok v).
  { apply try_catch_total. intros; now exists false. }
  destruct Hv as [v ->]. now destruct v.
Qed.

End SubmitFacts.

(** ** The content generator *)

Module GeneratorFacts.
Import JS AutoPost Samples.

Lemma truncate_length content : len (truncate content) <= 280.
Proof.
  unfold truncate, len, substring0.
  destruct (280 <? length content) eqn:H.
  - apply Nat.ltb_lt in H.
    rewrite length_app, firstn_length_le by lia.
    change (length (lit "...")) with 3. lia.
  - apply Nat.ltb_ge in H. exact H.
Qed.

Lemma truncate_long content :
  280 < len content ->
  truncate content = substring0 277 content ++ lit "...".
Proof.
  unfold truncate. intros H. apply Nat.ltb_lt in H. now rewrite H.
Qed.

Lemma truncate_short content :
  len content <= 280 -> truncate content = content.
Proof.
  unfold truncate. intros H. apply Nat.ltb_ge in H. now rewrite H.
Qed.

(** The generator answers a post exactly when the service answered a
    text; it never throws. *)
Lemma generatePostWithOpenRouter_result response trend :
  result (generatePostWithOpenRouter response trend) =
  Ok match response with
     | ApiContent raw =>
         Some (mkPostData (postOfRaw raw) (topic trend) (context trend)
                 (tweetCount trend))
     | _ => None
     end.
Proof. destruct response; reflexivity. Qed.

(** Whatever the service answers, a generated post has at most 280
    code units. *)
Lemma generatePostWithOpenRouter_length response trend pd :
  result (generatePostWithOpenRouter response trend) = Ok (Some pd) ->
  len (post pd) <= 280.
Proof.
  rewrite generatePostWithOpenRouter_result.
  destruct response; try discriminate.
  intros [= <-]. apply truncate_length.
Qed.

Lemma commentOfRaw_length raw : len (LoginX.commentOfRaw raw) <= 280.
Proof. apply truncate_length. Qed.

Lemma postJs_postOfRaw_length raw : len (PostJs.postOfRaw raw) <= 280.
Proof. apply truncate_length. Qed.

(** C3, as stated, fails: the raw text is trimmed before it is measured
    and cut.  With a leading space the post is not made of the first
    277 code units of the raw text (quote-stripped or not); with
    trailing spaces a raw text longer than 280 is not cut at all. *)
Lemma postOfRaw_not_prefix_of_raw :
  280 < len (stripQuotes paddedRaw) /\
  postOfRaw paddedRaw <> substring0 277 paddedRaw ++ lit "..." /\
  postOfRaw paddedRaw <> substring0 277 (stripQuotes paddedRaw) ++ lit "..." /\
  280 < len (stripQuotes trailingRaw) /\
  postOfRaw trailingRaw = repeat 120%N 279.
Proof.
  repeat split; try (vm_compute; lia); try (vm_compute; discriminate).
Qed.

(** C3, amended.  For every raw text of the response the post has at
    most 280 code units; whenever the trimmed, quote-stripped text
    exceeds 280, the post is exactly its first 277 code units followed
    by the three dots; otherwise the post is that text itself. *)
Theorem postOfRaw_truncates :
  forall raw,
    let content := stripQuotes (trim raw) in
    len (postOfRaw raw) <= 280 /\
    (280 < len content -> postOfRaw raw = substring0 277 content ++ lit "...") /\
    (len content <= 280 -> postOfRaw raw = content).
Proof.
  intros raw content. unfold postOfRaw. fold content. repeat split.
  - apply truncate_length.
  - apply truncate_long.
  - apply truncate_short.
Qed.

Lemma postOfRaw_truncates_witness :
  280 < len (stripQuotes (trim paddedRaw)) /\
  postOfRaw paddedRaw =
    substring0 277 (stripQuotes (trim paddedRaw)) ++ lit "...".
Proof.
  assert (H : 280 < len (stripQuotes (trim paddedRaw))) by (vm_compute; lia).
  split; [exact H|].
  exact (proj1 (proj2 (postOfRaw_truncates paddedRaw)) H).
Defined.

End GeneratorFacts.

(** ** The diversity guard *)

Module DiversityFacts.
Import JS AutoPost Samples.

Section Guard.
Variable toLowerCase : jsstring -> jsstring.
Variable compareTwoStrings : jsstring -> jsstring -> Q.

Let check := checkContentDiversity toLowerCase compareTwoStrings.
Let sim := similarity toLowerCase compareTwoStrings.

Lemma tooSimilar_iff d newPost :
  tooSimilar toLowerCase compareTwoStrings d newPost = true <->
  (CONFIG.similarityThreshold < sim d newPost)%Q.
Proof.
  unfold tooSimilar, sim. rewrite negb_true_iff.
  split.
  - intros H. apply Qnot_le_lt. intros Hle.
    apply Qle_bool_iff in Hle. congruence.
  - intros H. destruct (Qle_bool _ _) eqn:E; [|reflexivity].
    apply Qle_bool_iff in E. exfalso. eapply Qlt_not_le; eauto.
Qed.

Lemma compareAll_false recentPosts newPost :
  compareAll toLowerCase compareTwoStrings recentPosts newPost = false <->
  exists d, In d recentPosts /\ (CONFIG.similarityThreshold < sim d newPost)%Q.
Proof.
  induction recentPosts as [|d rest IH]; cbn [compareAll].
  - split; [discriminate|]. intros (d & [] & _).
  - destruct (tooSimilar toLowerCase compareTwoStrings d newPost) eqn:E.
    + split; [|reflexivity]. intros _. exists d. split; [now left|].
      now apply tooSimilar_iff.
    + rewrite IH. split.
      * intros (d' & Hin & Hs). exists d'. split; [now right|exact Hs].
      * intros (d' & [<-|Hin] & Hs).
        -- apply tooSimilar_iff in Hs. congruence.
        -- now exists d'.
Qed.

(** What the guard answers, by cases on the store. *)
Lemma checkContentDiversity_result dbUp store now newPost :
  result (check dbUp store now newPost) =
  Ok (if dbUp
      then compareAll toLowerCase compareTwoStrings
             (recentSuccessful store now) newPost
      else true).
Proof.
  unfold check, checkContentDiversity.
  destruct dbUp; [|reflexivity].
  destruct (recentSuccessful store now) as [|d rest]; reflexivity.
Qed.

(** C4.  The guard answers [true] when no successful entry of the last
    24 hours exists; [false] when some fetched entry is more similar to
    the candidate than the threshold 0.7, in particular when the
    candidate is identical to a fetched entry (a text compares to
    itself with score 1); and [true] when the lookup fails. *)
Theorem checkContentDiversity_guard :
  forall dbUp store now newPost,
    (List.filter (inWindow now) store = [] ->
     result (check dbUp store now newPost) = Ok true) /\
    (dbUp = true ->
     (exists d, In d (recentSuccessful store now) /\
                (CONFIG.similarityThreshold < sim d newPost)%Q) ->
     result (check dbUp store now newPost) = Ok false) /\
    (dbUp = true ->
     (forall s, compareTwoStrings s s == 1) ->
     (exists d, In d (recentSuccessful store now) /\ generatedPost d = newPost) ->
     result (check dbUp store now newPost) = Ok false) /\
    (dbUp = false -> result (check dbUp store now newPost) = Ok true).
Proof.
  intros dbUp store now newPost.
  rewrite checkContentDiversity_result. repeat split.
  - intros Hempty. unfold recentSuccessful. rewrite Hempty.
    now destruct dbUp.
  - intros -> Hex. f_equal. now apply compareAll_false.
  - intros -> Hrefl (d & Hin & Heq). f_equal. apply compareAll_false.
    exists d. split; [exact Hin|].
    unfold sim, similarity. rewrite Heq, Hrefl. reflexivity.
  - now intros ->.
Qed.

End Guard.

Lemma streq_refl s : streq s s = true.
Proof. induction s as [|c s IH]; cbn; [reflexivity|]. now rewrite N.eqb_refl. Qed.

Lemma checkContentDiversity_guard_witness :
  result (checkContentDiversity asciiLower sameOrNot true sampleStore
            100000000 (lit "Big day for the league")) = Ok false.
Proof.
  apply (checkContentDiversity_guard asciiLower sameOrNot true sampleStore
           100000000 (lit "Big day for the league")).
  - reflexivity.
  - intros s. unfold sameOrNot. now rewrite streq_refl.
  - exists (mkContentLogDoc (lit "Big day for the league") 90000000 true).
    split; [vm_compute; tauto|reflexivity].
Defined.

End DiversityFacts.

(** ** Session cookies *)

Module SessionFacts.
Import JS Session SessionObserve Samples.

Lemma present_inv x : present x = true -> exists s, x = Some s /\ s <> [].
Proof.
  destruct x as [[|c s]|]; cbn; try discriminate.
  intros _. eexists; split; [reflexivity|discriminate].
Qed.

Lemma keptExpires_spec x e :
  keptExpires x = Some e <-> x = Some e /\ (0 < e)%Q.
Proof.
  unfold keptExpires. destruct x as [q|]; [|split; [discriminate|intros [? _]; discriminate]].
  destruct (Qle_bool q 0) eqn:Hle; rewrite ?andb_false_r; cbn [negb andb].
  - split; [discriminate|]. intros [[= ->] Hpos].
    apply Qle_bool_iff in Hle. exfalso. eapply Qlt_not_le; eauto.
  - assert (Hpos : (0 < q)%Q).
    { apply Qnot_le_lt. intros H. apply Qle_bool_iff in H. congruence. }
    assert (Hne : Qeq_bool q 0 = false).
    { destruct (Qeq_bool q 0) eqn:E; [|reflexivity].
      apply Qeq_bool_iff in E. rewrite E in Hpos. now apply Qlt_irrefl in Hpos. }
    rewrite Hne. cbn [negb andb]. split.
    + intros [= <-]. now split.
    + intros [[= <-] _]. reflexivity.
Qed.

Lemma orStr_given x d p : x = Some p -> p <> [] -> orStr x d = p.
Proof. intros -> Hp. destruct p; [congruence|reflexivity]. Qed.

Lemma orStr_default x d : x = None \/ x = Some [] -> orStr x d = d.
Proof. intros [->| ->]; reflexivity. Qed.

Lemma clean_Cleaned src : keep src = true -> Cleaned src (clean src).
Proof.
  unfold keep. rewrite !andb_true_iff. intros [[Hn Hv] Hd].
  apply present_inv in Hn as (n & Hn & Hn').
  apply present_inv in Hv as (v & Hv & Hv').
  apply present_inv in Hd as (d & Hd & Hd').
  constructor; cbn [clean c_name c_value c_domain c_path c_httpOnly c_secure
                      c_sameSite c_expires].
  - eauto.
  - eauto.
  - eauto.
  - apply orStr_given.
  - apply orStr_default.
  - reflexivity.
  - reflexivity.
  - apply orStr_given.
  - apply orStr_default.
  - apply keptExpires_spec.
Qed.

(** Every cleaned cookie comes from a cookie of the source that has a
    name, a value and a domain. *)
Lemma cleanCookies_Cleaned cookies c :
  In c (cleanCookies cookies) ->
  exists src, In src cookies /\ Cleaned src c.
Proof.
  unfold cleanCookies. rewrite in_map_iff. intros (src & <- & Hin).
  apply filter_In in Hin as [Hin Hk].
  exists src. split; [exact Hin|now apply clean_Cleaned].
Qed.

Lemma applySessionCookies_applied pg sd cs :
  In cs (flat_map appliedBy (events (AutoPost.applySessionCookies pg sd))) ->
  cs = cleanCookies (cookies sd).
Proof.
  unfold AutoPost.applySessionCookies.
  destruct pg as [[|] [|] [|]];
    destruct (0 <? length (cleanCookies (cookies sd)));
    destruct (0 <? length (localStorage sd)); cbn;
    intuition congruence.
Qed.

Lemma extractAndSaveSession_applied pg email cs :
  In cs (flat_map appliedBy (events (AutoPost.extractAndSaveSession pg email))) ->
  exists raw, AutoPost.ep_cookies pg = Ok raw /\ cs = cleanCookies raw.
Proof.
  unfold AutoPost.extractAndSaveSession, AutoPost.saveSessionToDB.
  destruct pg as [[raw|] [ls|] [ss|] [|]]; cbn; intuition eauto.
Qed.

Lemma bot_applySessionCookies_applied pg sd cs :
  In cs (flat_map appliedByBot (events (LoginX.applySessionCookies pg sd))) ->
  cs = cleanCookies (cookies sd).
Proof.
  unfold LoginX.applySessionCookies.
  destruct pg as [[|] [|] [|] [|]];
    destruct (0 <? length (cleanCookies (cookies sd)));
    destruct (0 <? length (localStorage sd));
    destruct (0 <? length (sessionStorage sd)); cbn;
    intuition congruence.
Qed.

Lemma bot_extractAndSaveSession_applied pg email cs :
  In cs (flat_map appliedByBot (events (LoginX.extractAndSaveSession pg email))) ->
  exists raw, LoginX.ep_cookies pg = Ok raw /\ cs = cleanCookies raw.
Proof.
  unfold LoginX.extractAndSaveSession, LoginX.saveSessionToDB.
  destruct pg as [[raw|] [ls|] [ss|] [|]]; cbn; intuition eauto.
Qed.

(** C10.  Every cookie applied to the browser by [applySessionCookies]
    and every cookie persisted by [extractAndSaveSession], in the
    posting pipeline and in the engagement bot, comes from a source
    cookie with a non-empty name, value and domain, which it keeps; its
    path defaults to the slash, [httpOnly] and [secure] to [false],
    [sameSite] to Lax; it has an [expires] exactly when the source has
    one that is strictly positive. *)
Theorem applied_cookies_are_clean :
  forall c cs,
    In c cs ->
    (forall pg sd,
       In cs (flat_map appliedBy (events (AutoPost.applySessionCookies pg sd))) ->
       exists src, In src (cookies sd) /\ Cleaned src c) /\
    (forall pg email,
       In cs (flat_map appliedBy (events (AutoPost.extractAndSaveSession pg email))) ->
       exists raw src, AutoPost.ep_cookies pg = Ok raw /\ In src raw /\ Cleaned src c) /\
    (forall pg sd,
       In cs (flat_map appliedByBot (events (LoginX.applySessionCookies pg sd))) ->
       exists src, In src (cookies sd) /\ Cleaned src c) /\
    (forall pg email,
       In cs (flat_map appliedByBot (events (LoginX.extractAndSaveSession pg email))) ->
       exists raw src, LoginX.ep_cookies pg = Ok raw /\ In src raw /\ Cleaned src c).
Proof.
  intros c cs Hc. repeat split.
  - intros pg sd H. apply applySessionCookies_applied in H. subst cs.
    now apply cleanCookies_Cleaned.
  - intros pg email H.
    apply extractAndSaveSession_applied in H as (raw & Hraw & ->).
    apply cleanCookies_Cleaned in Hc as (src & Hin & Hcl). eauto.
  - intros pg sd H. apply bot_applySessionCookies_applied in H. subst cs.
    now apply cleanCookies_Cleaned.
  - intros pg email H.
    apply bot_extractAndSaveSession_applied in H as (raw & Hraw & ->).
    apply cleanCookies_Cleaned in Hc as (src & Hin & Hcl). eauto.
Qed.

Lemma applied_cookies_are_clean_witness :
  exists src,
    In src sampleCookies /\
    Cleaned src (mkCleanCookie (Some (lit "auth_token")) (Some (lit "abc"))
                   (Some (lit ".twitter.com")) (lit "/") false true (lit "Lax")
                   None).
Proof.
  refine (proj1 (applied_cookies_are_clean _ (cleanCookies sampleCookies) _)
            (AutoPost.mkCookiePage true true true) sampleSession _).
  - vm_compute. left. reflexivity.
  - vm_compute. left. reflexivity.
Defined.

End SessionFacts.

(** ** Trend discovery *)

Module TrendFacts.
Import JS AutoPost Observe.

Section Dedup.
Variable toLowerCase : jsstring -> jsstring.

Abbreviation key := (topicKey toLowerCase).
Abbreviation uniqueFrom := (uniqueFrom toLowerCase).

(** A trend is kept only if its key was not seen, and it is one of the
    topics. *)
Lemma uniqueFrom_in seen topics t :
  In t (uniqueFrom seen topics) -> (key t ∉ seen) /\ In t topics.
Proof.
  revert seen; induction topics as [|a rest IH]; intros seen;
    cbn [AutoPost.uniqueFrom In]; [tauto|].
  destruct (decide (key a ∈ seen)) as [Hs|Hs].
  - intros H. apply IH in H as [H1 H2]. auto.
  - intros [<-|H]; [auto|].
    apply IH in H as [H1 H2]. split; [|auto].
    intros Hin. apply H1, elem_of_union. now right.
Qed.

Lemma uniqueFrom_NoDup seen topics :
  List.NoDup (map key (uniqueFrom seen topics)).
Proof.
  revert seen; induction topics as [|a rest IH]; intros seen;
    cbn [AutoPost.uniqueFrom map]; [constructor|].
  destruct (decide (key a ∈ seen)) as [Hs|Hs]; [apply IH|].
  cbn [map]. constructor; [|apply IH].
  rewrite in_map_iff. intros (t & Hk & Hin).
  apply uniqueFrom_in in Hin as [Hn _]. rewrite Hk in Hn.
  apply Hn, elem_of_union. left. now apply elem_of_singleton.
Qed.

(** The trend kept for a key is the first of the topics with that key. *)
Lemma uniqueFrom_first seen topics t :
  In t (uniqueFrom seen topics) ->
  exists l1 l2, topics = l1 ++ t :: l2 /\ ~ In (key t) (map key l1).
Proof.
  revert seen; induction topics as [|a rest IH]; intros seen;
    cbn [AutoPost.uniqueFrom In]; [tauto|].
  destruct (decide (key a ∈ seen)) as [Hs|Hs].
  - intros H. pose proof (uniqueFrom_in _ _ _ H) as [Hn _].
    apply IH in H as (l1 & l2 & -> & Hfirst).
    exists (a :: l1), l2. split; [reflexivity|].
    cbn [map In]. intros [Heq|Hin]; [|auto]. rewrite Heq in Hs. auto.
  - intros [<-|H].
    + exists [], rest. split; [reflexivity|cbn; tauto].
    + pose proof (uniqueFrom_in _ _ _ H) as [Hn _].
      apply IH in H as (l1 & l2 & -> & Hfirst).
      exists (a :: l1), l2. split; [reflexivity|].
      cbn [map In]. intros [Heq|Hin]; [|auto]. rewrite <- Heq in Hn.
      apply Hn, elem_of_union. left. now apply elem_of_singleton.
Qed.

(** No key of the topics is lost. *)
Lemma uniqueFrom_complete seen topics t :
  In t topics -> key t ∉ seen ->
  In (key t) (map key (uniqueFrom seen topics)).
Proof.
  revert seen; induction topics as [|a rest IH]; intros seen;
    cbn [AutoPost.uniqueFrom In]; [tauto|].
  intros [->|Hin] Hn.
  - destruct (decide (key t ∈ seen)); [contradiction|now left].
  - destruct (decide (key a ∈ seen)) as [Hs|Hs]; [now apply IH|].
    cbn [map In]. destruct (decide (key a = key t)) as [Heq|Hne]; [now left|].
    right. apply IH; [exact Hin|].
    rewrite elem_of_union, elem_of_singleton. intros [?|?]; auto.
Qed.

Lemma firstn_incl {A} n (l : list A) x : In x (firstn n l) -> In x l.
Proof.
  intros H. rewrite <- (firstn_skipn n l). apply in_or_app. now left.
Qed.

Lemma firstn_NoDup {A} n (l : list A) :
  List.NoDup l -> List.NoDup (firstn n l).
Proof.
  intros H. rewrite <- (firstn_skipn n l) in H.
  now apply NoDup_app_remove_r in H.
Qed.

Lemma getTrendingTopicsWithContext_result pg :
  result (getTrendingTopicsWithContext toLowerCase pg) =
  Ok (if pageOk pg
      then firstn CONFIG.maxTrends
             (uniqueTopics toLowerCase (parseAll (tp_elements pg)))
      else []).
Proof.
  unfold getTrendingTopicsWithContext, pageOk.
  destruct pg as [g s x els];
    cbn [scrollTrending tp_gotoOk tp_scrollOk tp_extractOk tp_elements].
  destruct g; [|reflexivity].
  destruct (s 0); [|reflexivity].
  destruct (s 1); [|reflexivity].
  destruct (s 2); [|reflexivity].
  destruct x; reflexivity.
Qed.

(** C7.  Trend discovery always returns a list, of at most 15 trends,
    no two of which have the same lower-case topic; each is the first
    of the scraped topics with its lower-case topic; and the list is
    empty whenever the navigation, a scroll or the extraction fails.
    When they all resolve, the list is the first 15 of the scraped
    topics once the later occurrences of a lower-case topic are
    dropped: every scraped topic is represented by the first topic
    with its lower-case topic, and a page with a topic gives a list
    that is not empty. *)
Theorem getTrendingTopicsWithContext_contract :
  forall pg,
  exists trends,
    result (getTrendingTopicsWithContext toLowerCase pg) = Ok trends /\
    length trends <= 15 /\
    List.NoDup (map key trends) /\
    (forall t, In t trends ->
       exists l1 l2, parseAll (tp_elements pg) = l1 ++ t :: l2 /\
                     ~ In (key t) (map key l1)) /\
    (pageOk pg = false -> trends = []) /\
    (pageOk pg = true ->
       trends = firstn 15 (uniqueTopics toLowerCase (parseAll (tp_elements pg))) /\
       (forall t, In t (parseAll (tp_elements pg)) ->
          exists kept l1 l2,
            In kept (uniqueTopics toLowerCase (parseAll (tp_elements pg))) /\
            key kept = key t /\
            parseAll (tp_elements pg) = l1 ++ kept :: l2 /\
            ~ In (key kept) (map key l1)) /\
       (length (uniqueTopics toLowerCase (parseAll (tp_elements pg))) <= 15 ->
        forall t, In t (parseAll (tp_elements pg)) ->
                  In (key t) (map key trends)) /\
       (parseAll (tp_elements pg) <> [] -> trends <> [])).
Proof.
  intros pg. rewrite getTrendingTopicsWithContext_result.
  eexists; split; [reflexivity|].
  destruct (pageOk pg).
  - split; [apply firstn_le_length|].
    split; [rewrite <- firstn_map; apply firstn_NoDup, uniqueFrom_NoDup|].
    split.
    { intros t Hin. apply firstn_incl in Hin.
      now apply uniqueFrom_first in Hin. }
    split; [discriminate|]. intros _.
    assert (Hcomplete : forall t, In t (parseAll (tp_elements pg)) ->
              In (key t)
                 (map key (uniqueTopics toLowerCase (parseAll (tp_elements pg))))).
    { intros t Hin. apply uniqueFrom_complete; [exact Hin|].
      apply not_elem_of_empty. }
    split; [reflexivity|]. split; [|split].
    + intros t Hin. specialize (Hcomplete t Hin).
      apply in_map_iff in Hcomplete as (kept & Hk & Hkept).
      destruct (uniqueFrom_first _ _ _ Hkept) as (l1 & l2 & Hl & Hfirst).
      exists kept, l1, l2. auto.
    + intros Hlen t Hin. unfold CONFIG.maxTrends.
      rewrite firstn_all2 by exact Hlen. now apply Hcomplete.
    + intros Hne. destruct (parseAll (tp_elements pg)) as [|t rest] eqn:Ep;
        [congruence|].
      unfold uniqueTopics. cbn [AutoPost.uniqueFrom].
      destruct (decide (topicKey toLowerCase t ∈ (∅ : gset jsstring)))
        as [Hin|_]; [now apply not_elem_of_empty in Hin|].
      discriminate.
  - split; [cbn; lia|]. split; [constructor|].
    split; [intros t []|]. split; [reflexivity|discriminate].
Qed.

End Dedup.

Lemma getTrendingTopicsWithContext_contract_witness :
  exists trends,
    result (getTrendingTopicsWithContext Samples.asciiLower
              Samples.sampleTrendPage) = Ok trends /\
    map topic trends = [lit "Playoffs"; lit "Election"; lit "Weather"].
Proof.
  destruct (getTrendingTopicsWithContext_contract Samples.asciiLower
              Samples.sampleTrendPage)
    as (trends & Hr & _ & _ & _ & _ & Hok).
  exists trends. split; [exact Hr|].
  rewrite (proj1 (Hok eq_refl)). vm_compute. reflexivity.
Defined.

End TrendFacts.

(** ** The run controller *)

Module MainFacts.
Import JS AutoPost Observe Samples.

(** Whatever the submit operation does, the loop catches it. *)
Section Total.
Variable submit : nat -> M Event bool.
Variables (dbUp : bool) (md : jsstring) (sp : nat) (pd : PostData) (n : nat).

Lemma logFailedPost_returns msg :
  exists u, result (logFailedPost dbUp pd msg) = Ok u.
Proof. apply try_catch_total. intros; now exists tt. Qed.

Lemma retryAttempt_returns from :
  exists r, result (retryAttempt submit dbUp md sp pd n from) = Ok r.
Proof.
  unfold retryAttempt. rewrite result_bind, result_emit.
  apply try_catch_total. intros e.
  destruct (from =? n).
  - rewrite result_bind. destruct (logFailedPost_returns e) as [u ->].
    eexists; reflexivity.
  - eexists; reflexivity.
Qed.

Lemma retryLoop_returns todo from :
  exists b, result (retryLoop submit dbUp md sp pd n todo from) = Ok b.
Proof.
  revert from; induction todo as [|todo IH]; intros from; cbn [retryLoop].
  - now exists false.
  - rewrite result_bind.
    destruct (retryAttempt_returns from) as [[b|] ->]; [now exists b|apply IH].
Qed.

End Total.

Section Footprint.
Variable P : Event -> bool.
Hypothesis HP : forall e, isPlumbing e = true -> P e = true.

Lemma plumbing_outside e : isPlumbing e = true -> outside P e = [].
Proof. intros H. apply outside_nil, HP, H. Qed.

#[local] Hint Resolve plumbing_outside : core.

Lemma findTextarea_outside pg selectors i :
  silent (outside P) (findTextarea pg selectors i).
Proof.
  revert i; induction selectors as [|sel rest IH]; intros i;
    cbn [findTextarea]; silence.
Qed.

Lemma typeContent_outside pg content i :
  silent (outside P) (typeContent pg content i).
Proof.
  revert i; induction content as [|c rest IH]; intros i;
    cbn [typeContent]; silence.
Qed.

(** The submit operation causes plumbing events and one [PostTweet]. *)
Lemma postTweetWithButton_outside pg text :
  P (PostTweet text) = true ->
  silent (outside P) (postTweetWithButton pg text).
Proof.
  intros Ht. apply outside_nil in Ht.
  pose proof findTextarea_outside. pose proof typeContent_outside.
  unfold postTweetWithButton, reachButton, clickPostButton, coordinateClick,
    verifyTweetPosted, randomMouseMovement.
  silence.
Qed.

Section Loop.
Variable submit : nat -> M Event bool.
Hypothesis Hsubmit : forall attempt, silent (outside P) (submit attempt).
Variables (dbUp : bool) (md : jsstring) (sp : nat) (pd : PostData) (n : nat).

Lemma retryLoop_outside todo from :
  silent (outside P) (retryLoop submit dbUp md sp pd n todo from).
Proof.
  revert from; induction todo as [|todo IH]; intros from; cbn [retryLoop].
  - apply silent_ret.
  - unfold retryAttempt, logSuccessfulPost, logFailedPost, appendToCSV.
    silence.
Qed.

End Loop.

End Footprint.

Section Run.
Variable toLowerCase : jsstring -> jsstring.
Variable compareTwoStrings : jsstring -> jsstring -> Q.

Abbreviation main := (main toLowerCase compareTwoStrings).
Abbreviation cycle := (cycle toLowerCase compareTwoStrings).
Abbreviation prepare := (prepare toLowerCase).
Abbreviation guard := (checkContentDiversity toLowerCase compareTwoStrings).
Abbreviation select := (selectRandomTrend toLowerCase).

Lemma generate_events response t :
  events (generatePostWithOpenRouter response t) = [ApiPost (topic t)].
Proof. destruct response; reflexivity. Qed.

Lemma generate_result response t :
  result (generatePostWithOpenRouter response t) =
  Ok match response with ApiContent raw => Some (postOf raw t) | _ => None end.
Proof. destruct response; reflexivity. Qed.

Lemma guard_events dbUp store now p :
  events (guard dbUp store now p) = [ContentLogFind].
Proof.
  unfold checkContentDiversity. destruct dbUp; [|reflexivity].
  destruct (recentSuccessful store now); reflexivity.
Qed.

(** The guard never throws. *)
Lemma guard_returns dbUp store now p :
  exists b, result (guard dbUp store now p) = Ok b.
Proof.
  unfold checkContentDiversity. apply try_catch_total. intros; now exists true.
Qed.

Lemma postTweetWithButton_head pg text :
  exists rest, events (postTweetWithButton pg text) = PostTweet text :: rest.
Proof.
  unfold postTweetWithButton, reachButton.
  rewrite events_try_catch, events_bind, events_bind, events_emit.
  cbn [app]. eexists. reflexivity.
Qed.

(** The orchestrator starts with attempt 1 on the text of the post data
    it was given. *)
Lemma orchestrate_head w pd :
  exists rest,
    events (orchestrate w pd) =
    PostingAttempt 1 CONFIG.maxRetries :: PostTweet (post pd) :: rest.
Proof.
  unfold orchestrate, postTweetWithRetry, CONFIG.maxRetries.
  cbn [retryLoop]. unfold retryAttempt at 1.
  rewrite events_bind, events_bind, events_emit, result_emit.
  rewrite events_try_catch, events_bind.
  destruct (postTweetWithButton_head (w_submitPage w 1) (post pd)) as [rest ->].
  cbn [app]. eexists. reflexivity.
Qed.

(** The orchestrator causes plumbing events and [PostTweet] events for
    the text of its post data. *)
Lemma orchestrate_outside P w pd :
  (forall e, isPlumbing e = true -> P e = true) ->
  P (PostTweet (post pd)) = true ->
  silent (outside P) (orchestrate w pd).
Proof.
  intros HP Ht. unfold orchestrate, postTweetWithRetry.
  apply retryLoop_outside; [exact HP|].
  intros attempt. now apply postTweetWithButton_outside.
Qed.

(** With a draw in the range of [Math.random] a trend is selected. *)
Lemma randomIndex_range r n :
  (0 <= r)%Q -> (r < 1)%Q -> 0 < n ->
  (0 <= randomIndex r n < Z.of_nat n)%Z.
Proof.
  intros H0 H1 Hn. unfold randomIndex.
  set (q := inject_Z (Z.of_nat n)).
  assert (Hq : (0 < q)%Q).
  { unfold q. change 0%Q with (inject_Z 0). rewrite <- Zlt_Qlt. lia. }
  split.
  - change 0%Z with (Qfloor 0). apply Qfloor_resp_le.
    apply Qmult_le_0_compat; [exact H0|now apply Qlt_le_weak].
  - rewrite Zlt_Qlt. eapply Qle_lt_trans; [apply Qfloor_le|].
    fold q. rewrite <- (Qmult_1_l q) at 2.
    apply Qmult_lt_compat_r; assumption.
Qed.

Lemma index_defined {A} (l : list A) i :
  (0 <= i < Z.of_nat (length l))%Z -> exists x, index l i = Some x /\ In x l.
Proof.
  intros [H0 H1]. unfold index.
  destruct (i <? 0)%Z eqn:E; [apply Z.ltb_lt in E; lia|].
  destruct (nth_error l (Z.to_nat i)) as [x|] eqn:Hn.
  - exists x. split; [reflexivity|]. eapply nth_error_In; eauto.
  - apply nth_error_None in Hn. lia.
Qed.

Lemma selectRandomTrend_defined r trends usedTopics :
  (0 <= r)%Q -> (r < 1)%Q -> trends <> [] ->
  exists t, select r trends usedTopics = Some t /\ In t trends.
Proof.
  intros H0 H1 Hne. unfold selectRandomTrend.
  set (available := List.filter (unused toLowerCase usedTopics) trends).
  destruct (length available =? 0) eqn:E.
  - apply index_defined, randomIndex_range; auto.
    destruct trends; [congruence|cbn; lia].
  - apply Nat.eqb_neq in E.
    destruct (index_defined available (randomIndex r (length available)))
      as (t & Ht & Hin).
    { apply randomIndex_range; auto. lia. }
    exists t. split; [exact Ht|].
    unfold available in Hin. now apply filter_In in Hin.
Qed.

Section Projection.
Context {X : Type} (f : Event -> list X).
Hypothesis Hf : forall e, isCycleEvent e = false -> f e = [].

Lemma scrollTrending_quiet pg todo from : silent f (scrollTrending pg todo from).
Proof.
  revert from; induction todo as [|todo IH]; intros from; cbn [scrollTrending];
    silence.
Qed.

Lemma prepare_quiet w : silent f (prepare w).
Proof.
  pose proof scrollTrending_quiet.
  unfold AutoPost.prepare, launchBrowser, authenticate, freshLogin,
    applySessionCookies, extractAndSaveSession, saveSessionToDB,
    getTrendingTopicsWithContext.
  silence.
Qed.

Lemma reportError_quiet w msg : silent f (reportError w msg).
Proof. unfold reportError. silence. Qed.

Lemma shutdown_quiet w : silent f (shutdown w).
Proof. unfold shutdown. silence. Qed.

(** What [f] observes of a run is what it observes of STEPS 5 to 9. *)
Lemma main_project w :
  flat_map f (events (main w)) =
  if w_configOk w && w_mongoOk w then
    match result (prepare w) with
    | Ok trendingTopics => flat_map f (events (cycle w trendingTopics))
    | Throw _ => []
    end
  else [].
Proof.
  unfold AutoPost.main.
  destruct (w_configOk w); cbn [negb andb]; [|now rewrite events_emit; cbn; rewrite Hf].
  rewrite project_bind, events_emit, result_emit.
  rewrite project_bind, events_call, result_call.
  cbn [flat_map]. rewrite !Hf by reflexivity. cbn [app].
  destruct (w_mongoOk w); [|reflexivity].
  rewrite events_try_finally, flat_map_app, (shutdown_quiet w), app_nil_r.
  rewrite project_try_catch, project_bind, (prepare_quiet w). cbn [app].
  rewrite result_bind.
  destruct (result (prepare w)) as [trends|e].
  - rewrite project_bind, result_bind.
    destruct (result (cycle w trends)) as [b|e].
    + cbn. now rewrite !app_nil_r.
    + cbn [events ret fst flat_map]. rewrite (reportError_quiet w e).
      now rewrite !app_nil_r.
  - now rewrite (reportError_quiet w e).
Qed.

End Projection.

(** The events of a run that got past the configuration and the
    connection to the store. *)
Lemma main_events w :
  w_configOk w = true -> w_mongoOk w = true ->
  events (main w) =
  InitializeCSV :: ConnectMongo ::
  (events (prepare w) ++
   match result (prepare w) with
   | Ok trendingTopics =>
       events (cycle w trendingTopics) ++
       match result (cycle w trendingTopics) with
       | Ok _ => []
       | Throw e => events (reportError w e)
       end
   | Throw e => events (reportError w e)
   end) ++ events (shutdown w).
Proof.
  intros Hc Hm. unfold AutoPost.main. rewrite Hc. cbn [negb].
  rewrite events_bind, events_emit, result_emit.
  rewrite events_bind, events_call, result_call, Hm.
  rewrite events_try_finally, events_try_catch, events_bind, result_bind.
  cbn [app]. do 2 f_equal. f_equal.
  destruct (result (prepare w)) as [trends|e]; [|now rewrite app_nil_r].
  rewrite events_bind, result_bind.
  destruct (result (cycle w trends)) as [b|e];
    rewrite ?events_ret, ?result_ret, ?app_nil_r, <- ?app_assoc; reflexivity.
Qed.

Lemma prepare_nonempty w trends :
  result (prepare w) = Ok trends -> trends <> [].
Proof.
  unfold AutoPost.prepare. rewrite !result_bind.
  repeat match goal with
  | |- match ?r with Ok _ => _ | Throw e => Throw e end = _ -> _ =>
      destruct r as [?|?]; [|discriminate]
  end.
  match goal with
  | |- context [length ?l =? 0] =>
      destruct (length l =? 0) eqn:E; [discriminate|]
  end.
  intros [= <-] ->. discriminate E.
Qed.

(** The orchestrator never throws. *)
Lemma orchestrate_returns w pd : exists b, result (orchestrate w pd) = Ok b.
Proof. apply retryLoop_returns. Qed.

Section Cycle.
Variables (w : World) (trendingTopics : list Trend) (t : Trend).
Hypothesis Hselected : select (w_random w 0) trendingTopics [] = Some t.

(** STEP 7 answers [null]: the cycle throws right after the one call to
    the service. *)
Lemma cycle_generation_null :
  (forall raw, w_api w 0 <> ApiContent raw) ->
  events (cycle w trendingTopics) =
    [SelectTrend (topic t); SampleTweets (topic t); ApiPost (topic t)] /\
  result (cycle w trendingTopics) = Throw (lit "Could not generate post content").
Proof.
  intros Hnull. unfold AutoPost.cycle. rewrite Hselected.
  destruct (w_api w 0) eqn:E; try (now exfalso; eapply Hnull); split; reflexivity.
Qed.

(** STEP 7 answers a post and the guard accepts it. *)
Lemma cycle_accepted raw :
  w_api w 0 = ApiContent raw ->
  result (guard (w_dbUp w) (w_store w) (w_now w) (postOfRaw raw)) = Ok true ->
  events (cycle w trendingTopics) =
    [SelectTrend (topic t); SampleTweets (topic t); ApiPost (topic t);
     ContentLogFind] ++ events (orchestrate w (postOf raw t)) ++ [Sleep 30000].
Proof.
  intros Hapi Hg. unfold AutoPost.cycle. rewrite Hselected. cbn [selected].
  change (postOfRaw raw) with (post (postOf raw t)) in Hg.
  destruct (orchestrate_returns w (postOf raw t)) as [b Hb].
  unfold orchestrate in *.
  rewrite !events_bind, !result_bind, events_emit, events_ret, result_emit,
    result_ret.
  cbn [app]. rewrite events_bind, result_emit, events_emit.
  rewrite events_bind, generate_events, generate_result, Hapi.
  rewrite events_bind, guard_events, Hg.
  cbn [negb]. rewrite events_bind, events_ret, result_ret.
  rewrite events_bind, Hb, events_bind. cbn [app].
  reflexivity.
Qed.

(** STEP 7 answers a post, the guard rejects it and a new trend is
    selected: the post data that goes on is the new one when the second
    generation answers, the first one otherwise. *)
Lemma cycle_rejected raw t' :
  w_api w 0 = ApiContent raw ->
  result (guard (w_dbUp w) (w_store w) (w_now w) (postOfRaw raw)) = Ok false ->
  select (w_random w 1) trendingTopics [toLowerCase (topic t)] = Some t' ->
  events (cycle w trendingTopics) =
    [SelectTrend (topic t); SampleTweets (topic t); ApiPost (topic t);
     ContentLogFind; SelectTrend (topic t'); ApiPost (topic t')]
    ++ events (orchestrate w
                 match w_api w 1 with
                 | ApiContent raw' => postOf raw' t'
                 | _ => postOf raw t
                 end)
    ++ [Sleep 30000].
Proof.
  intros Hapi Hg Hsel'. unfold AutoPost.cycle. rewrite Hselected. cbn [selected].
  change (postOfRaw raw) with (post (postOf raw t)) in Hg.
  set (pd' := match w_api w 1 with
              | ApiContent raw' => postOf raw' t'
              | _ => postOf raw t
              end).
  destruct (orchestrate_returns w pd') as [b Hb].
  unfold orchestrate in *.
  rewrite !events_bind, !result_bind, events_emit, events_ret, result_emit,
    result_ret.
  cbn [app]. rewrite events_bind, result_emit, events_emit.
  rewrite events_bind, generate_events, generate_result, Hapi.
  rewrite events_bind, guard_events, Hg.
  cbn [negb]. unfold regenerate. rewrite Hsel'. cbn [selected].
  repeat progress
    (rewrite ?events_bind, ?result_bind, ?events_emit, ?events_ret,
       ?result_emit, ?result_ret, ?generate_events, ?generate_result;
     cbv beta iota).
  assert (Hpd : result match match w_api w 1 with
                             | ApiContent raw0 => Some (postOf raw0 t')
                             | _ => None
                             end with
                      | Some retried => ret retried
                      | None => @ret Event _ (postOf raw t)
                      end = Ok pd').
  { unfold pd'. destruct (w_api w 1); reflexivity. }
  assert (Hev : events match match w_api w 1 with
                             | ApiContent raw0 => Some (postOf raw0 t')
                             | _ => None
                             end with
                      | Some retried => ret retried
                      | None => @ret Event _ (postOf raw t)
                      end = []).
  { destruct (w_api w 1); reflexivity. }
  rewrite Hpd, Hev.
  rewrite events_bind, Hb, events_bind. cbn [app].
  reflexivity.
Qed.

End Cycle.

Lemma generationOf_cycleOnly e : isCycleEvent e = false -> generationOf e = [].
Proof. destruct e; cbn; congruence. Qed.

Lemma guardCallOf_cycleOnly e : isCycleEvent e = false -> guardCallOf e = [].
Proof. destruct e; cbn; congruence. Qed.

Lemma attemptOf_cycleOnly e : isCycleEvent e = false -> attemptOf e = [].
Proof. destruct e; cbn; congruence. Qed.

Lemma postedOf_cycleOnly e : isCycleEvent e = false -> postedOf e = [].
Proof. destruct e; cbn; congruence. Qed.

Lemma postsOnly_cycleOnly text e :
  isCycleEvent e = false -> outside (postsOnly text) e = [].
Proof. destruct e; cbn; congruence. Qed.

(** The orchestrator asks for no generation and no look-up. *)
Lemma orchestrate_no_generation w pd :
  silent generationOf (orchestrate w pd) /\ silent guardCallOf (orchestrate w pd).
Proof.
  assert (H : silent (outside notGeneration) (orchestrate w pd)).
  { apply orchestrate_outside; [|reflexivity]. now intros []. }
  split; (eapply silent_outside; [exact H|]); now intros [].
Qed.

(** STEP 7 answers [null]: one generation was asked, then the run goes
    to its [catch]; the guard is not asked and nothing is posted. *)
Lemma generation_null_aborts w trendingTopics :
  w_configOk w = true -> w_mongoOk w = true ->
  result (prepare w) = Ok trendingTopics ->
  (0 <= w_random w 0)%Q -> (w_random w 0 < 1)%Q ->
  (forall raw, w_api w 0 <> ApiContent raw) ->
  (exists t, In t trendingTopics /\
             flat_map generationOf (events (main w)) = [topic t]) /\
  flat_map guardCallOf (events (main w)) = [] /\
  flat_map attemptOf (events (main w)) = [] /\
  flat_map postedOf (events (main w)) = [] /\
  In (ErrorLogCreate (lit "CRITICAL_AUTOMATION_ERROR")
        (lit "Could not generate post content")) (events (main w)).
Proof.
  intros Hc Hm Hp H0 H1 Hnull.
  destruct (selectRandomTrend_defined (w_random w 0) trendingTopics [] H0 H1
              (prepare_nonempty _ _ Hp)) as (t & Hsel & Hin).
  destruct (cycle_generation_null w trendingTopics t Hsel Hnull) as [Hev Hres].
  rewrite !main_project
    by auto using generationOf_cycleOnly, guardCallOf_cycleOnly,
         attemptOf_cycleOnly, postedOf_cycleOnly.
  rewrite (main_events w Hc Hm), Hc, Hm, Hp, Hev, Hres. cbn [andb].
  repeat split; try reflexivity.
  - exists t. now split.
  - do 2 right. apply in_or_app. left. apply in_or_app. right.
    apply in_or_app. right. unfold reportError.
    rewrite events_try_catch, events_call. now left.
Qed.

(** Two generations in a run: the first one answered and the guard
    rejected its post. *)
Lemma second_generation_needs_rejection w :
  2 <= length (flat_map generationOf (events (main w))) ->
  exists trendingTopics t raw,
    result (prepare w) = Ok trendingTopics /\
    select (w_random w 0) trendingTopics [] = Some t /\
    w_api w 0 = ApiContent raw /\
    result (guard (w_dbUp w) (w_store w) (w_now w) (postOfRaw raw)) = Ok false.
Proof.
  rewrite main_project by apply generationOf_cycleOnly.
  destruct (w_configOk w && w_mongoOk w); [|cbn; lia].
  destruct (result (prepare w)) as [trends|e] eqn:Hp; [|cbn; lia].
  destruct (select (w_random w 0) trends []) as [t|] eqn:Hsel.
  2:{ unfold AutoPost.cycle. rewrite Hsel. cbn. lia. }
  destruct (w_api w 0) as [msg| | |raw] eqn:Hapi;
    try (destruct (cycle_generation_null w trends t Hsel) as [-> _];
         [rewrite Hapi; discriminate|cbn; lia]).
  destruct (guard_returns (w_dbUp w) (w_store w) (w_now w) (postOfRaw raw))
    as [[|] Hg].
  - rewrite (cycle_accepted w trends t Hsel raw Hapi Hg).
    rewrite !flat_map_app.
    rewrite (proj1 (orchestrate_no_generation w (postOf raw t))).
    cbn. lia.
  - intros _. exists trends, t, raw. auto.
Qed.

(** C8.  When the generation for the first selected topic returns
    [null], the run asks for exactly that one generation and aborts:
    the guard is not asked, nothing is submitted, whatever the number
    of topics left; and a second generation happens only after a first
    one that answered a post the guard rejected. *)
Theorem generation_failure_skips_diversity_path :
  forall w,
    (forall trendingTopics,
       w_configOk w = true -> w_mongoOk w = true ->
       result (prepare w) = Ok trendingTopics ->
       (0 <= w_random w 0)%Q -> (w_random w 0 < 1)%Q ->
       (forall raw, w_api w 0 <> ApiContent raw) ->
       (exists t, In t trendingTopics /\
                  flat_map generationOf (events (main w)) = [topic t]) /\
       flat_map guardCallOf (events (main w)) = [] /\
       flat_map attemptOf (events (main w)) = [] /\
       flat_map postedOf (events (main w)) = [] /\
       In (ErrorLogCreate (lit "CRITICAL_AUTOMATION_ERROR")
             (lit "Could not generate post content")) (events (main w))) /\
    (2 <= length (flat_map generationOf (events (main w))) ->
     exists trendingTopics t raw,
       result (prepare w) = Ok trendingTopics /\
       select (w_random w 0) trendingTopics [] = Some t /\
       w_api w 0 = ApiContent raw /\
       result (guard (w_dbUp w) (w_store w) (w_now w) (postOfRaw raw)) = Ok false).
Proof.
  intros w. split.
  - intros trendingTopics. apply generation_null_aborts.
  - apply second_generation_needs_rejection.
Qed.

Lemma in_attemptOf n m evs :
  In (n, m) (flat_map attemptOf evs) -> In (PostingAttempt n m) evs.
Proof.
  rewrite in_flat_map. intros (e & Hin & He).
  destruct e; cbn in He; try tauto.
  destruct He as [[= -> ->]|[]]. exact Hin.
Qed.

Lemma in_postedOf p evs :
  In p (flat_map postedOf evs) -> In (PostTweet p) evs.
Proof.
  rewrite in_flat_map. intros (e & Hin & He).
  destruct e; cbn in He; try tauto.
  destruct He as [->|[]]. exact Hin.
Qed.

(** C9.  When the guard rejects the generated post, the orchestrator
    is still invoked; and when the one re-generation returns [null],
    the text it submits is the rejected post, unchanged. *)
Theorem rejected_post_is_still_submitted :
  forall w trendingTopics raw,
    w_configOk w = true -> w_mongoOk w = true ->
    result (prepare w) = Ok trendingTopics ->
    (0 <= w_random w 0)%Q -> (w_random w 0 < 1)%Q ->
    (0 <= w_random w 1)%Q -> (w_random w 1 < 1)%Q ->
    w_api w 0 = ApiContent raw ->
    result (guard (w_dbUp w) (w_store w) (w_now w) (postOfRaw raw)) = Ok false ->
    In (PostingAttempt 1 CONFIG.maxRetries) (events (main w)) /\
    ((forall raw', w_api w 1 <> ApiContent raw') ->
     In (PostTweet (postOfRaw raw)) (events (main w)) /\
     forall p, In (PostTweet p) (events (main w)) -> p = postOfRaw raw).
Proof.
  intros w trends raw Hc Hm Hp H0 H1 H0' H1' Hapi Hg.
  pose proof (prepare_nonempty _ _ Hp) as Hne.
  destruct (selectRandomTrend_defined (w_random w 0) trends [] H0 H1 Hne)
    as (t & Hsel & _).
  destruct (selectRandomTrend_defined (w_random w 1) trends
              [toLowerCase (topic t)] H0' H1' Hne) as (t' & Hsel' & _).
  pose proof (cycle_rejected w trends t Hsel raw t' Hapi Hg Hsel') as Hev.
  set (pd' := match w_api w 1 with
              | ApiContent raw' => postOf raw' t'
              | _ => postOf raw t
              end) in Hev.
  destruct (orchestrate_head w pd') as [rest Hhead].
  split.
  - apply in_attemptOf.
    rewrite main_project by apply attemptOf_cycleOnly.
    rewrite Hc, Hm, Hp, Hev, Hhead. cbn. now left.
  - intros Hnull.
    assert (Hpd : pd' = postOf raw t).
    { unfold pd'. destruct (w_api w 1) eqn:E; try reflexivity.
      now exfalso; eapply Hnull. }
    rewrite Hpd in *. split.
    + apply in_postedOf.
      rewrite main_project by apply postedOf_cycleOnly.
      rewrite Hc, Hm, Hp, Hev, Hhead. cbn. now left.
    + intros p Hin.
      assert (Hall : flat_map (outside (postsOnly (postOfRaw raw)))
                       (events (main w)) = []).
      { rewrite main_project by apply postsOnly_cycleOnly.
        rewrite Hc, Hm, Hp, Hev. rewrite !flat_map_app.
        rewrite (orchestrate_outside (postsOnly (postOfRaw raw)) w (postOf raw t)).
        - reflexivity.
        - now intros [].
        - cbn. now apply bool_decide_eq_true. }
      pose proof (outside_all _ _ Hall _ Hin) as Hp'.
      cbn in Hp'. now apply bool_decide_eq_true in Hp'.
Qed.

End Run.

Lemma generation_failure_skips_diversity_path_witness :
  flat_map guardCallOf (events (main asciiLower sameOrNot nullWorld)) = [] /\
  flat_map attemptOf (events (main asciiLower sameOrNot nullWorld)) = [].
Proof.
  destruct (proj1 (generation_failure_skips_diversity_path asciiLower sameOrNot
                     nullWorld)
              (firstn 15 (uniqueTopics asciiLower (parseAll sampleElements))))
    as (_ & Hg & Ha & _).
  - reflexivity.
  - reflexivity.
  - vm_compute. reflexivity.
  - vm_compute. discriminate.
  - vm_compute. reflexivity.
  - intros raw. vm_compute. discriminate.
  - split; [exact Hg|exact Ha].
Defined.

Lemma rejected_post_is_still_submitted_witness :
  In (PostingAttempt 1 3) (events (main asciiLower sameOrNot rejectedWorld)) /\
  In (PostTweet (lit "Big day for the league"))
     (events (main asciiLower sameOrNot rejectedWorld)).
Proof.
  destruct (rejected_post_is_still_submitted asciiLower sameOrNot rejectedWorld
              (firstn 15 (uniqueTopics asciiLower (parseAll sampleElements)))
              (lit "Big day for the league")) as [Ha Hp].
  - reflexivity.
  - reflexivity.
  - vm_compute. reflexivity.
  - vm_compute. discriminate.
  - vm_compute. reflexivity.
  - vm_compute. discriminate.
  - vm_compute. reflexivity.
  - reflexivity.
  - vm_compute. reflexivity.
  - split; [exact Ha|].
    apply Hp. intros raw'. vm_compute. discriminate.
Defined.

End MainFacts.

(** ** The continuous loop *)

Module LoopFacts.
Import JS LoginX LoopObserve.

Lemma likeStep_returns a scrolls st : exists n, result (likeStep a scrolls st) = Ok n.
Proof. apply try_catch_total. intros; eexists; reflexivity. Qed.

Lemma commentStep_returns w a scrolls st :
  exists n, result (commentStep w a scrolls st) = Ok n.
Proof.
  unfold commentStep. destruct ((scrolls mod 20 =? 0) && w_apiKey w).
  - apply try_catch_total. intros; eexists; reflexivity.
  - eexists; reflexivity.
Qed.

Lemma notificationStep_returns w a scrolls :
  result (notificationStep w a scrolls) = Ok tt.
Proof.
  unfold notificationStep. destruct ((scrolls mod 50 =? 0) && w_apiKey w).
  - destruct (pa_notificationsOk a); reflexivity.
  - reflexivity.
Qed.

Lemma progressStep_returns scrolls tweets l c :
  result (progressStep scrolls tweets l c) = Ok tt.
Proof. unfold progressStep. destruct (scrolls mod 5 =? 0); reflexivity. Qed.

(** A pass goes through as soon as the scroll and the count resolve;
    it throws otherwise. *)
Lemma pass_returns w st c :
  pa_scrollOk (w_pass w (scrollAttempts st)) = true ->
  pa_tweets (w_pass w (scrollAttempts st)) = Ok c ->
  exists st', result (pass w st) = Ok st' /\
              scrollAttempts st' = S (scrollAttempts st).
Proof.
  intros Hs Ht. unfold pass.
  set (a := w_pass w (scrollAttempts st)) in *.
  destruct (likeStep_returns a (S (scrollAttempts st)) st) as [l Hl].
  destruct (commentStep_returns w a (S (scrollAttempts st)) st) as [k Hk].
  rewrite result_bind, result_call, Hs.
  rewrite result_bind, result_emit.
  rewrite result_bind, result_ask, Ht.
  rewrite result_bind, Hl, result_bind, Hk.
  rewrite result_bind, notificationStep_returns.
  rewrite result_bind, progressStep_returns.
  eexists; split; reflexivity.
Qed.

Lemma pass_throws w st :
  pa_scrollOk (w_pass w (scrollAttempts st)) = false \/
  (exists e, pa_tweets (w_pass w (scrollAttempts st)) = Throw e) ->
  exists e, result (pass w st) = Throw e.
Proof.
  intros H. unfold pass. rewrite result_bind, result_call.
  destruct (pa_scrollOk _); [|eexists; reflexivity].
  destruct H as [H|[e He]]; [discriminate|].
  rewrite result_bind, result_emit, result_bind, result_ask, He.
  eexists; reflexivity.
Qed.

Lemma scrollFeedFrom_runs w n st :
  (forall k, scrollAttempts st <= k < scrollAttempts st + n ->
     pa_scrollOk (w_pass w k) = true /\ exists c, pa_tweets (w_pass w k) = Ok c) ->
  exists st', result (scrollFeedFrom w n st) = Ok st' /\
              scrollAttempts st' = scrollAttempts st + n.
Proof.
  revert st; induction n as [|n IH]; intros st Hok; cbn [scrollFeedFrom].
  - exists st. split; [reflexivity|lia].
  - destruct (Hok (scrollAttempts st)) as (Hs & c & Ht); [lia|].
    destruct (pass_returns w st c Hs Ht) as (st1 & Hr & Hn).
    rewrite result_bind, Hr.
    destruct (IH st1) as (st' & Hr' & Hn').
    { intros k Hk. apply Hok. lia. }
    exists st'. split; [exact Hr'|lia].
Qed.

(** The loop does not read the cancellation signal. *)
Lemma scrollFeedFrom_blind apiKey page cancel cancel' n st :
  scrollFeedFrom (mkWorld apiKey page cancel) n st =
  scrollFeedFrom (mkWorld apiKey page cancel') n st.
Proof.
  revert st; induction n as [|n IH]; intros st; cbn [scrollFeedFrom];
    [reflexivity|].
  change (pass (mkWorld apiKey page cancel) st)
    with (pass (mkWorld apiKey page cancel') st).
  destruct (pass (mkWorld apiKey page cancel') st) as [t [st'|e]]; cbn;
    [now rewrite IH|reflexivity].
Qed.

(** C6, as stated, fails: the host asks for a stop before the first
    pass, and three passes later the loop is still scrolling. *)
Lemma scrollFeed_ignores_cancellation :
  w_cancelRequested cancelledWorld 0 = true /\
  (exists st, result (scrollFeed cancelledWorld 3) = Ok st /\
              scrollAttempts st = 3) /\
  ~ stopsWhenCancelled cancelledWorld.
Proof.
  split; [reflexivity|]. split.
  - eexists. split; reflexivity.
  - intros H.
    specialize (H 0 eq_refl 3 (mkCounters 3 0 0) eq_refl). cbn in H. lia.
Qed.

(** C6, amended.  The loop has no exit of its own and reads no
    cancellation signal: as long as the scroll and the tweet count of
    each pass resolve, after [n] passes it is about to start pass
    [n + 1]; what the host asks changes nothing of what it does. *)
Theorem scrollFeed_runs_until_page_fails :
  forall w n,
    (forall k, k < n ->
       pa_scrollOk (w_pass w k) = true /\
       exists c, pa_tweets (w_pass w k) = Ok c) ->
    (exists st, result (scrollFeed w n) = Ok st /\ scrollAttempts st = n) /\
    (forall cancel',
       scrollFeed (mkWorld (w_apiKey w) (w_pass w) cancel') n = scrollFeed w n).
Proof.
  intros w n Hok. split.
  - destruct (scrollFeedFrom_runs w n (mkCounters 0 0 0)) as (st & Hr & Hn).
    { intros k Hk. apply Hok. cbn in Hk. lia. }
    exists st. split; [exact Hr|exact Hn].
  - intros cancel'. destruct w as [apiKey page cancel].
    apply scrollFeedFrom_blind.
Qed.

Lemma scrollFeed_runs_until_page_fails_witness :
  exists st, result (scrollFeed cancelledWorld 3) = Ok st /\
             scrollAttempts st = 3.
Proof.
  refine (proj1 (scrollFeed_runs_until_page_fails cancelledWorld 3 _)).
  intros k _. split; [reflexivity|]. exists 10. reflexivity.
Defined.

(** The loop ends when the scroll or the count of a pass rejects: the
    rejection leaves [scrollFeed]. *)
Lemma scrollFeed_stops_on_page_error w st :
  pa_scrollOk (w_pass w (scrollAttempts st)) = false ->
  forall n, exists e, result (scrollFeedFrom w (S n) st) = Throw e.
Proof.
  intros Hs n. cbn [scrollFeedFrom]. rewrite result_bind.
  destruct (pass_throws w st (or_introl Hs)) as [e ->]. now exists e.
Qed.

End LoopFacts.

(** ** The CSV log *)

Module CsvFacts.
Import JS Csv Samples.

Lemma hasChar_false c s : hasChar c s = false -> ~ In c s.
Proof.
  unfold hasChar. intros H Hin.
  assert (existsb (N.eqb c) s = true).
  { apply existsb_exists. exists c. split; [exact Hin|apply N.eqb_refl]. }
  congruence.
Qed.

Lemma doubleQuotes_plain s : ~ In quote s -> doubleQuotes s = s.
Proof.
  induction s as [|c s IH]; cbn; [reflexivity|]. intros H.
  destruct (c =? quote)%N eqn:E.
  - apply N.eqb_eq in E. tauto.
  - cbn. f_equal. apply IH. tauto.
Qed.

(** A stretch without quotes, and without commas unless inside quotes,
    goes to the current value as it is. *)
Lemma parseFrom_plain s tail inQuotes cur :
  ~ In quote s -> (inQuotes = true \/ ~ In comma s) ->
  parseFrom (s ++ tail) inQuotes cur = parseFrom tail inQuotes (cur ++ s).
Proof.
  revert cur; induction s as [|c s IH]; intros cur Hq Hc; cbn [app parseFrom].
  - now rewrite app_nil_r.
  - assert (Eq : (c =? quote)%N = false).
    { apply N.eqb_neq. intros ->. apply Hq. now left. }
    assert (Ec : (c =? comma)%N && negb inQuotes = false).
    { destruct Hc as [->|Hc]; [apply andb_false_r|].
      apply andb_false_intro1, N.eqb_neq. intros ->. apply Hc. now left. }
    rewrite Eq, Ec, IH, <- app_assoc.
    + reflexivity.
    + intros H. apply Hq. now right.
    + destruct Hc as [Hc|Hc]; [now left|right]. intros H. apply Hc. now right.
Qed.

(** Inside quotes, the doubled text up to the closing quote gives the
    text back. *)
Lemma parseFrom_quoted s tail cur :
  cellEnd tail ->
  parseFrom (doubleQuotes s ++ quote :: tail) true cur =
  parseFrom tail false (cur ++ s).
Proof.
  intros Ht. revert cur; induction s as [|c s IH]; intros cur.
  - cbn. rewrite app_nil_r. destruct Ht as [->|[rest ->]]; reflexivity.
  - cbn [doubleQuotes flat_map]. fold (doubleQuotes s).
    destruct (c =? quote)%N eqn:E.
    + apply N.eqb_eq in E. subst c. cbn [app parseFrom].
      rewrite N.eqb_refl. rewrite IH, <- app_assoc. reflexivity.
    + cbn [app parseFrom]. rewrite E, andb_false_r.
      rewrite IH, <- app_assoc. reflexivity.
Qed.

(** One written cell, read back. *)
Lemma parseFrom_cell v tail cur :
  cellEnd tail ->
  parseFrom (escapeCSV v ++ tail) false cur =
  parseFrom tail false (cur ++ match v with Some s => s | None => [] end).
Proof.
  intros Ht. destruct v as [s|]; cbn [escapeCSV]; [|now rewrite app_nil_r].
  destruct (needsWrap s) eqn:E.
  - cbn [app parseFrom]. rewrite N.eqb_refl. cbn [negb].
    rewrite <- app_assoc. cbn [app]. now apply parseFrom_quoted.
  - unfold needsWrap in E. apply orb_false_elim in E as [E Hn].
    apply orb_false_elim in E as [Hc Hq].
    apply parseFrom_plain.
    + now apply hasChar_false.
    + right. now apply hasChar_false.
Qed.

(** X17.  What [escapeCSV] writes, [parseCSVLine] reads back: a row of
    at least one cell, each escaped and joined with commas, parses to
    the same cells, trimmed (a missing value reads as the empty
    string). *)
Theorem parseCSVLine_escapeCSV_roundtrip :
  forall cells,
    cells <> [] ->
    parseCSVLine (join (map escapeCSV cells)) =
    map (fun v => trim match v with Some s => s | None => [] end) cells.
Proof.
  unfold parseCSVLine. induction cells as [|v cells IH]; [congruence|].
  intros _. destruct cells as [|v' cells'].
  - cbn [map join]. rewrite <- (app_nil_r (escapeCSV v)).
    rewrite parseFrom_cell by now left. reflexivity.
  - change (join (map escapeCSV (v :: v' :: cells')))
      with (escapeCSV v ++ comma :: join (map escapeCSV (v' :: cells'))).
    rewrite parseFrom_cell by (right; eexists; reflexivity).
    cbn [parseFrom app]. change (comma =? quote)%N with false.
    rewrite N.eqb_refl. cbn [negb andb map].
    f_equal. apply IH. discriminate.
Qed.

Lemma parseCSVLine_escapeCSV_roundtrip_witness :
  parseCSVLine
    (join (map escapeCSV [Some (lit "Playoffs"); None;
                          Some (lit "Big day, they said"); Some (lit "Yes")])) =
  [lit "Playoffs"; []; lit "Big day, they said"; lit "Yes"].
Proof.
  rewrite parseCSVLine_escapeCSV_roundtrip by discriminate.
  vm_compute. reflexivity.
Defined.

(** X18.  The two writers agree: [escapeCsvCell] of the engagement bot
    returns what [escapeCSV] of the posting pipeline returns. *)
Theorem escapeCsvCell_agrees_with_escapeCSV :
  forall value, escapeCsvCell value = escapeCSV value.
Proof.
  intros [s|]; [|reflexivity]. cbn.
  destruct (needsWrap s) eqn:E; [reflexivity|].
  unfold needsWrap in E. apply orb_false_elim in E as [E _].
  apply orb_false_elim in E as [_ Hq].
  apply doubleQuotes_plain. now apply hasChar_false.
Qed.

(** *** Substrings *)

Lemma startsWith_iff p s : startsWith p s = true <-> exists b, s = p ++ b.
Proof.
  revert s; induction p as [|a p IH]; intros s; cbn.
  - split; [intros _; now exists s|reflexivity].
  - destruct s as [|c s]; [split; [discriminate|intros [b H]; discriminate]|].
    rewrite andb_true_iff, N.eqb_eq, IH. split.
    + intros [-> [b ->]]. now exists b.
    + intros [b [= -> ->]]. split; [reflexivity|now exists b].
Qed.

Lemma includes_iff p s :
  includes p s = true <-> exists a b, s = a ++ p ++ b.
Proof.
  induction s as [|c s IH]; cbn [includes]; rewrite orb_true_iff, startsWith_iff.
  - split.
    + intros [[b H]|H]; [|discriminate]. exists [], b. exact H.
    + intros (a & b & H). left. destruct a; [now exists b|discriminate].
  - rewrite IH. split.
    + intros [[b H]|(a & b & ->)]; [exists [], b; exact H|].
      now exists (c :: a), b.
    + intros ([|x a] & b & H); [left; now exists b|right].
      injection H as -> ->. now exists a, b.
Qed.

Lemma includes_middle p a b : includes p (a ++ p ++ b) = true.
Proof. apply includes_iff. now exists a, b. Qed.

Lemma includes_inside p x a b :
  includes p x = true -> includes p (a ++ x ++ b) = true.
Proof.
  rewrite !includes_iff. intros (a' & b' & ->).
  exists (a ++ a'), (b' ++ b). now rewrite <- !app_assoc.
Qed.

(** *** Rows *)

Lemma join_cons c cells :
  cells <> [] -> join (c :: cells) = c ++ comma :: join cells.
Proof. destruct cells; [congruence|reflexivity]. Qed.

Lemma doubleQuotes_app a b :
  doubleQuotes (a ++ b) = doubleQuotes a ++ doubleQuotes b.
Proof. apply flat_map_app. Qed.

(** The row, cut at the cell of the post and at the cell of the
    outcome. *)
Lemma csvRow_cut d :
  exists before after,
    csvRow d = before ++ escapeCSV (Some (d_postContent d)) ++ comma ::
               escapeCSV (Some (d_postLength d)) ++ comma ::
               (if d_success d then lit "Yes" else lit "No") ++ comma :: after.
Proof.
  unfold csvRow, cellsOf. cbn [map].
  rewrite !join_cons by discriminate.
  exists (escapeCSV (Some (isoTime d)) ++ comma ::
          escapeCSV (Some (localDate d)) ++ comma ::
          escapeCSV (Some (localTime d)) ++ comma ::
          escapeCSV (Some (d_trendingTopic d)) ++ comma ::
          escapeCSV (Some (d_trendContext d)) ++ comma ::
          escapeCSV (Some (d_tweetCount d)) ++ [comma]).
  eexists.
  rewrite <- !app_assoc. cbn [app].
  repeat (f_equal; try (rewrite <- !app_assoc; cbn [app])).
  destruct (d_success d); reflexivity.
Qed.

(** The row of a success holds the tested text, around its outcome
    cell. *)
Lemma csvRow_of_success d :
  d_success d = true -> includes yesCell (csvRow d) = true.
Proof.
  destruct (csvRow_cut d) as (before & after & ->). intros ->.
  replace (before ++ escapeCSV (Some (d_postContent d)) ++ comma ::
           escapeCSV (Some (d_postLength d)) ++ comma ::
           lit "Yes" ++ comma :: after)
    with ((before ++ escapeCSV (Some (d_postContent d)) ++ comma ::
           escapeCSV (Some (d_postLength d))) ++ yesCell ++ after).
  - apply includes_middle.
  - rewrite <- !app_assoc. cbn [app]. reflexivity.
Qed.

(** X19.  The test of [readCSVStats] on one row: the row of a success
    passes it, and so does any row whose post text itself contains the
    tested text, whether the post succeeded or not. *)
Theorem csvRow_counted_successful :
  forall d,
    (d_success d = true -> includes yesCell (csvRow d) = true) /\
    (includes yesCell (d_postContent d) = true ->
     includes yesCell (csvRow d) = true).
Proof.
  intros d. split; [apply csvRow_of_success|].
  destruct (csvRow_cut d) as (before & after & ->). intros H.
  apply (includes_inside yesCell (escapeCSV (Some (d_postContent d))) before).
  apply includes_iff in H as (a & b & Hc). rewrite Hc. cbn [escapeCSV].
  assert (Hw : needsWrap (a ++ yesCell ++ b) = true).
  { unfold needsWrap, hasChar. rewrite !existsb_app. cbn.
    now rewrite !orb_true_r. }
  rewrite Hw, !doubleQuotes_app.
  apply includes_iff. exists (quote :: doubleQuotes a), (doubleQuotes b ++ [quote]).
  cbn [app]. now rewrite <- !app_assoc.
Qed.

(** *** The whole file *)

Lemma trimStart_keeps c s :
  In c s -> isWhiteSpace c = false -> In c (trimStart s).
Proof.
  intros Hin Hc. induction s as [|x s IH]; [exact Hin|]. cbn [trimStart].
  destruct (isWhiteSpace x) eqn:E; [|exact Hin].
  destruct Hin as [->|Hin]; [congruence|now apply IH].
Qed.

Lemma nonBlank_of c s : In c s -> isWhiteSpace c = false -> nonBlank s = true.
Proof.
  intros Hin Hc. unfold nonBlank, trim, trimEnd.
  assert (H : In c (rev (trimStart (rev (trimStart s))))).
  { rewrite <- in_rev. apply trimStart_keeps; [|exact Hc].
    rewrite <- in_rev. now apply trimStart_keeps. }
  destruct (rev (trimStart (rev (trimStart s)))); [destruct H|reflexivity].
Qed.

Lemma csvRow_nonBlank d : nonBlank (csvRow d) = true.
Proof.
  destruct (csvRow_cut d) as (before & after & ->).
  apply (nonBlank_of comma); [|reflexivity].
  apply in_or_app. right. apply in_or_app. right. now left.
Qed.

Lemma in_doubleQuotes x s : In x (doubleQuotes s) -> x = quote \/ In x s.
Proof.
  unfold doubleQuotes. rewrite in_flat_map. intros (c & Hc & Hx).
  destruct (c =? quote)%N; cbn in Hx; intuition (subst; auto).
Qed.

Lemma in_escapeCSV x c : In x (escapeCSV (Some c)) -> x = quote \/ In x c.
Proof.
  cbn. destruct (needsWrap c); [|now right].
  cbn. rewrite in_app_iff. intros [<-|[H|[<-|[]]]]; auto.
  now apply in_doubleQuotes.
Qed.

Lemma in_join x cells :
  In x (join cells) -> x = comma \/ exists c, In c cells /\ In x c.
Proof.
  induction cells as [|c cells IH]; [intros []|].
  destruct cells as [|c' cells'].
  - cbn. intros H. right. exists c. split; [now left|exact H].
  - rewrite join_cons by discriminate. rewrite in_app_iff. cbn [In].
    intros [H|[<-|H]]; [right; exists c; split; [now left|exact H]|now left|].
    apply IH in H as [->|(c0 & Hc0 & Hx)]; [now left|].
    right. exists c0. split; [now right|exact Hx].
Qed.

Lemma csvRow_singleLine d : singleLine d -> ~ In newline (csvRow d).
Proof.
  intros Hd H. unfold csvRow in H.
  apply in_join in H as [H|(c & Hc & Hx)]; [discriminate|].
  apply in_map_iff in Hc as (c0 & <- & Hc0).
  apply in_escapeCSV in Hx as [Hx|Hx]; [discriminate|].
  exact (Hd c0 Hc0 Hx).
Qed.

Lemma splitFrom_line a rest cur :
  ~ In newline a ->
  splitFrom (a ++ newline :: rest) cur = (cur ++ a) :: splitFrom rest [].
Proof.
  revert cur; induction a as [|c a IH]; intros cur Ha; cbn [app splitFrom].
  - rewrite N.eqb_refl, app_nil_r. reflexivity.
  - assert (E : (c =? newline)%N = false).
    { apply N.eqb_neq. intros ->. apply Ha. now left. }
    rewrite E, IH, <- app_assoc; [reflexivity|].
    intros H. apply Ha. now right.
Qed.

Lemma splitFrom_rows ds :
  (forall d, In d ds -> singleLine d) ->
  splitFrom (flat_map (fun d => csvRow d ++ [newline]) ds) [] =
  map csvRow ds ++ [[]].
Proof.
  induction ds as [|d ds IH]; intros Hds; [reflexivity|].
  cbn [flat_map map]. rewrite <- app_assoc. cbn [app].
  rewrite splitFrom_line by (apply csvRow_singleLine, Hds; now left).
  cbn [app]. f_equal. apply IH. intros d' Hd'. apply Hds. now right.
Qed.

Lemma filter_nonBlank_rows ds :
  List.filter nonBlank (map csvRow ds ++ [[]]) = map csvRow ds.
Proof.
  induction ds as [|d ds IH]; [reflexivity|].
  cbn [map app List.filter]. now rewrite csvRow_nonBlank, IH.
Qed.

Lemma filter_length_le {A} (f : A -> bool) l :
  length (List.filter f l) <= length l.
Proof. induction l as [|a l IH]; cbn; [lia|]. destruct (f a); cbn; lia. Qed.

Lemma successes_counted ds :
  length (List.filter d_success ds) <=
  length (List.filter (includes yesCell) (map csvRow ds)).
Proof.
  induction ds as [|d ds IH]; [cbn; lia|]. cbn [List.filter map].
  destruct (d_success d) eqn:E.
  - rewrite (csvRow_of_success d E). cbn. lia.
  - destruct (includes yesCell (csvRow d)); cbn; lia.
Qed.

(** X20.  On the log as the pipeline writes it (a header line, then
    one row per post), and as long as no cell holds a newline,
    [readCSVStats] reports one post per row, counts every success as
    successful, and its two counts add up to the total. *)
Theorem readCSVStats_on_written_log :
  forall header ds,
    ~ In newline header -> nonBlank header = true ->
    (forall d, In d ds -> singleLine d) ->
    exists st,
      readCSVStats (Some (logFile header ds)) = Some st /\
      totalPosts st = length ds /\
      length (List.filter d_success ds) <= successfulPosts st /\
      successfulPosts st + failedPosts st = totalPosts st.
Proof.
  intros header ds Hh Hb Hds. unfold readCSVStats, logFile, splitLines.
  rewrite splitFrom_line by exact Hh. cbn [app List.filter].
  rewrite Hb, splitFrom_rows, filter_nonBlank_rows by exact Hds.
  cbn [length]. destruct ds as [|d ds'].
  - eexists. split; [reflexivity|]. cbn. lia.
  - set (ds := d :: ds') in *.
    replace (S (length (map csvRow ds)) <=? 1) with false
      by (symmetry; apply Nat.leb_gt; unfold ds; cbn; lia).
    eexists. split; [reflexivity|]. cbn [skipn totalPosts successfulPosts failedPosts].
    change (skipn 0 (map csvRow ds)) with (map csvRow ds).
    rewrite length_map.
    pose proof (successes_counted ds).
    pose proof (filter_length_le (includes yesCell) (map csvRow ds)) as Hle.
    rewrite length_map in Hle. repeat split; lia.
Qed.

Lemma readCSVStats_on_written_log_witness :
  exists st,
    readCSVStats (Some (logFile csvHeader [successRow; failureRow])) = Some st /\
    totalPosts st = 2 /\
    1 <= successfulPosts st /\
    successfulPosts st + failedPosts st = totalPosts st.
Proof.
  apply (readCSVStats_on_written_log csvHeader [successRow; failureRow]).
  - apply hasChar_false. vm_compute. reflexivity.
  - vm_compute. reflexivity.
  - intros d [<-|[<-|[]]] c Hc; apply hasChar_false;
      repeat (destruct Hc as [<-|Hc]; [vm_compute; reflexivity|]);
      destruct Hc.
Defined.

End CsvFacts.

(** ** The retry orchestrator, attempt by attempt *)

Module RetryMore.
Import JS AutoPost Observe Samples.

Section Outcomes.
Variable outcome : nat -> Res bool.
Variable dbUp : bool.
Variable md : jsstring.
Variable sp : nat.
Variable pd : PostData.
Variable n : nat.

Abbreviation loop := (retryLoop (submitOf (post pd) outcome) dbUp md sp pd n).
Abbreviation turn := (retryAttempt (submitOf (post pd) outcome) dbUp md sp pd n).

Lemma turn_false from :
  outcome from = Ok false ->
  turn from =
  ([PostingAttempt from n; PostTweet (post pd)]
     ++ (if from <? n then [HumanDelay 5000 10000] else []), Ok None).
Proof.
  intros H. unfold retryAttempt, submitOf. rewrite H.
  destruct (from <? n); reflexivity.
Qed.

Lemma turn_true from :
  outcome from = Ok true ->
  turn from =
  ([PostingAttempt from n; PostTweet (post pd);
    ContentLogCreate (successDoc pd md sp from)]
     ++ (if dbUp then [AppendToCSV (successDoc pd md sp from)] else []),
   Ok (Some true)).
Proof.
  intros H. unfold retryAttempt, submitOf, logSuccessfulPost. rewrite H.
  destruct dbUp; reflexivity.
Qed.

Lemma turn_throw from msg :
  outcome from = Throw msg ->
  turn from =
  if from =? n then
    ([PostingAttempt from n; PostTweet (post pd);
      ContentLogCreate (failureDoc pd)]
       ++ (if dbUp then [ErrorLogCreate (lit "POST_FAILED") msg;
                         AppendToCSV (failureDoc pd)]
           else []),
     Ok (Some false))
  else
    ([PostingAttempt from n; PostTweet (post pd); HumanDelay 3000 6000], Ok None).
Proof.
  intros H. unfold retryAttempt, submitOf, logFailedPost. rewrite H.
  destruct (from =? n), dbUp; reflexivity.
Qed.

Lemma loop_cons todo from :
  loop (S todo) from =
  bind (turn from) (fun r => match r with
                             | Some b => ret b
                             | None => loop todo (S from)
                             end).
Proof. reflexivity. Qed.

Lemma loop_first_success k todo from :
  from <= k -> k < from + todo -> k <= n ->
  (forall j, from <= j < k -> outcome j = Ok false) ->
  outcome k = Ok true ->
  result (loop todo from) = Ok true /\
  length (attempts (events (loop todo from))) = S (k - from) /\
  logEntries (events (loop todo from)) =
    [ContentLogCreate (successDoc pd md sp k)] /\
  length (List.filter isBackoff (events (loop todo from))) = k - from.
Proof.
  revert from; induction todo as [|todo IH]; intros from Hle Hlt Hn Hfalse Htrue;
    [lia|].
  rewrite loop_cons.
  destruct (Nat.eq_dec from k) as [->|Hne].
  - rewrite (turn_true k Htrue). replace (k - k) with 0 by lia.
    destruct dbUp; cbn; auto.
  - rewrite (turn_false from) by (apply Hfalse; lia).
    replace (from <? n) with true by (symmetry; apply Nat.ltb_lt; lia).
    destruct (IH (S from)) as (Hr & Ha & Hl & Hb);
      [lia|lia|lia|intros j Hj; apply Hfalse; lia|assumption|].
    unfold attempts, logEntries in *.
    rewrite events_bind, result_bind. cbn [result events fst snd].
    rewrite !List.filter_app, !length_app, Hr, Ha, Hl, Hb.
    cbn. repeat split; try lia.
Qed.

Lemma loop_last_throws msg todo from :
  1 <= todo -> from + todo = S n ->
  (forall j, from <= j < n -> outcome j = Ok false) ->
  outcome n = Throw msg ->
  result (loop todo from) = Ok false /\
  length (attempts (events (loop todo from))) = todo /\
  logEntries (events (loop todo from)) = [ContentLogCreate (failureDoc pd)] /\
  flat_map errorRecordOf (events (loop todo from)) =
    (if dbUp then [(lit "POST_FAILED", msg)] else []).
Proof.
  revert from; induction todo as [|todo IH]; intros from Hpos Hsum Hfalse Hthrow;
    [lia|].
  rewrite loop_cons.
  destruct (Nat.eq_dec from n) as [->|Hne].
  - rewrite (turn_throw n msg Hthrow), Nat.eqb_refl.
    assert (todo = 0) as -> by lia.
    destruct dbUp; cbn; auto.
  - rewrite (turn_false from) by (apply Hfalse; lia).
    replace (from <? n) with true by (symmetry; apply Nat.ltb_lt; lia).
    destruct (IH (S from)) as (Hr & Ha & Hl & He);
      [lia|lia|intros j Hj; apply Hfalse; lia|assumption|].
    unfold attempts, logEntries in *.
    rewrite events_bind, result_bind. cbn [result events fst snd].
    rewrite !List.filter_app, !flat_map_app, !length_app, Hr, Ha, Hl, He.
    cbn. repeat split; try lia.
Qed.

End Outcomes.

(** X1.  When attempt [k] is the first to succeed, the orchestrator
    returns [true] after exactly [k] invocations, hands the store
    exactly one document, the success entry with [retryCount] [k], and
    has waited the 5 to 10 seconds once after each of the [k - 1]
    failed attempts. *)
Theorem postTweetWithRetry_first_success :
  forall outcome dbUp md sp pd maxRetries k,
    1 <= k -> k <= maxRetries ->
    (forall j, 1 <= j < k -> outcome j = Ok false) ->
    outcome k = Ok true ->
    let m := postTweetWithRetry (submitOf (post pd) outcome) dbUp md sp pd
               maxRetries in
    result m = Ok true /\
    length (attempts (events m)) = k /\
    logEntries (events m) = [ContentLogCreate (successDoc pd md sp k)] /\
    length (List.filter isBackoff (events m)) = k - 1.
Proof.
  intros outcome dbUp md sp pd maxRetries k H1 Hk Hfalse Htrue m. subst m.
  unfold postTweetWithRetry.
  destruct (loop_first_success outcome dbUp md sp pd maxRetries k maxRetries 1)
    as (Hr & Ha & Hl & Hb); try assumption; try lia.
  repeat split; try assumption; lia.
Qed.

Lemma postTweetWithRetry_first_success_witness :
  let m := postTweetWithRetry
             (submitOf (post samplePost) (fun j => Ok (j =? 2)))
             true (lit "openai/gpt-3.5-turbo") 10 samplePost 3 in
  result m = Ok true /\
  length (attempts (events m)) = 2 /\
  logEntries (events m) =
    [ContentLogCreate (successDoc samplePost (lit "openai/gpt-3.5-turbo") 10 2)] /\
  length (List.filter isBackoff (events m)) = 1.
Proof.
  apply (postTweetWithRetry_first_success (fun j => Ok (j =? 2)) true
           (lit "openai/gpt-3.5-turbo") 10 samplePost 3 2).
  - lia.
  - lia.
  - intros j Hj. replace j with 1 by lia. reflexivity.
  - reflexivity.
Defined.

(** X2.  When every attempt before the last returns [false] and the
    last one throws, the orchestrator returns [false] after
    [maxRetries] invocations and hands the store one failure entry,
    whose [retryCount] is the configured 3 whatever [maxRetries] is;
    the message of the exception goes into a POST_FAILED error record,
    unless the store is down. *)
Theorem postTweetWithRetry_last_attempt_throws :
  forall outcome dbUp md sp pd maxRetries msg,
    1 <= maxRetries ->
    (forall j, 1 <= j < maxRetries -> outcome j = Ok false) ->
    outcome maxRetries = Throw msg ->
    let m := postTweetWithRetry (submitOf (post pd) outcome) dbUp md sp pd
               maxRetries in
    result m = Ok false /\
    length (attempts (events m)) = maxRetries /\
    logEntries (events m) = [ContentLogCreate (failureDoc pd)] /\
    retryCount (failureDoc pd) = 3 /\
    flat_map errorRecordOf (events m) =
      (if dbUp then [(lit "POST_FAILED", msg)] else []).
Proof.
  intros outcome dbUp md sp pd maxRetries msg H1 Hfalse Hthrow m. subst m.
  unfold postTweetWithRetry.
  destruct (loop_last_throws outcome dbUp md sp pd maxRetries msg maxRetries 1)
    as (Hr & Ha & Hl & He); try assumption; try lia.
  repeat split; assumption.
Qed.

Lemma postTweetWithRetry_last_attempt_throws_witness :
  let m := postTweetWithRetry
             (submitOf (post samplePost)
                (fun j => if j =? 5 then Throw (lit "detached frame") else Ok false))
             true (lit "openai/gpt-3.5-turbo") 10 samplePost 5 in
  result m = Ok false /\
  length (attempts (events m)) = 5 /\
  logEntries (events m) = [ContentLogCreate (failureDoc samplePost)] /\
  retryCount (failureDoc samplePost) = 3 /\
  flat_map errorRecordOf (events m) = [(lit "POST_FAILED", lit "detached frame")].
Proof.
  apply (postTweetWithRetry_last_attempt_throws
           (fun j => if j =? 5 then Throw (lit "detached frame") else Ok false)
           true (lit "openai/gpt-3.5-turbo") 10 samplePost 5 (lit "detached frame")).
  - lia.
  - intros j Hj. replace (j =? 5) with false; [reflexivity|].
    symmetry. apply Nat.eqb_neq. lia.
  - reflexivity.
Defined.

Lemma loop_store_down outcome md sp pd n todo from :
  result (retryLoop (submitOf (post pd) outcome) false md sp pd n todo from) =
    result (retryLoop (submitOf (post pd) outcome) true md sp pd n todo from) /\
  flat_map csvRowOf
    (events (retryLoop (submitOf (post pd) outcome) false md sp pd n todo from)) = [] /\
  flat_map errorRecordOf
    (events (retryLoop (submitOf (post pd) outcome) false md sp pd n todo from)) = [].
Proof.
  revert from; induction todo as [|todo IH]; intros from; [now repeat split|].
  destruct (IH (S from)) as (Hr & Hc & He).
  rewrite !loop_cons.
  destruct (outcome from) as [[|]|msg] eqn:Ho.
  - rewrite !(turn_true _ _ _ _ _ _ _ Ho). now repeat split.
  - rewrite !(turn_false _ _ _ _ _ _ _ Ho).
    rewrite !result_bind, !project_bind. cbn [result events fst snd].
    rewrite Hr, Hc, He. destruct (from <? n); now repeat split.
  - rewrite !(turn_throw _ _ _ _ _ _ _ _ Ho).
    destruct (from =? n); [now repeat split|].
    rewrite !result_bind, !project_bind. cbn [result events fst snd].
    rewrite Hr, Hc, He. now repeat split.
Qed.

(** X3.  With the store down the orchestrator returns what it returns
    with the store up, but nothing reaches the CSV file and no error
    record is written: the row is appended only after the store took
    the document. *)
Theorem postTweetWithRetry_store_down :
  forall outcome md sp pd maxRetries,
    let down := postTweetWithRetry (submitOf (post pd) outcome) false md sp pd
                  maxRetries in
    let up := postTweetWithRetry (submitOf (post pd) outcome) true md sp pd
                maxRetries in
    result down = result up /\
    flat_map csvRowOf (events down) = [] /\
    flat_map errorRecordOf (events down) = [].
Proof. intros. apply loop_store_down. Qed.

End RetryMore.

(** ** More on the interaction executor *)

Module SubmitMore.
Import JS AutoPost Observe Samples.

(** X5.  The verification never throws.  It answers [true] exactly when
    the compose box was found cleared, or when it was not, the home
    page loaded and the timeline showed a tweet; any error counts as
    not posted.  When the box was found cleared the page is not left. *)
Theorem verifyTweetPosted_verdict :
  forall vp, exists b,
    result (verifyTweetPosted vp) = Ok b /\
    (b = true <->
       v_textareaCleared vp = Ok true \/
       (v_textareaCleared vp = Ok false /\ v_gotoOk vp = true /\
        v_tweetFound vp = Ok true)) /\
    (v_textareaCleared vp = Ok true ->
     flat_map gotoOf (events (verifyTweetPosted vp)) = []).
Proof.
  intros [[[|]|e1] [|] [[|]|e2]]; cbn; eexists;
    (split; [reflexivity|]); (split; [|try discriminate; reflexivity]);
    intuition congruence.
Qed.

Lemma findTextarea_quiet {X} (f : Event -> list X) pg selectors i :
  (forall sel, f (WaitForSelector sel) = []) ->
  silent f (findTextarea pg selectors i).
Proof.
  intros Hf. revert i; induction selectors as [|sel rest IH]; intros i;
    cbn [findTextarea]; silence.
Qed.

Lemma typeContent_quiet {X} (f : Event -> list X) pg content i :
  (forall c, f (KeyboardType c) = []) ->
  silent f (typeContent pg content i).
Proof.
  intros Hf. revert i; induction content as [|c rest IH]; intros i;
    cbn [typeContent]; silence.
Qed.

(** Nothing before the [catch] takes a screenshot. *)
Lemma body_no_screenshot pg text :
  silent screenshotOf
    (bind (reachButton pg text) (fun _ =>
     bind (clickPostButton pg) (fun clicked =>
       if negb clicked
       then throw (lit "Failed to click Post button with all methods")
       else afterClick pg))).
Proof.
  pose proof (fun pg s i => findTextarea_quiet screenshotOf pg s i
                              (fun _ => eq_refl)).
  pose proof (fun pg s i => typeContent_quiet screenshotOf pg s i
                              (fun _ => eq_refl)).
  unfold reachButton, clickPostButton, coordinateClick, afterClick,
    verifyTweetPosted, randomMouseMovement.
  silence.
Qed.

(** X6.  The submit operation never throws, and it takes a screenshot
    exactly when it answers [false], once; a screenshot that fails
    changes nothing. *)
Theorem postTweetWithButton_screenshot_on_failure :
  forall pg text, exists b,
    result (postTweetWithButton pg text) = Ok b /\
    flat_map screenshotOf (events (postTweetWithButton pg text)) =
      if b then [] else [tt].
Proof.
  intros pg text. pose proof (body_no_screenshot pg text) as Hq.
  unfold postTweetWithButton. fold (afterClick pg).
  unfold silent in Hq.
  rewrite result_try_catch, project_try_catch, Hq.
  match goal with
  | |- context [match result ?m with _ => _ end] =>
      assert (Hb : result m = Ok true \/ exists e, result m = Throw e)
  end.
  { rewrite !result_bind.
    destruct (result (reachButton pg text)) as [[]|e]; [|eauto].
    destruct (result (clickPostButton pg)) as [[|]|e]; cbn [negb]; eauto.
    left. apply SubmitFacts.afterClick_spec. }
  destruct Hb as [->|[e ->]].
  - exists true. split; reflexivity.
  - exists false. destruct (s_screenshotOk pg); split; reflexivity.
Qed.

Lemma typeContent_typed pg content i :
  exists rest,
    content = flat_map typedOf (events (typeContent pg content i)) ++ rest /\
    (result (typeContent pg content i) = Ok tt -> rest = []).
Proof.
  revert i; induction content as [|c content IH]; intros i; cbn [typeContent].
  - exists []. split; reflexivity.
  - rewrite project_bind, result_bind, events_call, result_call.
    cbn [flat_map typedOf app].
    destruct (s_typeOk pg i).
    + destruct (IH (S i)) as (rest & Hc & Hr). exists rest. split; [|exact Hr].
      cbn [app]. now f_equal.
    + exists content. split; [reflexivity|discriminate].
Qed.

Lemma reachButton_typed pg text :
  exists rest,
    text = flat_map typedOf (events (reachButton pg text)) ++ rest /\
    (result (reachButton pg text) = Ok tt -> rest = []).
Proof.
  pose proof (findTextarea_quiet typedOf pg textareaSelectors 0
                (fun _ => eq_refl)) as Hfind.
  destruct (typeContent_typed pg text 0) as (rest & Hc & Hr).
  unfold reachButton, randomMouseMovement. unfold silent in Hfind.
  rewrite project_bind, result_bind, events_emit, result_emit.
  rewrite project_bind, result_bind, events_call, result_call.
  cbn [flat_map typedOf app].
  destruct (s_gotoOk pg); [|exists text; split; [reflexivity|discriminate]].
  rewrite project_bind, result_bind, events_emit, result_emit.
  rewrite project_bind, result_bind, events_emit, result_emit.
  rewrite project_bind, result_bind, Hfind.
  cbn [flat_map typedOf app].
  destruct (result (findTextarea pg textareaSelectors 0)) as [[|]|e];
    cbn [negb]; try (exists text; split; [reflexivity|discriminate]).
  rewrite project_bind, result_bind, events_call, result_call.
  cbn [flat_map typedOf app].
  destruct (s_clearOk pg); [|exists text; split; [reflexivity|discriminate]].
  rewrite project_bind, result_bind, events_call, result_call.
  cbn [flat_map typedOf app].
  destruct (s_focusOk pg); [|exists text; split; [reflexivity|discriminate]].
  rewrite project_bind, result_bind, events_emit, result_emit.
  rewrite project_bind, result_bind, events_emit, result_emit.
  rewrite project_bind, result_bind.
  cbn [flat_map typedOf app].
  destruct (result (typeContent pg text 0)) as [[]|e].
  - assert (Hq : forall A (m : M Event A),
               silent typedOf m ->
               flat_map typedOf (events (typeContent pg text 0)) ++
                 flat_map typedOf (events m) =
               flat_map typedOf (events (typeContent pg text 0))).
    { intros A m ->. apply app_nil_r. }
    exists rest. split; [|intros _; now apply Hr].
    rewrite Hq; [exact Hc|silence].
  - exists rest. split; [|discriminate]. now rewrite app_nil_r.
Qed.

Lemma afterReach_no_typing pg :
  silent typedOf
    (bind (clickPostButton pg) (fun clicked =>
       if negb clicked
       then throw (lit "Failed to click Post button with all methods")
       else afterClick pg)).
Proof.
  unfold clickPostButton, coordinateClick, afterClick, verifyTweetPosted.
  silence.
Qed.

(** X7.  What the submit operation types into the compose box is the
    content it was given, in order: the text typed so far is always a
    prefix of it, and all of it whenever a click on the Post button is
    tried.  (The events are per code unit; the source hands a surrogate
    pair to the keyboard in one call, which types the same text.) *)
Theorem postTweetWithButton_types_the_content :
  forall pg text,
    let typed := flat_map typedOf (events (postTweetWithButton pg text)) in
    (exists rest, text = typed ++ rest) /\
    (strategies (events (postTweetWithButton pg text)) <> [] -> typed = text).
Proof.
  intros pg text typed.
  destruct (reachButton_typed pg text) as (rest & Hc & Hr).
  assert (Ht : typed = flat_map typedOf (events (reachButton pg text))).
  { unfold typed, postTweetWithButton. fold (afterClick pg).
    rewrite project_try_catch, project_bind, result_bind.
    destruct (result (reachButton pg text)) as [[]|e].
    - rewrite (afterReach_no_typing pg), app_nil_r.
      match goal with
      | |- _ ++ match ?r with _ => _ end = _ => destruct r
      end; [now rewrite app_nil_r|].
      destruct (s_screenshotOk pg); cbn; now rewrite app_nil_r.
    - destruct (s_screenshotOk pg); cbn; now rewrite !app_nil_r. }
  split.
  - exists rest. now rewrite Ht.
  - intros Hs. rewrite Ht.
    destruct (result (reachButton pg text)) as [[]|e] eqn:He.
    + rewrite (Hr eq_refl), app_nil_r in Hc. now symmetry.
    + destruct (SubmitFacts.postTweetWithButton_not_reached pg text e He).
      contradiction.
Qed.

Lemma findTextarea_none pg selectors i :
  (forall j, i <= j < i + length selectors -> s_probe pg j <> ProbeHandle) ->
  result (findTextarea pg selectors i) = Ok false.
Proof.
  revert i; induction selectors as [|sel rest IH]; intros i Hp;
    cbn [findTextarea]; [reflexivity|].
  rewrite result_bind, result_try_catch, result_ask.
  cbn [length] in Hp.
  destruct (s_probe pg i) eqn:E; cbn.
  - exfalso. apply (Hp i); [lia|exact E].
  - apply IH. intros j Hj. apply Hp. lia.
  - apply IH. intros j Hj. apply Hp. lia.
Qed.

(** X8.  When none of the four selectors gives the compose box,
    nothing is typed, no click is tried and the answer is [false]. *)
Theorem postTweetWithButton_without_compose_box :
  forall pg text,
    (forall j, j < 4 -> s_probe pg j <> ProbeHandle) ->
    result (postTweetWithButton pg text) = Ok false /\
    flat_map typedOf (events (postTweetWithButton pg text)) = [] /\
    strategies (events (postTweetWithButton pg text)) = [].
Proof.
  intros pg text Hp.
  assert (Hf : result (findTextarea pg textareaSelectors 0) = Ok false).
  { apply findTextarea_none. intros j Hj. apply Hp. cbn in Hj. lia. }
  assert (He : exists e, result (reachButton pg text) = Throw e).
  { unfold reachButton, randomMouseMovement.
    rewrite !result_bind, result_emit, result_call.
    destruct (s_gotoOk pg); [|eauto].
    repeat progress (rewrite ?result_bind, ?result_emit, ?Hf; cbv beta iota).
    cbn. eauto. }
  destruct He as [e He].
  assert (Hq : flat_map typedOf (events (reachButton pg text)) = []).
  { pose proof (findTextarea_quiet typedOf pg textareaSelectors 0
                  (fun _ => eq_refl)) as Hfind.
    unfold reachButton, randomMouseMovement. unfold silent in Hfind.
    rewrite project_bind, events_emit, result_emit.
    rewrite project_bind, events_call, result_call.
    cbn [flat_map typedOf app].
    destruct (s_gotoOk pg); [|reflexivity].
    rewrite project_bind, events_emit, result_emit.
    rewrite project_bind, events_emit, result_emit.
    rewrite project_bind, Hfind, Hf. reflexivity. }
  destruct (SubmitFacts.postTweetWithButton_not_reached pg text e He) as [Hs Hr].
  repeat split; [exact Hr| |exact Hs].
  unfold postTweetWithButton.
  rewrite project_try_catch, project_bind, result_bind, He, Hq.
  destruct (s_screenshotOk pg); reflexivity.
Qed.

Lemma postTweetWithButton_without_compose_box_witness :
  result (postTweetWithButton blindPage (lit "hello")) = Ok false /\
  flat_map typedOf (events (postTweetWithButton blindPage (lit "hello"))) = [].
Proof.
  destruct (postTweetWithButton_without_compose_box blindPage (lit "hello"))
    as (Hr & Ht & _).
  - intros j _. unfold blindPage; cbn. destruct j as [|[|j]]; discriminate.
  - split; [exact Hr|exact Ht].
Defined.

End SubmitMore.

(** ** More on the trends *)

Module TrendMore.
Import JS AutoPost Observe Samples.

Lemma streq_eq a b : streq a b = true <-> a = b.
Proof.
  revert b; induction a as [|x a IH]; intros [|y b]; cbn; try easy.
  rewrite andb_true_iff, N.eqb_eq, IH. split.
  - now intros [-> ->].
  - now intros [= -> ->].
Qed.

Section Select.
Variable toLowerCase : jsstring -> jsstring.

Lemma unused_iff usedTopics t :
  unused toLowerCase usedTopics t = true <->
  ~ In (toLowerCase (topic t)) usedTopics.
Proof.
  unfold unused. rewrite negb_true_iff, <- not_true_iff_false, existsb_exists.
  split; intros H.
  - intros Hin. apply H. exists (toLowerCase (topic t)).
    split; [exact Hin|now apply streq_eq].
  - intros (x & Hin & Hx). apply streq_eq in Hx. subst x. contradiction.
Qed.

(** X9.  With a draw in the range of [Math.random] and a trend whose
    topic has not been used yet, the trend chosen is one of the trends
    and its topic has not been used: a used topic is drawn again only
    when every topic has been used. *)
Theorem selectRandomTrend_prefers_unused :
  forall r trends usedTopics t0,
    (0 <= r)%Q -> (r < 1)%Q ->
    In t0 trends -> ~ In (toLowerCase (topic t0)) usedTopics ->
    exists t,
      selectRandomTrend toLowerCase r trends usedTopics = Some t /\
      In t trends /\ ~ In (toLowerCase (topic t)) usedTopics.
Proof.
  intros r trends usedTopics t0 H0 H1 Hin Hnew. unfold selectRandomTrend.
  set (available := List.filter (unused toLowerCase usedTopics) trends).
  assert (Ha : In t0 available).
  { apply filter_In. split; [exact Hin|now apply unused_iff]. }
  destruct (length available =? 0) eqn:E.
  - apply Nat.eqb_eq in E. destruct available; [contradiction|discriminate].
  - apply Nat.eqb_neq in E.
    destruct (MainFacts.index_defined available
                (randomIndex r (length available))) as (t & Ht & Hint).
    { apply MainFacts.randomIndex_range; auto. lia. }
    exists t. split; [exact Ht|].
    apply filter_In in Hint. destruct Hint as [Hint Hu].
    split; [exact Hint|now apply unused_iff].
Qed.

End Select.

Lemma selectRandomTrend_prefers_unused_witness :
  exists t,
    selectRandomTrend asciiLower (1 # 2) sampleTrends [lit "playoffs"] = Some t /\
    In t sampleTrends /\ ~ In (asciiLower (topic t)) [lit "playoffs"].
Proof.
  apply (selectRandomTrend_prefers_unused asciiLower (1 # 2) sampleTrends
           [lit "playoffs"]
           (mkTrend (lit "Election") (lit "Trending in Politics")
              (lit "98K posts"))).
  - unfold Qle; cbn; lia.
  - unfold Qlt; cbn; lia.
  - right; left; reflexivity.
  - vm_compute. intros [H|[]]. discriminate H.
Defined.

Lemma classifySpan_topic spans acc s :
  In s spans ->
  trendText acc = [] \/ topicFrom spans (trendText acc) ->
  trendText (classifySpan acc s) = [] \/
  topicFrom spans (trendText (classifySpan acc s)).
Proof.
  intros Hin Hacc. unfold classifySpan.
  destruct (includes (lit "Trending") (trim s)) eqn:E1; [exact Hacc|].
  destruct (includes middleDot (trim s)) eqn:E2; [exact Hacc|].
  destruct (includes (lit "posts") (trim s)) eqn:E3; [exact Hacc|].
  destruct (includes (lit "Tweets") (trim s)) eqn:E4; [exact Hacc|].
  destruct (includes (lit "K") (trim s)) eqn:E5; [exact Hacc|].
  destruct (includes (lit "M") (trim s)) eqn:E6; [exact Hacc|].
  cbn [orb].
  assert (Hs : topicFrom spans (trim s)).
  { split; [now exists s|].
    intros w [<-|[<-|[<-|[<-|[<-|[<-|[]]]]]]]; assumption. }
  destruct (negb (truthy (trendText acc)) && (2 <? len (trim s))
            && negb (startsWith (lit "#") (trim s))); [now right|].
  destruct (truthy (trendText acc) && startsWith (lit "#") (trim s));
    [now right|exact Hacc].
Qed.

Lemma fold_classifySpan_topic all spans acc :
  (forall s, In s spans -> In s all) ->
  trendText acc = [] \/ topicFrom all (trendText acc) ->
  trendText (fold_left classifySpan spans acc) = [] \/
  topicFrom all (trendText (fold_left classifySpan spans acc)).
Proof.
  revert acc; induction spans as [|s spans IH]; intros acc Hall Hacc;
    cbn [fold_left]; [exact Hacc|].
  apply IH.
  - intros x Hx. apply Hall. now right.
  - apply classifySpan_topic; [apply Hall; now left|exact Hacc].
Qed.

(** X10.  A trend read off a block of the trending page has a topic of
    more than two code units that is the trimmed text of one of the
    spans of the block and holds none of the words that mark a context
    or a count (so no capital K or M either); its context and its
    tweet count are never empty. *)
Theorem parseTrend_topic :
  forall spans t,
    parseTrend spans = Some t ->
    2 < len (topic t) /\
    (exists s, In s spans /\ topic t = trim s) /\
    (forall w, In w reserved -> includes w (topic t) = false) /\
    context t <> [] /\ tweetCount t <> [].
Proof.
  intros spans t. unfold parseTrend.
  pose proof (fold_classifySpan_topic spans spans (mkParsed [] [] [])
                (fun _ H => H) (or_introl eq_refl)) as Hinv.
  set (acc := fold_left classifySpan spans (mkParsed [] [] [])) in *.
  destruct (truthy (trendText acc)) eqn:Et; [|discriminate].
  destruct (2 <? len (trendText acc)) eqn:El; [|discriminate].
  cbn [andb]. intros [= <-]. cbn [topic context tweetCount].
  apply Nat.ltb_lt in El.
  destruct Hinv as [Hnil|[Hs Hw]]; [rewrite Hnil in Et; discriminate|].
  repeat split; try assumption.
  - unfold orStr. destruct (pContext acc); [discriminate|easy].
  - unfold orStr. destruct (pTweetCount acc); [discriminate|easy].
Qed.

Lemma parseTrend_topic_witness :
  2 < len (lit "Playoffs") /\
  includes (lit "K") (lit "Playoffs") = false.
Proof.
  destruct (parseTrend_topic
              [lit "Trending in Sports"; lit "Playoffs"; lit "12K posts"]
              (mkTrend (lit "Playoffs") (lit "Trending in Sports")
                 (lit "12K posts")) eq_refl) as (Hl & _ & Hw & _).
  split; [exact Hl|]. apply Hw. do 4 right. left. reflexivity.
Defined.

End TrendMore.

(** ** More on the diversity guard *)

Module DiversityMore.
Import JS AutoPost Observe Samples.

Section Guard.
Variable toLowerCase : jsstring -> jsstring.
Variable compareTwoStrings : jsstring -> jsstring -> Q.

(** X11.  The guard rejects a candidate only for a reason: the store
    answered, and among the (at most 20) entries it fetched there is
    one, successful and not older than 24 hours, that is more similar
    to the candidate than the threshold.  Failed posts, older posts and
    a similarity of exactly the threshold never cause a rejection. *)
Theorem checkContentDiversity_rejects_only_similar :
  forall dbUp store now newPost,
    result (checkContentDiversity toLowerCase compareTwoStrings dbUp store now
              newPost) = Ok false ->
    dbUp = true /\
    length (recentSuccessful store now) <= 20 /\
    exists d,
      In d (recentSuccessful store now) /\ In d store /\
      success d = true /\ (now - 24 * 60 * 60 * 1000 <= postedAt d)%Z /\
      (7 # 10 < similarity toLowerCase compareTwoStrings d newPost)%Q.
Proof.
  intros dbUp store now newPost.
  rewrite DiversityFacts.checkContentDiversity_result.
  destruct dbUp; [|discriminate].
  intros [= Hc]. apply DiversityFacts.compareAll_false in Hc.
  destruct Hc as (d & Hin & Hs).
  split; [reflexivity|]. split; [apply firstn_le_length|].
  exists d. split; [exact Hin|].
  unfold recentSuccessful in Hin. apply TrendFacts.firstn_incl in Hin.
  apply filter_In in Hin. destruct Hin as [Hin Hw].
  unfold inWindow in Hw. apply andb_true_iff in Hw. destruct Hw as [Hw Hsucc].
  apply Z.leb_le in Hw.
  repeat split; assumption.
Qed.

End Guard.

Lemma checkContentDiversity_rejects_only_similar_witness :
  exists d,
    In d sampleStore /\ success d = true /\
    (7 # 10 < similarity asciiLower sameOrNot d (lit "Big day for the league"))%Q.
Proof.
  destruct (checkContentDiversity_rejects_only_similar asciiLower sameOrNot
              true sampleStore 100000000 (lit "Big day for the league"))
    as (_ & _ & d & _ & Hin & Hs & _ & Hq).
  - vm_compute. reflexivity.
  - exists d. repeat split; assumption.
Defined.

End DiversityMore.

(** ** More on the run controller *)

Module MainMore.
Import JS AutoPost Observe Samples.

Lemma result_try_finally {A} (m : M Event A) (fin : M Event unit) :
  result (try_finally m fin) =
  match result fin with Ok _ => result m | Throw e => Throw e end.
Proof. destruct m as [t r], fin as [t' [[]|e]]; reflexivity. Qed.

Lemma launchBrowser_returns l :
  launchResolves l = true -> result (launchBrowser l) = Ok tt.
Proof.
  destruct l as [[|] [[|pages]|e] [|] [|] [|] [|]]; cbn; congruence.
Qed.

Lemma launchBrowser_throws l :
  launchResolves l = false -> exists e, result (launchBrowser l) = Throw e.
Proof.
  destruct l as [[|] [[|pages]|e] [|] [|] [|] [|]]; cbn;
    try discriminate; eauto.
Qed.

(** What is blind to the session, to the end of the run and to the
    error records. *)
Section Quiet.
Context {X : Type} (f : Event -> list X).
Hypothesis Hq : forall e, isControl e = false -> f e = [].

Lemma scrollTrending_blind pg todo from : silent f (scrollTrending pg todo from).
Proof.
  revert from; induction todo as [|todo IH]; intros from; cbn [scrollTrending];
    silence.
Qed.

Lemma discovery_blind toLowerCase pg :
  silent f (getTrendingTopicsWithContext toLowerCase pg).
Proof.
  pose proof scrollTrending_blind.
  unfold getTrendingTopicsWithContext. silence.
Qed.

Lemma submit_blind pg text : silent f (postTweetWithButton pg text).
Proof.
  pose proof (fun pg s i => SubmitMore.findTextarea_quiet f pg s i
                              (fun sel => Hq (WaitForSelector sel) eq_refl)).
  pose proof (fun pg s i => SubmitMore.typeContent_quiet f pg s i
                              (fun c => Hq (KeyboardType c) eq_refl)).
  unfold postTweetWithButton, reachButton, clickPostButton, coordinateClick,
    verifyTweetPosted, randomMouseMovement.
  silence.
Qed.

Lemma session_blind pg email : silent f (extractAndSaveSession pg email).
Proof. unfold extractAndSaveSession, saveSessionToDB. silence. Qed.

Lemma cookies_blind pg sd : silent f (applySessionCookies pg sd).
Proof. unfold applySessionCookies. silence. Qed.

(** What [f] observes of STEPS 1 to 4 is what it observes of the
    authentication. *)
Lemma prepare_control toLowerCase w :
  flat_map f (events (prepare toLowerCase w)) =
  if w_browserOk w then flat_map f (events (authenticate w)) else [].
Proof.
  pose proof (discovery_blind toLowerCase (w_trendPage w)) as Hd.
  assert (Hl : silent f (launchBrowser (w_launch w))).
  { unfold launchBrowser. silence. }
  unfold prepare, w_browserOk.
  rewrite project_bind, Hl. cbn [app].
  destruct (launchResolves (w_launch w)) eqn:El;
    [rewrite (launchBrowser_returns _ El)
    |destruct (launchBrowser_throws _ El) as [e ->]; reflexivity].
  rewrite project_bind.
  match goal with
  | |- ?a ++ ?b = ?a => enough (Hb : b = []) by (rewrite Hb; apply app_nil_r)
  end.
  destruct (result (authenticate w)); [|reflexivity].
  match goal with |- flat_map f (events ?m) = [] => change (silent f m) end.
  silence.
Qed.

Section Posting.
Hypothesis Hr : forall ty msg, f (ErrorLogCreate ty msg) = [].

Lemma retryLoop_blind submit dbUp md sp pd n todo from :
  (forall attempt, silent f (submit attempt)) ->
  silent f (retryLoop submit dbUp md sp pd n todo from).
Proof.
  intros Hs. revert from; induction todo as [|todo IH]; intros from;
    cbn [retryLoop].
  - apply silent_ret.
  - unfold retryAttempt, logSuccessfulPost, logFailedPost, appendToCSV.
    silence.
Qed.

Lemma cycle_blind toLowerCase compareTwoStrings w trendingTopics :
  silent f (cycle toLowerCase compareTwoStrings w trendingTopics).
Proof.
  pose proof submit_blind.
  assert (Hl : forall pd,
             silent f
               (postTweetWithRetry
                  (fun attempt =>
                     postTweetWithButton (w_submitPage w attempt) (post pd))
                  (w_dbUp w) (w_model w) (w_scrollPages w) pd
                  CONFIG.maxRetries)).
  { intros pd. apply retryLoop_blind. intros; apply submit_blind. }
  unfold cycle, regenerate, selected, generatePostWithOpenRouter,
    checkContentDiversity.
  silence.
Qed.

End Posting.

End Quiet.

Section Run.
Variable toLowerCase : jsstring -> jsstring.
Variable compareTwoStrings : jsstring -> jsstring -> Q.

Abbreviation main := (main toLowerCase compareTwoStrings).
Abbreviation cycle := (cycle toLowerCase compareTwoStrings).
Abbreviation prepare := (prepare toLowerCase).

Lemma shutdownOf_control e : isControl e = false -> shutdownOf e = [].
Proof. destruct e; cbn; congruence. Qed.

Lemma loginOf_control e : isControl e = false -> loginOf e = [].
Proof. destruct e; cbn; congruence. Qed.

Lemma errorRecordOf_control e : isControl e = false -> errorRecordOf e = [].
Proof. destruct e; cbn; congruence. Qed.

Lemma reportError_returns w msg : result (reportError w msg) = Ok tt.
Proof. unfold reportError. destruct (w_dbUp w); reflexivity. Qed.

(** What the [finally] does, by cases. *)
Lemma shutdown_events w :
  events (shutdown w) =
  if w_browserOk w
  then BrowserClose :: (if w_browserCloseOk w then [MongoClose] else [])
  else [MongoClose].
Proof.
  unfold shutdown. destruct (w_browserOk w); [|reflexivity].
  destruct (w_browserCloseOk w); reflexivity.
Qed.

Lemma shutdown_result w :
  result (shutdown w) = Ok tt <->
  (w_browserOk w = true -> w_browserCloseOk w = true) /\ w_mongoCloseOk w = true.
Proof.
  unfold shutdown.
  destruct (w_browserOk w), (w_browserCloseOk w), (w_mongoCloseOk w); cbn;
    intuition congruence.
Qed.

(** Whatever STEPS 1 to 9 do, the [try] with its [catch] ends
    normally. *)
Lemma main_result w :
  w_configOk w = true -> w_mongoOk w = true ->
  result (main w) = result (shutdown w).
Proof.
  intros Hc Hm. unfold AutoPost.main. rewrite Hc. cbn [negb].
  rewrite result_bind, result_emit, result_bind, result_call, Hm.
  rewrite result_try_finally, result_try_catch.
  assert (Hbody : forall r : Res unit,
             match r with Ok a => Ok a | Throw e => result (reportError w e) end
             = Ok tt).
  { intros [[]|e]; [reflexivity|apply reportError_returns]. }
  rewrite Hbody. destruct (result (shutdown w)) as [[]|e]; reflexivity.
Qed.

Lemma authenticate_no_shutdown w : silent shutdownOf (authenticate w).
Proof.
  unfold authenticate, freshLogin, applySessionCookies, extractAndSaveSession,
    saveSessionToDB.
  silence.
Qed.

(** X12.  The end of a run, once the configuration is complete and the
    store is connected.  [browser.close()] is called exactly when
    [launchBrowser] returned, so a browser that started and whose page
    could not be set up is never closed; the connection to the store is
    closed exactly when no close of the browser rejected; the closes
    are the last calls of the run; and the run ends normally exactly
    when every close it called resolved: no error of the steps before
    makes it reject. *)
Theorem main_cleanup :
  forall w,
    w_configOk w = true -> w_mongoOk w = true ->
    flat_map shutdownOf (events (main w)) =
      (if w_browserOk w
       then BrowserClose :: (if w_browserCloseOk w then [MongoClose] else [])
       else [MongoClose]) /\
    (exists evs,
       events (main w) = evs ++ flat_map shutdownOf (events (main w))) /\
    (result (main w) = Ok tt <->
       (w_browserOk w = true -> w_browserCloseOk w = true) /\
       w_mongoCloseOk w = true) /\
    (w_browserOk w = false -> ~ In BrowserClose (events (main w))).
Proof.
  intros w Hc Hm.
  assert (Hs : flat_map shutdownOf (events (main w)) = events (shutdown w)).
  { rewrite (MainFacts.main_events toLowerCase compareTwoStrings w Hc Hm).
    cbn [flat_map shutdownOf app]. rewrite !flat_map_app.
    rewrite (prepare_control shutdownOf shutdownOf_control toLowerCase w).
    rewrite (authenticate_no_shutdown w).
    assert (Hrep : forall e, flat_map shutdownOf (events (reportError w e)) = []).
    { intros e. unfold reportError. now destruct (w_dbUp w). }
    assert (Hmid :
      flat_map shutdownOf
        match result (prepare w) with
        | Ok trendingTopics =>
            events (cycle w trendingTopics) ++
            match result (cycle w trendingTopics) with
            | Ok _ => []
            | Throw e => events (reportError w e)
            end
        | Throw e => events (reportError w e)
        end = []).
    { destruct (result (prepare w)) as [trends|e]; [|apply Hrep].
      rewrite flat_map_app.
      rewrite (cycle_blind shutdownOf shutdownOf_control (fun _ _ => eq_refl)
                 toLowerCase compareTwoStrings w trends).
      destruct (result (cycle w trends)); [reflexivity|apply Hrep]. }
    rewrite Hmid, shutdown_events.
    destruct (w_browserOk w); [|reflexivity].
    destruct (w_browserCloseOk w); reflexivity. }
  split; [rewrite Hs; apply shutdown_events|].
  split.
  - rewrite Hs.
    rewrite (MainFacts.main_events toLowerCase compareTwoStrings w Hc Hm).
    eexists (InitializeCSV :: ConnectMongo :: _). reflexivity.
  - split.
    + rewrite (main_result w Hc Hm). apply shutdown_result.
    + intros Hb Hin.
      assert (Hin' : In BrowserClose (flat_map shutdownOf (events (main w)))).
      { apply in_flat_map. exists BrowserClose. split; [exact Hin|now left]. }
      rewrite Hs, shutdown_events, Hb in Hin'.
      destruct Hin' as [H|[]]. discriminate H.
Qed.

Lemma cycleEventOf_cycleOnly e : isCycleEvent e = false -> cycleEventOf e = [].
Proof. unfold cycleEventOf. now intros ->. Qed.

Lemma authenticate_no_record w : silent errorRecordOf (authenticate w).
Proof.
  unfold authenticate, freshLogin, applySessionCookies, extractAndSaveSession,
    saveSessionToDB.
  silence.
Qed.

(** A failure of STEPS 1 to 4: nothing of STEPS 5 to 9 happens, and the
    store is asked once for an error record with the message. *)
Lemma main_prepare_throws w msg :
  w_configOk w = true -> w_mongoOk w = true ->
  result (prepare w) = Throw msg ->
  flat_map cycleEventOf (events (main w)) = [] /\
  flat_map errorRecordOf (events (main w)) =
    [(lit "CRITICAL_AUTOMATION_ERROR", msg)].
Proof.
  intros Hc Hm Hp. split.
  - rewrite (MainFacts.main_project toLowerCase compareTwoStrings cycleEventOf
               cycleEventOf_cycleOnly w).
    rewrite Hc, Hm, Hp. reflexivity.
  - rewrite (MainFacts.main_events toLowerCase compareTwoStrings w Hc Hm), Hp.
    cbn [flat_map errorRecordOf app]. rewrite !flat_map_app.
    rewrite (prepare_control errorRecordOf errorRecordOf_control toLowerCase w).
    rewrite (authenticate_no_record w).
    unfold reportError, shutdown.
    destruct (w_browserOk w), (w_dbUp w), (w_browserCloseOk w); reflexivity.
Qed.

(** X13.  When the run gets as far as the trending page and no trend
    comes back from it (the page failed, or showed none), nothing is
    selected, generated, checked or posted, and the run asks the store
    exactly once for an error record, which says that no trending
    topics were found.  (The store takes the record when it is up; a
    create that rejects is caught.) *)
Theorem main_no_trends_found :
  forall w,
    w_configOk w = true -> w_mongoOk w = true -> w_browserOk w = true ->
    result (authenticate w) = Ok tt ->
    w_gotoHomeOk w = true -> w_autoScrollOk w = true ->
    result (getTrendingTopicsWithContext toLowerCase (w_trendPage w)) = Ok [] ->
    flat_map cycleEventOf (events (main w)) = [] /\
    flat_map errorRecordOf (events (main w)) =
      [(lit "CRITICAL_AUTOMATION_ERROR", lit "No trending topics found")] /\
    result (reportError w (lit "No trending topics found")) = Ok tt.
Proof.
  intros w Hc Hm Hb Ha Hg Hs Ht.
  enough (Hp : result (prepare w) = Throw (lit "No trending topics found")).
  { destruct (main_prepare_throws w _ Hc Hm Hp) as [H1 H2].
    split; [exact H1|]. split; [exact H2|apply reportError_returns]. }
  unfold AutoPost.prepare.
  rewrite result_bind, (launchBrowser_returns _ Hb).
  repeat progress
    (rewrite ?result_bind, ?result_call, ?result_emit, ?Ha, ?Hg, ?Hs, ?Ht;
     cbv beta iota).
  reflexivity.
Qed.

(** X14.  Without a stored session, a login that fails ends the run
    there: no cookie is set and no session is saved, the feed is not
    scrolled, no trends are extracted, nothing is selected, generated
    or posted, and the run asks the store exactly once for an error
    record, which says that the login failed.  (The store takes the
    record when it is up; a create that rejects is caught.) *)
Theorem main_login_failure :
  forall w,
    w_configOk w = true -> w_mongoOk w = true -> w_browserOk w = true ->
    w_existingSession w = None -> w_loginOk w = false ->
    flat_map cycleEventOf (events (main w)) = [] /\
    flat_map errorRecordOf (events (main w)) =
      [(lit "CRITICAL_AUTOMATION_ERROR", lit "Login failed")] /\
    flat_map SessionObserve.appliedBy (events (main w)) = [] /\
    flat_map discoveryOf (events (main w)) = [] /\
    result (reportError w (lit "Login failed")) = Ok tt.
Proof.
  intros w Hc Hm Hb He Hl.
  assert (Hp : result (prepare w) = Throw errLogin).
  { unfold AutoPost.prepare, authenticate, freshLogin.
    rewrite result_bind, (launchBrowser_returns _ Hb), result_bind, He.
    rewrite !result_bind, !result_emit, Hl. reflexivity. }
  destruct (main_prepare_throws w errLogin Hc Hm Hp) as [H1 H2].
  split; [exact H1|]. split; [exact H2|].
  rewrite (MainFacts.main_events toLowerCase compareTwoStrings w Hc Hm), Hp.
  assert (Hev : events (prepare w) =
                events (launchBrowser (w_launch w)) ++ [LoadSession; Login]).
  { unfold AutoPost.prepare, authenticate, freshLogin.
    rewrite events_bind, (launchBrowser_returns _ Hb).
    rewrite events_bind, He, events_bind, events_emit, result_emit.
    rewrite events_bind, events_emit, result_emit, Hl. cbn [negb].
    rewrite events_throw, !result_bind, result_emit, result_throw.
    reflexivity. }
  assert (Hl1 : silent SessionObserve.appliedBy (launchBrowser (w_launch w))).
  { unfold launchBrowser. silence. }
  assert (Hl2 : silent discoveryOf (launchBrowser (w_launch w))).
  { unfold launchBrowser. silence. }
  unfold silent in Hl1, Hl2.
  rewrite Hev. cbn [flat_map app]. rewrite !flat_map_app, Hl1, Hl2.
  unfold reportError, shutdown. rewrite Hb.
  split; [|split; [|apply reportError_returns]];
    destruct (w_dbUp w), (w_browserCloseOk w); reflexivity.
Qed.

Lemma in_loginOf evs : In Login evs <-> flat_map loginOf evs <> [].
Proof.
  induction evs as [|e evs IH]; cbn [flat_map In]; [tauto|].
  destruct e; cbn [loginOf app]; rewrite ?IH;
    try (split; [intros [H|H]; [discriminate H|exact H]|intros H; now right]).
  split; [discriminate|now left].
Qed.

Lemma authenticate_logins w :
  flat_map loginOf (events (authenticate w)) =
  match w_existingSession w with
  | None => [tt]
  | Some existingSession =>
      match result (applySessionCookies (w_cookiePage w) existingSession) with
      | Ok true => if w_sessionValid w then [] else [tt]
      | _ => []
      end
  end.
Proof.
  pose proof (session_blind loginOf loginOf_control (w_extractPage w) (w_email w))
    as Hs.
  assert (Hfresh : flat_map loginOf (events (freshLogin w)) = [tt]).
  { unfold freshLogin. rewrite project_bind, events_emit, result_emit.
    cbn [flat_map loginOf app]. destruct (w_loginOk w); cbn [negb].
    - now rewrite Hs.
    - reflexivity. }
  unfold authenticate. rewrite project_bind, events_emit, result_emit.
  cbn [flat_map loginOf app].
  destruct (w_existingSession w) as [sd|]; [|exact Hfresh].
  rewrite project_bind, (cookies_blind loginOf loginOf_control). cbn [app].
  destruct (result (applySessionCookies (w_cookiePage w) sd)) as [[|]|e];
    try reflexivity.
  rewrite project_bind, events_emit, result_emit. cbn [flat_map loginOf app].
  destruct (w_sessionValid w); cbn [negb]; [reflexivity|exact Hfresh].
Qed.

(** X15.  When the run logs in.  With the browser launched, the login
    form is used exactly when there is no stored session, or when the
    stored cookies were applied and the session turned out invalid;
    never more than once.  In particular a stored session whose cookies
    could not be applied leads to no login at all. *)
Theorem main_login_policy :
  forall w,
    w_configOk w = true -> w_mongoOk w = true -> w_browserOk w = true ->
    (In Login (events (main w)) <->
       w_existingSession w = None \/
       exists existingSession,
         w_existingSession w = Some existingSession /\
         result (applySessionCookies (w_cookiePage w) existingSession) = Ok true /\
         w_sessionValid w = false) /\
    length (flat_map loginOf (events (main w))) <= 1.
Proof.
  intros w Hc Hm Hb.
  assert (Hmain : flat_map loginOf (events (main w)) =
                  flat_map loginOf (events (authenticate w))).
  { rewrite (MainFacts.main_events toLowerCase compareTwoStrings w Hc Hm).
    cbn [flat_map loginOf app]. rewrite !flat_map_app.
    rewrite (prepare_control loginOf loginOf_control toLowerCase w), Hb.
    assert (Hrep : forall e, flat_map loginOf (events (reportError w e)) = []).
    { intros e. unfold reportError. now destruct (w_dbUp w). }
    assert (Hmid :
      flat_map loginOf
        match result (prepare w) with
        | Ok trendingTopics =>
            events (cycle w trendingTopics) ++
            match result (cycle w trendingTopics) with
            | Ok _ => []
            | Throw e => events (reportError w e)
            end
        | Throw e => events (reportError w e)
        end = []).
    { destruct (result (prepare w)) as [trends|e]; [|apply Hrep].
      rewrite flat_map_app.
      rewrite (cycle_blind loginOf loginOf_control (fun _ _ => eq_refl)
                 toLowerCase compareTwoStrings w trends).
      destruct (result (cycle w trends)); [reflexivity|apply Hrep]. }
    rewrite Hmid. unfold shutdown. rewrite Hb.
    destruct (w_browserCloseOk w); cbn; now rewrite !app_nil_r. }
  rewrite in_loginOf, Hmain, authenticate_logins.
  destruct (w_existingSession w) as [sd|].
  - destruct (result (applySessionCookies (w_cookiePage w) sd)) as [[|]|e] eqn:Ea.
    + destruct (w_sessionValid w) eqn:Ev; split; cbn; try lia.
      * split; [congruence|]. intros [H|(x & _ & _ & H)]; discriminate H.
      * split; [|discriminate]. intros _. right. exists sd. auto.
    + split; cbn; [|lia]. split; [congruence|].
      intros [H|(x & [= <-] & H & _)]; [discriminate H|congruence].
    + split; cbn; [|lia]. split; [congruence|].
      intros [H|(x & [= <-] & H & _)]; [discriminate H|congruence].
  - split; cbn; [|lia]. split; [now left|discriminate].
Qed.

End Run.

Lemma main_cleanup_witness :
  result (AutoPost.main asciiLower sameOrNot nullWorld) = Ok tt /\
  flat_map shutdownOf (events (AutoPost.main asciiLower sameOrNot nullWorld)) =
    [BrowserClose; MongoClose] /\
  ~ In BrowserClose
      (events (AutoPost.main asciiLower sameOrNot halfLaunchedWorld)).
Proof.
  destruct (main_cleanup asciiLower sameOrNot nullWorld eq_refl eq_refl)
    as (Hs & _ & Hr & _).
  destruct (main_cleanup asciiLower sameOrNot halfLaunchedWorld eq_refl eq_refl)
    as (_ & _ & _ & Hleak).
  split; [apply Hr; split; reflexivity|].
  split; [exact Hs|exact (Hleak eq_refl)].
Defined.

Lemma main_no_trends_found_witness :
  flat_map errorRecordOf
    (events (AutoPost.main asciiLower sameOrNot noTrendsWorld)) =
  [(lit "CRITICAL_AUTOMATION_ERROR", lit "No trending topics found")].
Proof.
  exact (proj1 (proj2 (main_no_trends_found asciiLower sameOrNot noTrendsWorld
                         eq_refl eq_refl eq_refl eq_refl eq_refl eq_refl
                         eq_refl))).
Defined.

Lemma main_login_failure_witness :
  flat_map errorRecordOf
    (events (AutoPost.main asciiLower sameOrNot loginFailsWorld)) =
  [(lit "CRITICAL_AUTOMATION_ERROR", lit "Login failed")].
Proof.
  exact (proj1 (proj2 (main_login_failure asciiLower sameOrNot loginFailsWorld
                         eq_refl eq_refl eq_refl eq_refl eq_refl))).
Defined.

Lemma main_login_policy_witness :
  In Login (events (AutoPost.main asciiLower sameOrNot loginFailsWorld)) /\
  length (flat_map loginOf
            (events (AutoPost.main asciiLower sameOrNot staleCookiesWorld))) <= 1.
Proof.
  split.
  - apply (main_login_policy asciiLower sameOrNot loginFailsWorld eq_refl
             eq_refl eq_refl).
    left. reflexivity.
  - apply (main_login_policy asciiLower sameOrNot staleCookiesWorld eq_refl
             eq_refl eq_refl).
Defined.

End MainMore.

(** ** Sampling tweets *)

Module SamplingFacts.
Import JS Sampling EngageObserve.

Lemma collect_firstn size count tweetElements :
  collect size count tweetElements =
  firstn (size - count) (flat_map kept tweetElements).
Proof.
  revert count; induction tweetElements as [|el rest IH]; intros count;
    cbn [collect flat_map].
  - now rewrite firstn_nil.
  - destruct (size <=? count) eqn:E.
    + apply Nat.leb_le in E. replace (size - count) with 0 by lia. reflexivity.
    + apply Nat.leb_gt in E.
      destruct el as [| |textContent]; cbn [kept app]; try apply IH.
      destruct textContent as [|c textContent']; cbn [truthy].
      * change (trim []) with (@nil N). cbn [len length Nat.ltb Nat.leb app].
        apply IH.
      * destruct (20 <? len (trim (c :: textContent'))); cbn [app].
        -- replace (size - count) with (S (size - S count)) by lia.
           cbn [firstn]. f_equal. apply IH.
        -- apply IH.
Qed.

Lemma in_kept t tweetElements :
  In t (flat_map kept tweetElements) ->
  20 < len t /\ exists textContent,
    In (TextNode textContent) tweetElements /\ t = trim textContent.
Proof.
  intros H. apply in_flat_map in H as (el & Hel & Ht).
  destruct el as [| |textContent]; cbn [kept] in Ht; try contradiction.
  destruct (20 <? len (trim textContent)) eqn:E; [|contradiction].
  destruct Ht as [<-|[]]. apply Nat.ltb_lt in E. split; [exact E|].
  now exists textContent.
Qed.

(** X16.  Sampling never throws.  When the topic can be encoded and the
    navigation, the two scrolls and the extraction resolve, it answers
    exactly the first [sampleSize] tweets of the search page whose
    trimmed text is longer than 20 code units, in the order of the
    page, skipping the elements it cannot read; when the topic cannot
    be encoded, or one of those steps rejects, it answers the empty
    list. *)
Theorem sampleTrendingTweets_contract :
  forall encoded pg sampleSize,
    (forall q,
       encoded = Ok q ->
       sp_gotoOk pg && sp_scrollOk pg 0 && sp_scrollOk pg 1 && sp_extractOk pg
         = true ->
       result (sampleTrendingTweets encoded pg sampleSize) =
         Ok (firstn sampleSize (flat_map kept (sp_tweetElements pg)))) /\
    (forall message,
       encoded = Throw message ->
       result (sampleTrendingTweets encoded pg sampleSize) = Ok []) /\
    (sp_gotoOk pg && sp_scrollOk pg 0 && sp_scrollOk pg 1 && sp_extractOk pg
       = false ->
     result (sampleTrendingTweets encoded pg sampleSize) = Ok []) /\
    (forall t,
       In t (firstn sampleSize (flat_map kept (sp_tweetElements pg))) ->
       20 < len t /\ exists textContent,
         In (TextNode textContent) (sp_tweetElements pg) /\
         t = trim textContent).
Proof.
  intros encoded pg sampleSize.
  assert (Hr : result (sampleTrendingTweets encoded pg sampleSize) =
               Ok match encoded with
                  | Ok _ =>
                      if sp_gotoOk pg && sp_scrollOk pg 0 && sp_scrollOk pg 1
                         && sp_extractOk pg
                      then firstn sampleSize
                             (flat_map kept (sp_tweetElements pg))
                      else []
                  | Throw _ => []
                  end).
  { unfold sampleTrendingTweets. destruct encoded as [q|e]; [|reflexivity].
    destruct pg as [g sc x els];
      cbn [scrollSearch sp_gotoOk sp_scrollOk sp_extractOk sp_tweetElements].
    destruct g; [|reflexivity].
    destruct (sc 0); [|reflexivity].
    destruct (sc 1); [|reflexivity].
    destruct x; [|reflexivity].
    cbn. rewrite collect_firstn, Nat.sub_0_r. reflexivity. }
  rewrite Hr. split; [|split; [|split]].
  - intros q -> ->. reflexivity.
  - intros message ->. reflexivity.
  - intros ->. now destruct encoded.
  - intros t Ht. apply in_kept. eapply TrendFacts.firstn_incl; eauto.
Qed.

Lemma sampleTrendingTweets_contract_witness :
  result (sampleTrendingTweets (Ok (lit "Playoffs")) Samples.sampleSearchPage 2) =
  Ok [ lit "What a game that was last night";
       lit "Overtime again, I cannot take this" ].
Proof.
  rewrite (proj1 (sampleTrendingTweets_contract (Ok (lit "Playoffs"))
                    Samples.sampleSearchPage 2) (lit "Playoffs") eq_refl eq_refl).
  vm_compute. reflexivity.
Defined.

End SamplingFacts.

(** ** Trend discovery of the first script *)

Module PostJsTrendFacts.
Import JS PostJsTrends.

Lemma distinctFrom_in seen topics t :
  In t (distinctFrom seen topics) -> In t topics /\ t ∉ seen.
Proof.
  revert seen; induction topics as [|x rest IH]; intros seen; cbn [distinctFrom];
    [intros []|].
  destruct (decide (x ∈ seen)) as [Hx|Hx].
  - intros H. apply IH in H as [H1 H2]. split; [now right|exact H2].
  - intros [<-|H]; [split; [now left|exact Hx]|].
    apply IH in H as [H1 H2]. split; [now right|].
    intros Hs. apply H2. apply elem_of_union. now right.
Qed.

Lemma distinctFrom_NoDup seen topics : List.NoDup (distinctFrom seen topics).
Proof.
  revert seen; induction topics as [|x rest IH]; intros seen; cbn [distinctFrom];
    [constructor|].
  destruct (decide (x ∈ seen)); [apply IH|].
  constructor; [|apply IH].
  intros H. apply distinctFrom_in in H as [_ H]. apply H.
  apply elem_of_union. left. now apply elem_of_singleton.
Qed.

Lemma in_topicOf t elements :
  In t (flat_map topicOf elements) ->
  2 < len t /\ startsWith middleDot t = false /\
  exists textContent, In (Span textContent) elements /\ t = trim textContent.
Proof.
  intros H. apply in_flat_map in H as (el & Hel & Ht).
  destruct el as [|textContent]; cbn [topicOf] in Ht; [contradiction|].
  destruct (truthy textContent); [|contradiction].
  destruct (truthy (trim textContent)); [|contradiction].
  destruct (startsWith middleDot (trim textContent)) eqn:Es; [contradiction|].
  destruct (2 <? len (trim textContent)) eqn:El; [|contradiction].
  cbn in Ht. destruct Ht as [<-|[]]. apply Nat.ltb_lt in El.
  split; [exact El|]. split; [exact Es|]. now exists textContent.
Qed.

(** X22.  The trend discovery of the first script never throws and
    answers at most 10 topics, no two of them equal; each is the
    trimmed text of the first span of a trend element, is longer than
    two code units and does not start with a middle dot; the list is
    empty when the navigation or the extraction fails. *)
Theorem getTrendingTopics_contract :
  forall pg,
  exists trends,
    result (getTrendingTopics pg) = Ok trends /\
    length trends <= 10 /\
    List.NoDup trends /\
    (forall t, In t trends ->
       2 < len t /\ startsWith middleDot t = false /\
       exists textContent,
         In (Span textContent) (tp_elements pg) /\ t = trim textContent) /\
    (tp_gotoOk pg && tp_extractOk pg = false -> trends = []).
Proof.
  intros [g x els]. unfold getTrendingTopics.
  cbn [tp_gotoOk tp_extractOk tp_elements].
  destruct g, x; cbn; eexists; (split; [reflexivity|]);
    try (split; [cbn; lia|]; split; [constructor|];
         split; [intros t []|reflexivity]).
  split; [apply firstn_le_length|].
  split; [apply TrendFacts.firstn_NoDup, distinctFrom_NoDup|].
  split; [|discriminate].
  intros t Ht. apply in_topicOf. apply TrendFacts.firstn_incl in Ht.
  now apply distinctFrom_in in Ht.
Qed.

End PostJsTrendFacts.

(** ** Likes and notifications *)

Module EngageFacts.
Import JS Engage EngageObserve.

(** *** Likes *)

Lemma postsToLike_le chance calculatedLikes :
  postsToLike chance calculatedLikes <= 1.
Proof.
  unfold postsToLike.
  destruct (calculatedLikes =? 0), (Qle_bool (1 # 5) chance),
    (Qle_bool (3 # 5) chance); cbn [negb]; lia.
Qed.

Lemma selectFrom_length pick visibleButtons todo i availableIndices :
  length (selectFrom pick visibleButtons todo i availableIndices) <= todo.
Proof.
  revert i availableIndices; induction todo as [|todo IH];
    intros i availableIndices; cbn [selectFrom]; [reflexivity|].
  destruct (length availableIndices =? 0); cbn [length]; [lia|].
  specialize (IH (S i)
                (splice1 (randomIndex (pick i) (length availableIndices))
                   availableIndices)).
  lia.
Qed.

Lemma visibleFrom_spec allButtons i :
  silent clickOf (visibleFrom allButtons i) /\
  exists visibleButtons,
    result (visibleFrom allButtons i) = Ok visibleButtons /\
    length visibleButtons <= length allButtons.
Proof.
  revert i; induction allButtons as [|button rest IH]; intros i;
    cbn [visibleFrom].
  - split; [apply silent_ret|]. exists []. split; [reflexivity|cbn; lia].
  - destruct (IH (S i)) as (Hs & others & Hr & Hl). split.
    + silence.
    + rewrite result_bind, result_try_catch, result_ask.
      assert (Hv : exists isVisible,
                 match b_visible button with
                 | Ok a => Ok a
                 | Throw e => result (@ret Event bool false)
                 end = Ok isVisible).
      { destruct (b_visible button); eexists; reflexivity. }
      destruct Hv as [isVisible ->].
      rewrite result_bind, Hr, result_ret.
      eexists. split; [reflexivity|]. cbn [length]. destruct isVisible; cbn; lia.
Qed.

(** One selected button: the inner [try] never throws, clicks at most
    once, and counts the button only after a click. *)
Lemma likeOne_spec selected :
  let m := try_catch
             match selected with
             | Some (i, button) => likeOne i button
             | None => throw (lit "Cannot read properties of undefined")
             end
             (fun _ => ret None) in
  exists clicked,
    result m = Ok clicked /\
    length (flat_map clickOf (events m)) <= 1 /\
    (clicked <> None -> length (flat_map clickOf (events m)) = 1).
Proof.
  destruct selected as [[i button]|]; cbn zeta.
  - unfold likeOne.
    destruct button as [v loc [[l|]|e] sc [[|]|e'] ck];
      destruct loc, sc, ck; cbn;
      try destruct (truthy l); cbn;
      eexists; (split; [reflexivity|]); (split; [lia|]);
      intros H; try reflexivity; exfalso; now apply H.
  - exists None. cbn. split; [reflexivity|]. split; [lia|]. now intros [].
Qed.

Lemma likeAll_spec selectedButtons likedCount likedPostLinks :
  exists count links,
    result (likeAll selectedButtons likedCount likedPostLinks) = Ok (count, links) /\
    likedCount <= count /\
    count - likedCount <=
      length (flat_map clickOf
                (events (likeAll selectedButtons likedCount likedPostLinks))) /\
    length (flat_map clickOf
              (events (likeAll selectedButtons likedCount likedPostLinks)))
      <= length selectedButtons /\
    length links + likedCount <= length likedPostLinks + count.
Proof.
  revert likedCount likedPostLinks;
    induction selectedButtons as [|selected rest IH];
    intros likedCount likedPostLinks; cbn [likeAll].
  - exists likedCount, likedPostLinks. cbn. repeat split; lia.
  - destruct (likeOne_spec selected) as (clicked & Hr & Hle & Hone).
    cbn zeta in *. rewrite result_bind, project_bind, Hr, length_app.
    destruct clicked as [postLink|].
    + specialize (Hone ltac:(discriminate)).
      destruct (IH (S likedCount)
                  match postLink with
                  | Some link => likedPostLinks ++ [link]
                  | None => likedPostLinks
                  end) as (count & links & Hres & H1 & H2 & H3 & H4).
      exists count, links. split; [exact Hres|].
      assert (length match postLink with
                     | Some link => likedPostLinks ++ [link]
                     | None => likedPostLinks
                     end <= S (length likedPostLinks)).
      { destruct postLink; [rewrite length_app; cbn|]; lia. }
      cbn [length]. repeat split; lia.
    + destruct (IH likedCount likedPostLinks)
        as (count & links & Hres & H1 & H2 & H3 & H4).
      exists count, links. split; [exact Hres|].
      cbn [length]. repeat split; lia.
Qed.

(** X25.  One call of [likeRandomPosts] never throws and clicks at most
    one like button, whatever the percentage asked for and however many
    buttons are visible; the count it reports is the number of clicks
    that went through, it is never more than the number of visible
    buttons it reports, and it reports at most one link per like. *)
Theorem likeRandomPosts_at_most_one :
  forall floorPercent pg likePercentage,
  exists r,
    result (likeRandomPosts floorPercent pg likePercentage) = Ok r /\
    LoginX.liked r <= 1 /\
    LoginX.liked r <= LoginX.available r /\
    length (LoginX.likedPostLinks r) <= LoginX.liked r /\
    LoginX.liked r <=
      length (flat_map clickOf
                (events (likeRandomPosts floorPercent pg likePercentage))) /\
    length (flat_map clickOf
              (events (likeRandomPosts floorPercent pg likePercentage))) <= 1.
Proof.
  intros floorPercent pg likePercentage. unfold likeRandomPosts.
  rewrite result_try_catch, project_try_catch, result_bind, project_bind,
    events_ask, result_ask.
  cbn [flat_map clickOf app].
  destruct (lp_buttons pg) as [allButtons|e];
    [|eexists; split; [reflexivity|]; cbn; repeat split; lia].
  assert (Hcount : forall available,
    exists r,
      match
        result (bind (ask CountTweets (lp_tweets pg)) (fun totalTweets =>
                  @ret Event _ (LoginX.mkLikeResult 0 totalTweets available [])))
      with
      | Ok a => Ok a
      | Throw _ => Ok (LoginX.mkLikeResult 0 0 0 [])
      end = Ok r /\
      LoginX.liked r = 0 /\ LoginX.likedPostLinks r = []).
  { intros available. rewrite result_bind, result_ask.
    destruct (lp_tweets pg); eexists; (split; [reflexivity|]); now split. }
  assert (Hquiet : forall available,
    flat_map clickOf
      (events (bind (ask CountTweets (lp_tweets pg)) (fun totalTweets =>
                 @ret Event _ (LoginX.mkLikeResult 0 totalTweets available []))))
    = []).
  { intros available. rewrite project_bind, events_ask.
    destruct (result (ask CountTweets (lp_tweets pg))); reflexivity. }
  destruct (length allButtons =? 0).
  { destruct (Hcount 0) as (r & Hr & H0 & Hl). exists r.
    split; [exact Hr|]. rewrite Hquiet, H0, Hl.
    match goal with
    | |- context [match ?x with Ok _ => [] | Throw _ => _ end] => destruct x
    end; cbn; repeat split; lia. }
  destruct (visibleFrom_spec allButtons 0) as (Hs & visibleButtons & Hv & Hvl).
  rewrite result_bind, project_bind, Hv, Hs. cbn [app].
  destruct (length visibleButtons =? 0) eqn:Evis.
  { destruct (Hcount 0) as (r & Hr & H0 & Hl). exists r.
    split; [exact Hr|]. rewrite Hquiet, H0, Hl.
    match goal with
    | |- context [match ?x with Ok _ => [] | Throw _ => _ end] => destruct x
    end; cbn; repeat split; lia. }
  apply Nat.eqb_neq in Evis.
  rewrite result_bind, project_bind, events_ask, result_ask.
  cbn [flat_map clickOf app].
  destruct (lp_tweets pg) as [totalTweets|e];
    [|eexists; split; [reflexivity|]; cbn; repeat split; lia].
  set (todo := postsToLike (lp_chance pg)
                 (floorPercent (length visibleButtons) likePercentage)).
  pose proof (postsToLike_le (lp_chance pg)
                (floorPercent (length visibleButtons) likePercentage)) as Htodo.
  fold todo in Htodo.
  destruct (todo =? 0).
  { eexists. split; [reflexivity|]. cbn. repeat split; lia. }
  set (selectedButtons := selectFrom (lp_pick pg) visibleButtons todo 0
                            (seq 0 (length visibleButtons))).
  pose proof (selectFrom_length (lp_pick pg) visibleButtons todo 0
                (seq 0 (length visibleButtons))) as Hsel.
  fold selectedButtons in Hsel.
  destruct (likeAll_spec selectedButtons 0 [])
    as (count & links & Hres & H1 & H2 & H3 & H4).
  rewrite result_bind, project_bind, Hres. cbn [result events ret fst snd].
  eexists. split; [reflexivity|].
  cbn [LoginX.liked LoginX.available LoginX.likedPostLinks flat_map app length]
    in *.
  rewrite !app_nil_r. repeat split; lia.
Qed.

(** *** Notifications *)

Lemma safeNavigate_quiet answer url : silent replyOf (safeNavigate answer url).
Proof. unfold safeNavigate. silence. Qed.

Lemma findLink_quiet pg selectors i : silent replyOf (findLink pg selectors i).
Proof.
  revert i; induction selectors as [|selector rest IH]; intros i;
    cbn [findLink]; silence.
Qed.

Lemma openNotifications_spec pg :
  silent replyOf (openNotifications pg) /\
  exists opened, result (openNotifications pg) = Ok opened.
Proof.
  split.
  - pose proof safeNavigate_quiet. pose proof findLink_quiet.
    unfold openNotifications. silence.
  - apply try_catch_total. intros; now exists false.
Qed.

Lemma replyIndicesFrom_lt notifications index i :
  In i (replyIndicesFrom notifications index) ->
  index <= i < index + length notifications.
Proof.
  revert index; induction notifications as [|notif rest IH]; intros index;
    cbn [replyIndicesFrom length]; [intros []|].
  destruct (isReply notif).
  - intros [<-|H]; [lia|]. apply IH in H. lia.
  - intros H. apply IH in H. lia.
Qed.

Lemma getReplyNotifications_spec pg :
  silent replyOf (getReplyNotifications pg) /\
  exists replyIndices,
    result (getReplyNotifications pg) = Ok replyIndices /\
    (replyIndices = [] \/
     exists notifications,
       np_notifications pg = Ok notifications /\
       replyIndices = replyIndicesFrom notifications 0).
Proof.
  split.
  - unfold getReplyNotifications. silence.
  - unfold getReplyNotifications.
    destruct (np_notifications pg) as [notifications|e]; cbn.
    + eexists. split; [reflexivity|]. right. now exists notifications.
    + eexists. split; [reflexivity|]. now left.
Qed.

Lemma replyAll_spec pg notificationsToReply repliedCount :
  flat_map replyOf (events (replyAll pg notificationsToReply repliedCount)) =
    notificationsToReply /\
  exists count,
    result (replyAll pg notificationsToReply repliedCount) = Ok count /\
    repliedCount <= count <= repliedCount + length notificationsToReply.
Proof.
  revert repliedCount;
    induction notificationsToReply as [|index rest IH]; intros repliedCount;
    cbn [replyAll].
  - split; [reflexivity|]. exists repliedCount. split; [reflexivity|cbn; lia].
  - set (turn := try_catch _ _).
    assert (Ht : flat_map replyOf (events turn) = [index] /\
                 exists c, result turn = Ok c /\
                           repliedCount <= c <= S repliedCount).
    { unfold turn. destruct (np_reply pg index) as [[|]|e]; cbn;
        (split; [reflexivity|]); eexists; (split; [reflexivity|]); lia. }
    destruct Ht as (He & c & Hc & Hle).
    destruct (IH c) as (Hev & count & Hres & Hcount).
    rewrite project_bind, result_bind, Hc, He, Hev. split; [reflexivity|].
    exists count. split; [exact Hres|]. cbn [length]. lia.
Qed.

(** X26.  Handling the notifications never throws.  It replies to at
    most three notifications, the first three reply notifications of
    the page in order, each one a notification of the page; the number
    it reports is at most the number of replies it asked for, and it is
    0 whenever it reports that the check failed. *)
Theorem checkAndReplyToNotifications_bounds :
  forall pg,
  exists checked replied,
    result (checkAndReplyToNotifications pg) = Ok (checked, replied) /\
    let asked := flat_map replyOf (events (checkAndReplyToNotifications pg)) in
    length asked <= 3 /\
    replied <= length asked /\
    (checked = false -> replied = 0) /\
    (asked = [] \/
     exists notifications,
       np_notifications pg = Ok notifications /\
       asked = firstn 3 (replyIndicesFrom notifications 0) /\
       forall i, In i asked -> i < length notifications).
Proof.
  intros pg. cbn zeta.
  destruct (openNotifications_spec pg) as (Hoq & opened & Ho).
  destruct (getReplyNotifications_spec pg) as (Hgq & replyIndices & Hg & Hfrom).
  destruct (replyAll_spec pg (firstn 3 replyIndices) 0)
    as (Hasked & count & Hcount & Hle).
  assert (Hnav : forall answer,
             flat_map replyOf (events (safeNavigate answer homeUrl)) = []).
  { intros. apply safeNavigate_quiet. }
  assert (Hrec :
    flat_map replyOf
      (events (bind (try_catch
                       (bind (safeNavigate (np_recoverNav pg) homeUrl)
                          (fun _ => @ret Event _ tt))
                       (fun _ => ret tt))
                 (fun _ => @ret Event _ (false, 0)))) = [] /\
    result (bind (try_catch
                    (bind (safeNavigate (np_recoverNav pg) homeUrl)
                       (fun _ => @ret Event _ tt))
                    (fun _ => ret tt))
              (fun _ => @ret Event _ (false, 0))) = Ok (false, 0)).
  { unfold safeNavigate.
    destruct (np_recoverNav pg) as [[]|e]; cbn;
      [|destruct (isTunnelError e)]; split; reflexivity. }
  destruct Hrec as [Hrq Hrr].
  assert (Hback :
    forall (b : bool) (n : nat),
      let m := bind (safeNavigate (np_homeNav pg) homeUrl) (fun _ =>
               bind (emit (Sleep 1000)) (fun _ => @ret Event _ (b, n))) in
      flat_map replyOf (events m) = [] /\
      (result m = Ok (b, n) \/ exists e, result m = Throw e)).
  { intros b n. unfold safeNavigate.
    destruct (np_homeNav pg) as [[]|e]; cbn;
      [|destruct (isTunnelError e)]; split; eauto. }
  unfold checkAndReplyToNotifications.
  rewrite result_try_catch, project_try_catch, result_bind, project_bind, Ho, Hoq.
  cbn [app].
  destruct opened; cbn [negb].
  2:{ exists false, 0. cbn. repeat split; auto. }
  rewrite result_bind, project_bind, Hg, Hgq. cbn [app].
  destruct (length replyIndices =? 0) eqn:El.
  - destruct (Hback true 0) as [Hq [Hr|[e Hr]]]; cbn zeta in Hq, Hr;
      rewrite Hq, Hr, ?Hrq, ?Hrr.
    + exists true, 0. cbn. repeat split; auto.
    + exists false, 0. cbn. repeat split; auto.
  - rewrite result_bind, project_bind, Hcount, Hasked.
    assert (Hlen : length (firstn 3 replyIndices) <= 3).
    { rewrite length_firstn. lia. }
    assert (Horigin :
      firstn 3 replyIndices = [] \/
      exists notifications,
        np_notifications pg = Ok notifications /\
        firstn 3 replyIndices = firstn 3 (replyIndicesFrom notifications 0) /\
        forall i, In i (firstn 3 replyIndices) -> i < length notifications).
    { destruct Hfrom as [->|(notifications & Hn & ->)]; [now left|].
      right. exists notifications. split; [exact Hn|]. split; [reflexivity|].
      intros i Hi. apply TrendFacts.firstn_incl in Hi.
      apply replyIndicesFrom_lt in Hi. lia. }
    destruct (Hback true count) as [Hq [Hr|[e Hr]]]; cbn zeta in Hq, Hr;
      rewrite Hq, Hr, ?Hrq, ?Hrr, ?app_nil_r.
    + exists true, count. split; [reflexivity|].
      split; [exact Hlen|]. split; [lia|]. split; [discriminate|exact Horigin].
    + exists false, 0. split; [reflexivity|].
      split; [exact Hlen|]. split; [lia|]. split; [reflexivity|exact Horigin].
Qed.

End EngageFacts.

(** ** More on the continuous loop *)

Module LoopMore.
Import JS LoginX EngageObserve.

Lemma div_succ k s :
  0 < k -> S s / k = s / k + (if S s mod k =? 0 then 1 else 0).
Proof.
  intros Hk.
  pose proof (Nat.div_mod_eq s k) as H1.
  pose proof (Nat.div_mod_eq (S s) k) as H2.
  pose proof (Nat.mod_upper_bound s k ltac:(lia)) as H3.
  pose proof (Nat.mod_upper_bound (S s) k ltac:(lia)) as H4.
  destruct (S s mod k =? 0) eqn:E.
  - apply Nat.eqb_eq in E. nia.
  - apply Nat.eqb_neq in E. nia.
Qed.

Lemma logLikes_quiet {X} (f : Event -> list X) scrolls commented links :
  (forall r, f (AppendCsvEntry r) = []) ->
  silent f (logLikes scrolls commented links).
Proof.
  intros Hf. induction links as [|link rest IH]; cbn [logLikes]; silence.
Qed.

Lemma likeStep_quiet {X} (f : Event -> list X) a scrolls st :
  (forall r, f (AppendCsvEntry r) = []) -> (forall p, f (LikeRandomPosts p) = []) ->
  silent f (likeStep a scrolls st).
Proof.
  intros H1 H2. pose proof (fun s c l => logLikes_quiet f s c l H1).
  unfold likeStep. silence.
Qed.

(** One pass that goes through. *)
Lemma pass_cadence w st st' :
  result (pass w st) = Ok st' ->
  scrollAttempts st' = S (scrollAttempts st) /\
  flat_map commentOf (events (pass w st)) =
    (if (S (scrollAttempts st) mod 20 =? 0) && w_apiKey w then [tt] else []) /\
  flat_map notificationCheckOf (events (pass w st)) =
    (if (S (scrollAttempts st) mod 50 =? 0) && w_apiKey w then [tt] else []) /\
  totalCommented st <= totalCommented st' /\
  totalCommented st' <=
    totalCommented st + length (flat_map commentOf (events (pass w st))).
Proof.
  unfold pass. set (a := w_pass w (scrollAttempts st)).
  set (scrolls := S (scrollAttempts st)).
  pose proof (likeStep_quiet commentOf a scrolls st (fun _ => eq_refl)
                (fun _ => eq_refl)) as Hlc.
  pose proof (likeStep_quiet notificationCheckOf a scrolls st (fun _ => eq_refl)
                (fun _ => eq_refl)) as Hln.
  destruct (LoopFacts.likeStep_returns a scrolls st) as [l Hl].
  unfold silent in Hlc, Hln.
  repeat progress
    (rewrite ?result_bind, ?project_bind, ?result_call, ?events_call,
       ?result_emit, ?events_emit, ?result_ask, ?events_ask, ?Hl, ?Hlc, ?Hln,
       ?LoopFacts.notificationStep_returns, ?LoopFacts.progressStep_returns;
     cbv beta iota; cbn [flat_map commentOf notificationCheckOf app]).
  destruct (pa_scrollOk a); [|discriminate].
  destruct (pa_tweets a) as [tweets|e]; [|discriminate].
  repeat progress
    (rewrite ?result_bind, ?project_bind, ?result_call, ?events_call,
       ?result_emit, ?events_emit, ?result_ask, ?events_ask, ?Hl, ?Hlc, ?Hln,
       ?LoopFacts.notificationStep_returns, ?LoopFacts.progressStep_returns;
     cbv beta iota; cbn [flat_map commentOf notificationCheckOf app]).
  assert (Hprog : forall c,
             flat_map commentOf (events (progressStep scrolls tweets l c)) = [] /\
             flat_map notificationCheckOf
               (events (progressStep scrolls tweets l c)) = []).
  { intros c. unfold progressStep. destruct (scrolls mod 5 =? 0); now split. }
  assert (Hnot :
    flat_map commentOf (events (notificationStep w a scrolls)) = [] /\
    flat_map notificationCheckOf (events (notificationStep w a scrolls)) =
      (if (scrolls mod 50 =? 0) && w_apiKey w then [tt] else [])).
  { unfold notificationStep.
    destruct ((scrolls mod 50 =? 0) && w_apiKey w); [|now split].
    destruct (pa_notificationsOk a); now split. }
  destruct Hnot as [Hnc Hnn].
  assert (Hcom : exists c,
    result (commentStep w a scrolls st) = Ok c /\
    flat_map commentOf (events (commentStep w a scrolls st)) =
      (if (scrolls mod 20 =? 0) && w_apiKey w then [tt] else []) /\
    flat_map notificationCheckOf (events (commentStep w a scrolls st)) = [] /\
    totalCommented st <= c /\
    c <= totalCommented st +
         length (if (scrolls mod 20 =? 0) && w_apiKey w then [tt] else [])).
  { unfold commentStep.
    destruct ((scrolls mod 20 =? 0) && w_apiKey w).
    - destruct (pa_comment a) as [[[|] ? ?]|e]; cbn; eexists;
        (split; [reflexivity|]); repeat split; lia.
    - eexists. split; [reflexivity|]. cbn. repeat split; lia. }
  destruct Hcom as (c & Hc & Hcc & Hcn & Hc1 & Hc2).
  destruct (Hprog c) as [Hp1 Hp2].
  rewrite Hc, Hcc, Hcn. cbv beta iota.
  repeat progress
    (rewrite ?result_bind, ?project_bind, ?result_ret, ?events_ret,
       ?LoopFacts.notificationStep_returns, ?LoopFacts.progressStep_returns,
       ?Hnc, ?Hnn, ?Hp1, ?Hp2;
     cbv beta iota; cbn [flat_map app]).
  intros [= <-]. cbn [scrollAttempts totalCommented].
  rewrite ?app_nil_r.
  repeat split; try reflexivity; try lia.
Qed.

Lemma scrollFeedFrom_cadence w n st st' :
  result (scrollFeedFrom w n st) = Ok st' ->
  scrollAttempts st' = scrollAttempts st + n /\
  length (flat_map commentOf (events (scrollFeedFrom w n st))) =
    (if w_apiKey w
     then (scrollAttempts st + n) / 20 - scrollAttempts st / 20 else 0) /\
  length (flat_map notificationCheckOf (events (scrollFeedFrom w n st))) =
    (if w_apiKey w
     then (scrollAttempts st + n) / 50 - scrollAttempts st / 50 else 0) /\
  totalCommented st' <=
    totalCommented st +
    length (flat_map commentOf (events (scrollFeedFrom w n st))).
Proof.
  revert st; induction n as [|n IH]; intros st; cbn [scrollFeedFrom].
  - intros [= <-]. rewrite Nat.add_0_r, !Nat.sub_diag. cbn.
    destruct (w_apiKey w); repeat split; lia.
  - rewrite result_bind, !project_bind.
    destruct (result (pass w st)) as [st1|e] eqn:Hp; [|discriminate].
    destruct (pass_cadence w st st1 Hp) as (H1 & H2 & H3 & H4 & H5).
    intros Hr. destruct (IH st1 Hr) as (I1 & I2 & I3 & I4).
    rewrite !length_app, I2, I3, H2, H3 in *. rewrite H1 in *.
    pose proof (div_succ 20 (scrollAttempts st) ltac:(lia)) as D20.
    pose proof (div_succ 50 (scrollAttempts st) ltac:(lia)) as D50.
    pose proof (Nat.Div0.div_le_mono (S (scrollAttempts st))
                  (S (scrollAttempts st) + n) 20 ltac:(lia)) as M20.
    pose proof (Nat.Div0.div_le_mono (S (scrollAttempts st))
                  (S (scrollAttempts st) + n) 50 ltac:(lia)) as M50.
    replace (scrollAttempts st + S n) with (S (scrollAttempts st) + n) by lia.
    destruct (w_apiKey w); rewrite ?andb_true_r, ?andb_false_r in *;
      cbn [length] in *;
      destruct (S (scrollAttempts st) mod 20 =? 0),
               (S (scrollAttempts st) mod 50 =? 0);
      cbn [length] in *; repeat split; lia.
Qed.

(** X27.  The cadence of the loop.  After [n] passes that went through,
    the loop has scrolled [n] times, has tried a comment on every 20th
    pass and looked at the notifications on every 50th, and on no
    other; without an API key it has tried neither.  The number of
    comments it counts is at most the number of comments it tried. *)
Theorem scrollFeed_cadence :
  forall w n st,
    result (scrollFeed w n) = Ok st ->
    scrollAttempts st = n /\
    length (flat_map commentOf (events (scrollFeed w n))) =
      (if w_apiKey w then n / 20 else 0) /\
    length (flat_map notificationCheckOf (events (scrollFeed w n))) =
      (if w_apiKey w then n / 50 else 0) /\
    totalCommented st <= (if w_apiKey w then n / 20 else 0).
Proof.
  intros w n st Hr. unfold scrollFeed in *.
  destruct (scrollFeedFrom_cadence w n (mkCounters 0 0 0) st Hr)
    as (H1 & H2 & H3 & H4).
  cbn [scrollAttempts totalCommented] in *.
  change (0 / 20) with 0 in *. change (0 / 50) with 0 in *.
  rewrite Nat.add_0_l, Nat.sub_0_r in *.
  repeat split; try assumption. rewrite <- H2. lia.
Qed.

Lemma scrollFeed_cadence_witness :
  length (flat_map commentOf (events (scrollFeed LoopObserve.cancelledWorld 40)))
  = 2.
Proof.
  exact (proj1 (proj2 (scrollFeed_cadence LoopObserve.cancelledWorld 40
                         (mkCounters 40 0 0) eq_refl))).
Defined.

End LoopMore.

(** ** The first posting script *)

Module PostJsFacts.
Import JS AutoPost Observe Samples.

(** X23.  In the first script the shortcut is authoritative: once the
    content is typed and Ctrl+Enter (or the injected key event) went
    through, [postTweetWithEnter] answers [true] whatever the
    verification says, and leaves the warning behind when it says
    [false]. *)
Theorem postTweetWithEnter_ignores_verification :
  forall pg text,
    result (PostJs.reachShortcut pg text) = Ok tt ->
    result (PostJs.pressCtrlEnter pg) = Ok tt ->
    result (PostJs.postTweetWithEnter pg text) = Ok true /\
    (result (PostJs.verifyTweetPosted (PostJs.e_verify pg)) = Ok false ->
     In VerificationInconclusive (events (PostJs.postTweetWithEnter pg text))).
Proof.
  intros pg text Hr Hp.
  assert (Hv : exists v,
             result (PostJs.verifyTweetPosted (PostJs.e_verify pg)) = Ok v).
  { apply try_catch_total. intros; now exists false. }
  destruct Hv as [v Hv]. unfold PostJs.postTweetWithEnter. split.
  - rewrite result_try_catch, !result_bind, Hr, Hp, result_emit, Hv.
    now destruct v.
  - intros Hf. rewrite Hv in Hf. injection Hf as ->.
    rewrite events_try_catch, !result_bind, Hr, Hp, result_emit, Hv.
    cbn [result ret bind snd].
    rewrite !events_bind, Hr, Hp, result_emit, Hv, events_emit.
    cbv beta iota. rewrite events_bind, events_emit.
    rewrite !in_app_iff. cbn [In app]. left. do 4 right. left. now left.
Qed.

Lemma postTweetWithEnter_ignores_verification_witness :
  result (PostJs.postTweetWithEnter healthyEnterPage (lit "hello")) = Ok true /\
  In VerificationInconclusive
    (events (PostJs.postTweetWithEnter healthyEnterPage (lit "hello"))).
Proof.
  destruct (postTweetWithEnter_ignores_verification healthyEnterPage
              (lit "hello") eq_refl eq_refl) as [Hr Hw].
  split; [exact Hr|exact (Hw eq_refl)].
Defined.


End PostJsFacts.

(** ** More on the sessions and the comments of the engagement bot *)

Module BotFacts.
Import JS Samples EngageObserve.

(** X28.  A stored session none of whose cookies passes the filter: the
    engagement bot answers [false] and sets nothing, neither cookies
    nor storage, while the posting pipeline goes on, writes the local
    storage and answers [true] as long as the page answers. *)
Theorem applySessionCookies_without_valid_cookie :
  forall sessionData,
    Session.cleanCookies (Session.cookies sessionData) = [] ->
    (forall pg,
       result (LoginX.applySessionCookies pg sessionData) = Ok false /\
       flat_map storageOf (events (LoginX.applySessionCookies pg sessionData))
         = []) /\
    (forall pg,
       AutoPost.cp_gotoOk pg = true -> AutoPost.cp_storageOk pg = true ->
       result (AutoPost.applySessionCookies pg sessionData) = Ok true /\
       flat_map SessionObserve.appliedBy
         (events (AutoPost.applySessionCookies pg sessionData)) = []).
Proof.
  intros sessionData Hc. split.
  - intros pg. unfold LoginX.applySessionCookies. rewrite Hc.
    destruct (LoginX.cp_gotoOk pg); split; reflexivity.
  - intros pg Hg Hs. unfold AutoPost.applySessionCookies. rewrite Hc, Hg, Hs.
    destruct (Session.localStorage sessionData); split; reflexivity.
Qed.

Lemma applySessionCookies_without_valid_cookie_witness :
  result (LoginX.applySessionCookies (LoginX.mkCookiePage true true true true)
            emptySession) = Ok false /\
  result (AutoPost.applySessionCookies (AutoPost.mkCookiePage true true true)
            emptySession) = Ok true.
Proof.
  destruct (applySessionCookies_without_valid_cookie emptySession eq_refl)
    as [Hbot Hpost].
  split.
  - exact (proj1 (Hbot (LoginX.mkCookiePage true true true true))).
  - exact (proj1 (Hpost (AutoPost.mkCookiePage true true true) eq_refl eq_refl)).
Defined.

(** X29.  Generating a comment never throws and calls the service at
    most once; without an API key, or for a post of fewer than 10 code
    units, it calls nothing and answers [null].  A comment it answers
    is the trimmed text of the service, cut to 277 code units and an
    ellipsis when longer than 280: never more than 280 code units. *)
Theorem generateAIComment_contract :
  forall apiKey response postText,
  exists r,
    result (LoginX.generateAIComment apiKey response postText) = Ok r /\
    length (flat_map apiCallOf
              (events (LoginX.generateAIComment apiKey response postText))) <= 1 /\
    (apiKey = false \/ len postText < 10 ->
     r = None /\
     events (LoginX.generateAIComment apiKey response postText) = []) /\
    (forall comment, r = Some comment ->
       len comment <= 280 /\
       exists raw, response = AutoPost.ApiContent raw /\
                   comment = LoginX.commentOfRaw raw).
Proof.
  intros apiKey response postText. unfold LoginX.generateAIComment.
  destruct apiKey; cbn [negb].
  2:{ exists None. cbn. split; [reflexivity|]. split; [lia|].
      split; [now split|discriminate]. }
  destruct (negb (truthy postText) || (len postText <? 10)) eqn:E.
  { exists None. cbn. split; [reflexivity|]. split; [lia|].
    split; [now split|discriminate]. }
  apply orb_false_elim in E as [_ E]. apply Nat.ltb_ge in E.
  destruct response as [message| | |raw]; cbn; eexists;
    (split; [reflexivity|]); (split; [lia|]);
    (split; [intros [H|H]; [discriminate H|lia]|]);
    try discriminate.
  intros comment [= <-]. split; [apply GeneratorFacts.commentOfRaw_length|].
  now exists raw.
Qed.

End BotFacts.

(** ** The dashboard reads the log of the pipeline *)

Module DashboardFacts.
Import JS Csv.

Lemma parseCSVLine_csvRow d : parseCSVLine (csvRow d) = map trim (cellsOf d).
Proof.
  unfold parseCSVLine, csvRow, cellsOf. cbn [map].
  rewrite !CsvFacts.join_cons by discriminate. cbn [join].
  repeat (rewrite CsvFacts.parseFrom_cell by (right; eexists; reflexivity);
          cbn [parseFrom app]; change (comma =? quote)%N with false;
          rewrite N.eqb_refl; cbn [negb andb]; f_equal).
  rewrite <- (app_nil_r (escapeCSV (Some (d_method d)))).
  rewrite CsvFacts.parseFrom_cell by now left. reflexivity.
Qed.

(** The names of the columns, as [parseCSV] reads them off the header
    line of the pipeline. *)
Lemma post_headers :
  map stripOuterQuotes (parseCSVLine csvHeader) =
  [ lit "Timestamp"; lit "Date"; lit "Time"; lit "Trending Topic";
    lit "Topic Context"; lit "Tweet Volume"; lit "Post Content";
    lit "Post Length"; lit "Success"; lit "Retry Count"; lit "Model Used";
    lit "Temperature"; lit "Method" ].
Proof. vm_compute. reflexivity. Qed.

Lemma success_column v1 v2 v3 v4 v5 v6 v7 v8 v9 v10 v11 v12 v13 :
  fillRow (map stripOuterQuotes (parseCSVLine csvHeader)) 0
    [v1; v2; v3; v4; v5; v6; v7; v8; v9; v10; v11; v12; v13] ∅
    !! lit "Success" = Some (stripOuterQuotes v9).
Proof.
  rewrite post_headers. cbn [fillRow cellAt nth_error].
  repeat (rewrite lookup_insert_ne by (vm_compute; discriminate)).
  apply lookup_insert_eq.
Qed.

Lemma success_of_row d :
  fillRow (map stripOuterQuotes (parseCSVLine csvHeader)) 0
    (map trim (cellsOf d)) ∅ !! lit "Success" =
  Some (if d_success d then lit "Yes" else lit "No").
Proof.
  unfold cellsOf. cbn [map]. rewrite success_column.
  destruct (d_success d); vm_compute; reflexivity.
Qed.

Lemma rowsOf_written headers ds :
  length headers = 13 ->
  rowsOf headers (map csvRow ds) =
  map (fun d => fillRow headers 0 (map trim (cellsOf d)) ∅) ds.
Proof.
  intros Hh. induction ds as [|d ds IH]; [reflexivity|].
  cbn [map rowsOf]. rewrite CsvFacts.csvRow_nonBlank. cbn [negb].
  rewrite parseCSVLine_csvRow, Hh, IH. reflexivity.
Qed.

(** X21.  The dashboard reads the log of the pipeline exactly: as long
    as no cell holds a newline, [parseCSV] gives one row object per
    post, and the count of the /api/stats route, the rows whose
    Success column is Yes, is the number of successful posts, whatever
    the texts of the posts contain. *)
Theorem parseCSV_counts_successful_posts :
  forall ds,
    (forall d, In d ds -> singleLine d) ->
    length (parseCSV (Some (logFile csvHeader ds))) = length ds /\
    successfulRows (parseCSV (Some (logFile csvHeader ds))) =
      length (List.filter d_success ds).
Proof.
  intros ds Hds. unfold parseCSV, logFile, splitLines.
  rewrite CsvFacts.splitFrom_line
    by (vm_compute; intuition discriminate).
  cbn [app List.filter].
  change (nonBlank csvHeader) with true. cbv iota.
  rewrite CsvFacts.splitFrom_rows, CsvFacts.filter_nonBlank_rows by exact Hds.
  destruct ds as [|d0 ds0]; [split; reflexivity|].
  set (ds := d0 :: ds0) in *.
  replace (length (csvHeader :: map csvRow ds) <=? 1) with false
    by (symmetry; apply Nat.leb_gt; unfold ds; cbn; lia).
  rewrite rowsOf_written by (rewrite post_headers; reflexivity).
  split; [apply length_map|].
  unfold successfulRows. clearbody ds. clear Hds.
  induction ds as [|d ds IH]; [reflexivity|].
  cbn [map List.filter].
  rewrite success_of_row.
  destruct (d_success d);
    [change (streq (lit "Yes") (lit "Yes")) with true
    |change (streq (lit "No") (lit "Yes")) with false];
    cbv iota; cbn [length]; now rewrite IH.
Qed.

Lemma parseCSV_counts_successful_posts_witness :
  successfulRows
    (parseCSV (Some (logFile csvHeader [Samples.successRow; Samples.failureRow])))
  = 1.
Proof.
  refine (proj2 (parseCSV_counts_successful_posts
                   [Samples.successRow; Samples.failureRow] _)).
  intros d [<-|[<-|[]]] c Hc Hn; vm_compute in Hc;
    repeat (destruct Hc as [<-|Hc]; [vm_compute in Hn; intuition discriminate|]);
    exact Hc.
Defined.

End DashboardFacts.

(** ** Starting and stopping the posting script *)

Module SupervisorFacts.
Import Supervisor.

Lemma running_process st child :
  running st = Some child -> postAutomationProcess st = Some child.
Proof.
  unfold running. destruct (postAutomationProcess st) as [c|]; [|discriminate].
  destruct (killed st c); [discriminate|congruence].
Qed.

Lemma initial_consistent : Consistent initial.
Proof. split; cbn; intros; try contradiction; discriminate. Qed.

Lemma signalled_consistent st k outcome :
  Consistent st -> k_timerOf k = None -> Consistent (signalled st k outcome).
Proof.
  intros [H1 H2 H3 H4] Hk. split; cbn; auto.
  intros k' origin [<-|Hin] Ho; [congruence|eauto].
Qed.

Lemma cleared_consistent st :
  (forall origin, In origin (pendingTimers st) -> origin < spawned st) ->
  (forall k origin,
     In k (kills st) -> k_timerOf k = Some origin -> origin < k_target k) ->
  Consistent (setProcess st None).
Proof. intros H1 H4. split; cbn; auto; discriminate. Qed.

Lemma setProcess_none_consistent st :
  Consistent st -> Consistent (setProcess st None).
Proof. intros [H1 H2 H3 H4]. now apply cleared_consistent. Qed.

Lemma step_consistent st t : Consistent st -> Consistent (step st t).
Proof.
  intros Hc. unfold step. destruct (crashed st); [exact Hc|].
  destruct t as [credentials spawnOk outcome| |isWindows outcome|outcome
                |child|child|]; try exact Hc.
  - unfold startRequest. destruct (running st) eqn:Er; [exact Hc|].
    destruct credentials; cbn [negb]; [|exact Hc].
    destruct spawnOk.
    + destruct Hc as [H1 H2 H3 H4]. split; cbn; auto.
      * intros origin Hin. specialize (H1 origin Hin). lia.
      * intros child [= <-]. lia.
      * intros origin child Hin [= <-]. auto.
    + destruct (postAutomationProcess st) as [child|]; [|exact Hc].
      destruct outcome;
        try apply setProcess_none_consistent;
        now apply signalled_consistent.
  - unfold stopRequest. destruct (running st) as [child|] eqn:Er; [|exact Hc].
    apply running_process in Er.
    destruct Hc as [G1 G2 G3 G4].
    assert (Hk : forall outcome' k origin,
               In k (kills (signalled st (mkKill SIGTERM child None) outcome')) ->
               k_timerOf k = Some origin -> origin < k_target k).
    { intros outcome' k origin [<-|Hin] Ho; [discriminate Ho|eauto]. }
    apply cleared_consistent.
    + destruct isWindows; [exact G1|].
      destruct outcome; cbn; auto;
        intros origin Hin; apply in_app_or in Hin as [Hin|[<-|[]]]; auto.
    + destruct isWindows; [exact G4|].
      destruct outcome; cbn [kills]; apply Hk.
  - unfold timerFires. destruct (pendingTimers st) as [|origin rest] eqn:Et;
      [exact Hc|].
    destruct Hc as [H1 H2 H3 H4]. rewrite Et in H1, H3.
    set (st1 := mkState (postAutomationProcess st) (killed st) (spawned st) rest
                  (kills st) (treeKills st) (crashed st)).
    assert (Hc1 : Consistent st1).
    { split; cbn; auto.
      - intros o Ho. apply H1. now right.
      - intros o c Ho Hp. eapply H3; eauto. now right. }
    destruct (running st1) as [child|] eqn:Er; [|exact Hc1].
    apply running_process in Er. cbn in Er.
    assert (Hlt : origin < child) by (eapply H3; eauto; now left).
    assert (Hc2 : forall outcome',
               Consistent (signalled st1 (mkKill SIGKILL child (Some origin))
                             outcome')).
    { intros outcome'. destruct Hc1 as [G1 G2 G3 G4]. split; cbn; auto.
      intros k o [<-|Hin] Ho; [cbn in *; congruence|eauto]. }
    destruct outcome; try apply Hc2.
    destruct (Hc2 KillThrows) as [G1 G2 G3 G4]. split; cbn in *; auto.
  - unfold childGone. destruct (child <? spawned st); [|exact Hc].
    now apply setProcess_none_consistent.
  - unfold childGone. destruct (child <? spawned st); [|exact Hc].
    now apply setProcess_none_consistent.
Qed.

Lemma run_from_consistent tasks st :
  Consistent st -> Consistent (fold_left step tasks st).
Proof.
  revert st; induction tasks as [|t tasks IH]; intros st Hc; cbn [fold_left];
    [exact Hc|].
  apply IH, step_consistent, Hc.
Qed.

(** X30.  The forced kill of the stop route never reaches the child it
    was set for.  Whatever requests, timers and child events follow
    one another, every SIGKILL that a timer of the stop route sends
    goes to a child spawned after the child that stop request was
    stopping: the route clears the variable before the timer reads
    it. *)
Theorem forced_kill_misses_its_child :
  forall tasks k origin,
    In k (kills (replay tasks)) ->
    k_timerOf k = Some origin ->
    k_signal k = SIGKILL /\ origin < k_target k /\ k_target k <> origin.
Proof.
  intros tasks k origin Hin Ho.
  pose proof (run_from_consistent tasks initial initial_consistent) as Hc.
  fold (replay tasks) in Hc.
  pose proof (forced_later _ Hc k origin Hin Ho) as Hlt.
  split; [|split; lia].
  clear Hc Hlt. unfold replay in Hin.
  assert (Hgen : forall st,
             (forall k', In k' (kills st) -> k_timerOf k' <> None ->
                         k_signal k' = SIGKILL) ->
             In k (kills (fold_left step tasks st)) -> k_signal k = SIGKILL).
  { clear Hin. induction tasks as [|t tasks IH]; intros st Hst Hin;
      cbn [fold_left] in Hin.
    - apply Hst; [exact Hin|congruence].
    - apply (IH (step st t)); [|exact Hin]. clear IH Hin.
      intros k' Hk' Hn. unfold step in Hk'.
      destruct (crashed st); [now apply Hst|].
      destruct t as [credentials spawnOk outcome| |isWindows outcome|outcome
                    |child|child|]; try (now apply Hst).
      + unfold startRequest in Hk'. destruct (running st); [now apply Hst|].
        destruct credentials; cbn [negb] in Hk'; [|now apply Hst].
        destruct spawnOk; [now apply Hst|].
        destruct (postAutomationProcess st); [|now apply Hst].
        destruct outcome; cbn in Hk'; destruct Hk' as [<-|Hk'];
          try (now apply Hst); now contradiction Hn.
      + unfold stopRequest in Hk'. destruct (running st); [|now apply Hst].
        destruct isWindows; [now apply Hst|].
        destruct outcome; cbn in Hk'; destruct Hk' as [<-|Hk'];
          try (now apply Hst); now contradiction Hn.
      + unfold timerFires in Hk'.
        destruct (pendingTimers st); [now apply Hst|].
        match type of Hk' with
        | context [running ?s] => destruct (running s)
        end; [|now apply Hst].
        destruct outcome; cbn in Hk'; destruct Hk' as [<-|Hk'];
          try (now apply Hst); reflexivity.
      + unfold childGone in Hk'. destruct (child <? spawned st);
          now apply Hst.
      + unfold childGone in Hk'. destruct (child <? spawned st);
          now apply Hst. }
  apply (Hgen initial); [intros k' []|exact Hin].
Qed.

Lemma forced_kill_misses_its_child_witness :
  k_signal (mkKill SIGKILL 1 (Some 0)) = SIGKILL /\
  0 < k_target (mkKill SIGKILL 1 (Some 0)) /\
  k_target (mkKill SIGKILL 1 (Some 0)) <> 0.
Proof.
  apply (forced_kill_misses_its_child
           [ StartRequest true true Sent; StopRequest false Sent;
             StartRequest true true Sent; TimerFires Sent ]
           (mkKill SIGKILL 1 (Some 0)) 0).
  - vm_compute. left. reflexivity.
  - reflexivity.
Defined.

End SupervisorFacts.
